(** * A shallow embedding of the debugpy MCP server's DAP bridge

    The development follows the two client classes of the repository:

    - [debugpy_mcp_server/dap_client.py], class [DAPClient]: one socket, a
      background receive loop, sequence numbers, the table of waiters
      ([pending_requests]) and of stored responses ([responses]);
    - [debugpy_mcp_server/debugpy_client.py], class [DebugpyClient]: the
      session registry with its per-session breakpoint lists, which talks to
      the adapter synchronously over a socket of its own.

    Python values are modelled as follows: [int] is [Z], [str] is a list of
    Unicode code points, [bytes] is a list of numbers below 256, a [dict]
    used as a map is a [gmap], a JSON object is an association list in
    insertion order, [None] is [None]. Socket traffic is explicit: each
    client records in its [trace] what it does on its sockets, and what the
    adapter side does (a response, a closed peer, an exception) is an
    argument of the operation that meets it. *)

From Stdlib Require Import ZArith NArith List String Ascii Lia DecimalString DecimalNat.
From stdpp Require Import gmap strings list fin_maps sorting.

Local Set Warnings "-register-all".
Local Open Scope N_scope.

(** ** Python strings and UTF-8 *)

Module Py.

(** A Python [str]: a sequence of code points. *)
Abbreviation str := (list N).

(** The code points of an ASCII literal of the source. *)
Definition lit (s : string) : str := map N_of_ascii (list_ascii_of_string s).

(** [str(n)] for an [int]. *)
Definition str_of_int (z : Z) : str := lit (NilZero.string_of_int (Z.to_int z)).

(** [str(n)] for a length. *)
Definition str_of_len (n : nat) : str := lit (NilEmpty.string_of_uint (Nat.to_uint n)).

(** [sep.join(parts)]. *)
Fixpoint join (sep : str) (parts : list str) : str :=
  match parts with
  | [] => []
  | [p] => p
  | p :: rest => p ++ sep ++ join sep rest
  end.

(** The UTF-8 bytes of one code point; [None] where [str.encode('utf-8')]
    raises [UnicodeEncodeError] (a surrogate, or no code point at all). *)
Definition utf8_char (c : N) : option (list N) :=
  if c <? 0x80 then Some [c]
  else if c <? 0x800 then
    Some [N.lor 0xC0 (N.shiftr c 6); N.lor 0x80 (N.land c 0x3F)]
  else if c <? 0x10000 then
    if (0xD800 <=? c) && (c <=? 0xDFFF) then None
    else Some [N.lor 0xE0 (N.shiftr c 12);
               N.lor 0x80 (N.land (N.shiftr c 6) 0x3F);
               N.lor 0x80 (N.land c 0x3F)]
  else if c <? 0x110000 then
    Some [N.lor 0xF0 (N.shiftr c 18);
          N.lor 0x80 (N.land (N.shiftr c 12) 0x3F);
          N.lor 0x80 (N.land (N.shiftr c 6) 0x3F);
          N.lor 0x80 (N.land c 0x3F)]
  else None.

(** [s.encode('utf-8')]. *)
Fixpoint encode_utf8 (s : str) : option (list N) :=
  match s with
  | [] => Some []
  | c :: rest =>
      match utf8_char c, encode_utf8 rest with
      | Some b, Some bs => Some (b ++ bs)
      | _, _ => None
      end
  end.

(** A string all of whose code points are ASCII. *)
Definition is_ascii (s : str) : Prop := Forall (fun c => c < 128) s.

Definition is_asciib (s : str) : bool := forallb (fun c => c <? 128) s.

End Py.

(** ** JSON values and [json.dumps] *)

Module Json.
Import Py.

(** The values [json.loads] returns and [json.dumps] accepts; floats are
    not used by the requests of the two clients and are left out. An object
    keeps its keys in insertion order, as a Python [dict] does. *)
Inductive json : Type :=
| JNull
| JBool (b : bool)
| JInt (z : Z)
| JStr (s : str)
| JList (items : list json)
| JDict (kvs : list (str * json)).

(** [d.get(key)] on a [dict]; the association list stands for the dict
    that maps a key to its first binding in the list. *)
Fixpoint dict_get (kvs : list (str * json)) (key : str) : option json :=
  match kvs with
  | [] => None
  | (k, v) :: rest => if decide (k = key) then Some v else dict_get rest key
  end.

(** Python truthiness of a JSON value ([if v:]). *)
Definition truthy (v : json) : bool :=
  match v with
  | JNull => false
  | JBool b => b
  | JInt z => negb (Z.eqb z 0)
  | JStr s => negb (Nat.eqb (length s) 0)
  | JList l => negb (Nat.eqb (length l) 0)
  | JDict kvs => negb (Nat.eqb (length kvs) 0)
  end.

(** One lowercase hexadecimal digit. *)
Definition hexdigit (d : N) : N := if d <? 10 then 48 + d else 87 + d.

(** ['{0:04x}'.format(n)] for [n < 0x10000]. *)
Definition hex4 (n : N) : str :=
  [hexdigit (N.shiftr n 12 mod 16); hexdigit (N.shiftr n 8 mod 16);
   hexdigit (N.shiftr n 4 mod 16); hexdigit (n mod 16)].

(** The replacement of one character in [py_encode_basestring_ascii]: the
    pattern [ESCAPE_ASCII] matches a backslash, a double quote and every
    character outside the range from space to tilde. *)
Definition escape_char (c : N) : str :=
  if c =? 92 then lit "\\"
  else if c =? 34 then [92; 34]
  else if (32 <=? c) && (c <=? 126) then [c]
  else if c =? 10 then lit "\n"
  else if c =? 13 then lit "\r"
  else if c =? 9 then lit "\t"
  else if c =? 8 then lit "\b"
  else if c =? 12 then lit "\f"
  else if c <? 0x10000 then lit "\u" ++ hex4 c
  else
    let n := c - 0x10000 in
    let s1 := N.lor 0xd800 (N.land (N.shiftr n 10) 0x3ff) in
    let s2 := N.lor 0xdc00 (N.land n 0x3ff) in
    lit "\u" ++ hex4 s1 ++ lit "\u" ++ hex4 s2.

(** [py_encode_basestring_ascii(s)]: the quoted, escaped string. *)
Definition encode_basestring_ascii (s : str) : str :=
  [34] ++ concat (map escape_char s) ++ [34].

(** [json.dumps(v)] with its defaults: [ensure_ascii=True], the separators
    [", "] and [": "], no indentation. *)
Fixpoint dumps (v : json) : str :=
  match v with
  | JNull => lit "null"
  | JBool true => lit "true"
  | JBool false => lit "false"
  | JInt z => str_of_int z
  | JStr s => encode_basestring_ascii s
  | JList items => lit "[" ++ join (lit ", ") (map dumps items) ++ lit "]"
  | JDict kvs =>
      lit "{" ++
      join (lit ", ")
        (map (fun kv => encode_basestring_ascii (fst kv) ++ lit ": " ++ dumps (snd kv)) kvs)
      ++ lit "}"
  end.

End Json.

(** ** The request envelope and the socket handle, shared by both clients *)

Module Wire.
Import Py Json.

(** The request envelope built in [_send_request]: the dict with the keys
    [seq], [type], [command] and [arguments], in this order. *)
Record Request : Type := mkRequest {
  req_seq : Z;
  req_command : str;
  req_arguments : json
}.

Definition request_json (r : Request) : json :=
  JDict [(lit "seq", JInt (req_seq r));
         (lit "type", JStr (lit "request"));
         (lit "command", JStr (req_command r));
         (lit "arguments", req_arguments r)].

(** A socket handle: the peer it was connected to. *)
Record Socket : Type := mkSocket { peer_host : str; peer_port : Z }.

(** What [socket.connect] does. *)
Inductive ConnectIO : Type :=
| ConnectOk
| ConnectRaises (e : str).

End Wire.

(** ** The session registry: [DebugpyClient] *)

Module Debugpy.
Import Py Json Wire.

(** [models.DebugSession]. *)
Record DebugSession : Type := mkDebugSession {
  session_id : str;
  host : str;
  port : Z;
  is_connected : bool;
  process_id : option Z;
  status : str
}.

(** [models.Breakpoint]. *)
Record Breakpoint : Type := mkBreakpoint {
  breakpoint_id : Z;
  file_path : str;
  line_number : Z;
  is_enabled : bool;
  condition : option str;
  hit_count : Z
}.

(** Lines 341-345 of [_send_request]: the bytes handed to [sock.send];
    [None] where [encode] raises. *)
Definition frame (r : Request) : option (list N) :=
  let message := dumps (request_json r) in
  match encode_utf8 message with
  | None => None
  | Some body =>
      let content_length := length body in
      encode_utf8 (lit "Content-Length: " ++ str_of_len content_length
                   ++ [13; 10; 13; 10] ++ message)
  end.

(** What the client does on its sockets, in order. *)
Inductive io_event : Type :=
| IoConnect (sid : str) (h : str) (p : Z)
| IoSend (sid : str) (r : Request) (bytes : list N)
| IoClose (sid : str).

(** The fields of [DebugpyClient]; [trace] records the socket operations
    performed so far. *)
Record DebugpyClient : Type := mkClient {
  sessions : gmap str DebugSession;
  connections : gmap str Socket;
  breakpoints : gmap str (list Breakpoint);
  sequence_number : Z;
  trace : list io_event
}.

(** [DebugpyClient.__init__]. *)
Definition init : DebugpyClient :=
  {| sessions := ∅; connections := ∅; breakpoints := ∅;
     sequence_number := 1; trace := [] |}.

Definition set_sessions (f : gmap str DebugSession -> gmap str DebugSession)
    (st : DebugpyClient) : DebugpyClient :=
  {| sessions := f (sessions st); connections := connections st;
     breakpoints := breakpoints st; sequence_number := sequence_number st;
     trace := trace st |}.

Definition set_connections (f : gmap str Socket -> gmap str Socket)
    (st : DebugpyClient) : DebugpyClient :=
  {| sessions := sessions st; connections := f (connections st);
     breakpoints := breakpoints st; sequence_number := sequence_number st;
     trace := trace st |}.

Definition set_breakpoints (f : gmap str (list Breakpoint) -> gmap str (list Breakpoint))
    (st : DebugpyClient) : DebugpyClient :=
  {| sessions := sessions st; connections := connections st;
     breakpoints := f (breakpoints st); sequence_number := sequence_number st;
     trace := trace st |}.

Definition set_sequence_number (n : Z) (st : DebugpyClient) : DebugpyClient :=
  {| sessions := sessions st; connections := connections st;
     breakpoints := breakpoints st; sequence_number := n;
     trace := trace st |}.

Definition emit (e : io_event) (st : DebugpyClient) : DebugpyClient :=
  {| sessions := sessions st; connections := connections st;
     breakpoints := breakpoints st; sequence_number := sequence_number st;
     trace := trace st ++ [e] |}.

(** What the adapter side does during one [_send_request]: [sock.send]
    raises, or the request is written and [_read_response] returns a parsed
    body or [None]. *)
Inductive SendIO : Type :=
| SendRaises
| Reply (response : option json).

(** [create_session]; [new_id] is the value of [str(uuid.uuid4())]. *)
Definition create_session (new_id : str) (h : str) (p : Z) (st : DebugpyClient)
    : str * DebugpyClient :=
  let session := {| session_id := new_id; host := h; port := p;
                    is_connected := false; process_id := None;
                    status := lit "created" |} in
  (new_id,
   set_breakpoints (fun m => <[new_id := []]> m)
     (set_sessions (fun m => <[new_id := session]> m) st)).

(** [_send_request]: every exception inside its [try] is caught and turned
    into [None]. *)
Definition _send_request (io : SendIO) (sid : str) (command : str) (arguments : json)
    (st : DebugpyClient) : option json * DebugpyClient :=
  match connections st !! sid with
  | None => (None, st)
  | Some sock =>
      let seq := sequence_number st in
      let st1 := set_sequence_number (seq + 1)%Z st in
      let request := {| req_seq := seq; req_command := command;
                        req_arguments := arguments |} in
      match frame request, io with
      | Some bytes, Reply response => (response, emit (IoSend sid request bytes) st1)
      | _, _ => (None, st1)
      end
  end.

(** The arguments of the [initialize] request of [connect_session]. *)
Definition initialize_arguments : json :=
  JDict [(lit "clientID", JStr (lit "debugpy-mcp-server"));
         (lit "clientName", JStr (lit "Debugpy MCP Server"));
         (lit "adapterID", JStr (lit "python"));
         (lit "pathFormat", JStr (lit "path"));
         (lit "linesStartAt1", JBool true);
         (lit "columnsStartAt1", JBool true);
         (lit "supportsVariableType", JBool true);
         (lit "supportsVariablePaging", JBool true);
         (lit "supportsRunInTerminalRequest", JBool false)].

(** [connect_session]. The session object is mutated in place, so the map
    entry is rewritten; the value returned by the [initialize] request is
    dropped, as in the source. *)
Definition connect_session (c : ConnectIO) (io : SendIO) (sid : str)
    (st : DebugpyClient) : bool * DebugpyClient :=
  match sessions st !! sid with
  | None => (false, st)
  | Some session =>
      match c with
      | ConnectRaises e =>
          let session' := {| session_id := session_id session; host := host session;
                             port := port session; is_connected := is_connected session;
                             process_id := process_id session;
                             status := lit "connection_failed: " ++ e |} in
          (false, set_sessions (fun m => <[sid := session']> m) st)
      | ConnectOk =>
          let sock := {| peer_host := host session; peer_port := port session |} in
          let st1 := set_connections (fun m => <[sid := sock]> m)
                       (emit (IoConnect sid (host session) (port session)) st) in
          let '(_, st2) := _send_request io sid (lit "initialize") initialize_arguments st1 in
          let session' := {| session_id := session_id session; host := host session;
                             port := port session; is_connected := true;
                             process_id := process_id session;
                             status := lit "connected" |} in
          (true, set_sessions (fun m => <[sid := session']> m) st2)
      end
  end.

(** [disconnect_session]. *)
Definition disconnect_session (sid : str) (st : DebugpyClient) : bool * DebugpyClient :=
  match sessions st !! sid with
  | None => (false, st)
  | Some session =>
      let st1 := match connections st !! sid with
                 | Some _ => set_connections (fun m => delete sid m) (emit (IoClose sid) st)
                 | None => st
                 end in
      let session' := {| session_id := session_id session; host := host session;
                         port := port session; is_connected := false;
                         process_id := process_id session;
                         status := lit "disconnected" |} in
      (true, set_sessions (fun m => <[sid := session']> m) st1)
  end.

(** The condition of line 112, negated: the session is known and its
    [is_connected] flag is set. *)
Definition session_connected (sid : str) (st : DebugpyClient) : bool :=
  match sessions st !! sid with
  | Some session => is_connected session
  | None => false
  end.

(** [response and response.get("success")] as a condition. A truthy
    response that is not an object makes [.get] raise, which the callers
    catch and treat like a failure. *)
Definition response_success (response : option json) : bool :=
  match response with
  | Some (JDict kvs) =>
      negb (Nat.eqb (length kvs) 0) &&
      match dict_get kvs (lit "success") with
      | Some v => truthy v
      | None => false
      end
  | _ => false
  end.

Definition json_of_condition (c : option str) : json :=
  match c with
  | Some s => JStr s
  | None => JNull
  end.

(** The arguments of the [setBreakpoints] request of [set_breakpoint]. *)
Definition set_arguments (path : str) (line : Z) (c : option str) : json :=
  JDict [(lit "source", JDict [(lit "path", JStr path)]);
         (lit "breakpoints",
          JList [JDict [(lit "line", JInt line);
                        (lit "condition", json_of_condition c)]])].

(** The arguments of the [setBreakpoints] request of [clear_breakpoint]. *)
Definition clear_arguments (path : str) : json :=
  JDict [(lit "source", JDict [(lit "path", JStr path)]);
         (lit "breakpoints", JList [])].

(** [set_breakpoint]. A missing entry of [self.breakpoints] raises
    [KeyError] inside the [try], which ends in [return None]. *)
Definition set_breakpoint (io : SendIO) (sid : str) (path : str) (line : Z)
    (c : option str) (st : DebugpyClient) : option Breakpoint * DebugpyClient :=
  if negb (session_connected sid st) then (None, st)
  else
    match breakpoints st !! sid with
    | None => (None, st)
    | Some bps =>
        let id := (Z.of_nat (length bps) + 1)%Z in
        let '(response, st1) :=
          _send_request io sid (lit "setBreakpoints") (set_arguments path line c) st in
        if response_success response then
          let bp := {| breakpoint_id := id; file_path := path;
                       line_number := line; is_enabled := true;
                       condition := c; hit_count := 0 |} in
          (Some bp, set_breakpoints (fun m => <[sid := bps ++ [bp]]> m) st1)
        else (None, st1)
    end.

(** The loop of [clear_breakpoint]: the index and value of the first
    breakpoint carrying the identifier. *)
Definition find_breakpoint (id : Z) (bps : list Breakpoint) : option (nat * Breakpoint) :=
  list_find (fun bp => breakpoint_id bp = id) bps.

(** [clear_breakpoint]. [_send_request] raises nothing, so the first match
    is popped and the function returns [True]. *)
Definition clear_breakpoint (io : SendIO) (sid : str) (id : Z) (st : DebugpyClient)
    : bool * DebugpyClient :=
  match breakpoints st !! sid with
  | None => (false, st)
  | Some bps =>
      match find_breakpoint id bps with
      | None => (false, st)
      | Some (i, bp) =>
          let '(_, st1) :=
            _send_request io sid (lit "setBreakpoints") (clear_arguments (file_path bp)) st in
          (true, set_breakpoints (fun m => <[sid := delete i bps]> m) st1)
      end
  end.

(** [list_breakpoints]. *)
Definition list_breakpoints (sid : str) (st : DebugpyClient) : list Breakpoint :=
  default [] (breakpoints st !! sid).

(** [get_session]. *)
Definition get_session (sid : str) (st : DebugpyClient) : option DebugSession :=
  sessions st !! sid.

(** The public operations, each with what the adapter side does meanwhile.
    [OpRequest] stands for the operations that only forward one request
    ([continue_execution], the steps, [get_stack_trace], ...). *)
Inductive op : Type :=
| OpCreate (new_id : str) (h : str) (p : Z)
| OpConnect (c : ConnectIO) (io : SendIO) (sid : str)
| OpDisconnect (sid : str)
| OpSetBreakpoint (io : SendIO) (sid : str) (path : str) (line : Z) (c : option str)
| OpClearBreakpoint (io : SendIO) (sid : str) (id : Z)
| OpRequest (io : SendIO) (sid : str) (command : str) (arguments : json).

Definition apply_op (o : op) (st : DebugpyClient) : DebugpyClient :=
  match o with
  | OpCreate new_id h p => snd (create_session new_id h p st)
  | OpConnect c io sid => snd (connect_session c io sid st)
  | OpDisconnect sid => snd (disconnect_session sid st)
  | OpSetBreakpoint io sid path line c => snd (set_breakpoint io sid path line c st)
  | OpClearBreakpoint io sid id => snd (clear_breakpoint io sid id st)
  | OpRequest io sid command arguments => snd (_send_request io sid command arguments st)
  end.

(** The registry after a sequence of operations on a new client. *)
Definition run (ops : list op) : DebugpyClient := foldl (fun st o => apply_op o st) init ops.

(** The requests written for a session, oldest first. *)
Definition sent_to (sid : str) (t : list io_event) : list Request :=
  omap (fun e => match e with
                 | IoSend sid' r _ => if decide (sid' = sid) then Some r else None
                 | _ => None
                 end) t.

End Debugpy.

(** ** The connection: [DAPClient] *)

Module Dap.
Import Py Json Wire.

(** A decoded protocol message: a JSON object. *)
Abbreviation message := (list (str * json)).

(** Lines 166-168 of [_send_request]: the bytes handed to [socket.send];
    the header carries [len(message)], the number of characters. *)
Definition frame (r : Request) : option (list N) :=
  let message := dumps (request_json r) in
  let content := lit "Content-Length: " ++ str_of_len (length message)
                 ++ [13; 10; 13; 10] ++ message in
  encode_utf8 content.

(** What the client does on its socket and thread, in order. *)
Inductive io_event : Type :=
| IoConnect (h : str) (p : Z) (timeout : Z)
| IoStartThread
| IoSend (r : Request) (bytes : list N)
| IoClose
| IoJoin (timeout : Z).

(** The records written to the logger. *)
Inductive log_record : Type :=
| LogTimeout (command : str)
| LogSendError (command : str) (e : str)
| LogConnectError (e : str)
| LogReceiveError (e : str)
| LogParseError (e : str)
| LogEvent (event : json) (body : json).

(** The fields of [DAPClient]. A [threading.Event] of [pending_requests] is
    its flag; a callback of [event_callbacks] is opaque, so the map keeps
    the registered names and [callback_calls] the calls made. [trace] and
    [log] record the socket operations and the log records so far. *)
Record DAPClient : Type := mkDAP {
  socket : option Socket;
  sequence_number : Z;
  pending_requests : gmap Z bool;
  responses : gmap Z message;
  event_callbacks : gset str;
  is_connected : bool;
  receive_thread : option bool;
  trace : list io_event;
  log : list log_record;
  callback_calls : list (str * json)
}.

(** [DAPClient.__init__]. *)
Definition init : DAPClient :=
  {| socket := None; sequence_number := 1; pending_requests := ∅;
     responses := ∅; event_callbacks := ∅; is_connected := false;
     receive_thread := None; trace := []; log := []; callback_calls := [] |}.

Definition set_socket (s : option Socket) (st : DAPClient) : DAPClient :=
  {| socket := s; sequence_number := sequence_number st;
     pending_requests := pending_requests st; responses := responses st;
     event_callbacks := event_callbacks st; is_connected := is_connected st;
     receive_thread := receive_thread st; trace := trace st; log := log st;
     callback_calls := callback_calls st |}.

Definition set_sequence_number (n : Z) (st : DAPClient) : DAPClient :=
  {| socket := socket st; sequence_number := n;
     pending_requests := pending_requests st; responses := responses st;
     event_callbacks := event_callbacks st; is_connected := is_connected st;
     receive_thread := receive_thread st; trace := trace st; log := log st;
     callback_calls := callback_calls st |}.

Definition set_pending (f : gmap Z bool -> gmap Z bool) (st : DAPClient) : DAPClient :=
  {| socket := socket st; sequence_number := sequence_number st;
     pending_requests := f (pending_requests st); responses := responses st;
     event_callbacks := event_callbacks st; is_connected := is_connected st;
     receive_thread := receive_thread st; trace := trace st; log := log st;
     callback_calls := callback_calls st |}.

Definition set_responses (f : gmap Z message -> gmap Z message) (st : DAPClient)
    : DAPClient :=
  {| socket := socket st; sequence_number := sequence_number st;
     pending_requests := pending_requests st; responses := f (responses st);
     event_callbacks := event_callbacks st; is_connected := is_connected st;
     receive_thread := receive_thread st; trace := trace st; log := log st;
     callback_calls := callback_calls st |}.

Definition set_event_callbacks (s : gset str) (st : DAPClient) : DAPClient :=
  {| socket := socket st; sequence_number := sequence_number st;
     pending_requests := pending_requests st; responses := responses st;
     event_callbacks := s; is_connected := is_connected st;
     receive_thread := receive_thread st; trace := trace st; log := log st;
     callback_calls := callback_calls st |}.

Definition set_is_connected (b : bool) (st : DAPClient) : DAPClient :=
  {| socket := socket st; sequence_number := sequence_number st;
     pending_requests := pending_requests st; responses := responses st;
     event_callbacks := event_callbacks st; is_connected := b;
     receive_thread := receive_thread st; trace := trace st; log := log st;
     callback_calls := callback_calls st |}.

Definition set_receive_thread (t : option bool) (st : DAPClient) : DAPClient :=
  {| socket := socket st; sequence_number := sequence_number st;
     pending_requests := pending_requests st; responses := responses st;
     event_callbacks := event_callbacks st; is_connected := is_connected st;
     receive_thread := t; trace := trace st; log := log st;
     callback_calls := callback_calls st |}.

Definition emit (e : io_event) (st : DAPClient) : DAPClient :=
  {| socket := socket st; sequence_number := sequence_number st;
     pending_requests := pending_requests st; responses := responses st;
     event_callbacks := event_callbacks st; is_connected := is_connected st;
     receive_thread := receive_thread st; trace := trace st ++ [e]; log := log st;
     callback_calls := callback_calls st |}.

Definition write_log (r : log_record) (st : DAPClient) : DAPClient :=
  {| socket := socket st; sequence_number := sequence_number st;
     pending_requests := pending_requests st; responses := responses st;
     event_callbacks := event_callbacks st; is_connected := is_connected st;
     receive_thread := receive_thread st; trace := trace st; log := log st ++ [r];
     callback_calls := callback_calls st |}.

Definition call_callback (name : str) (body : json) (st : DAPClient) : DAPClient :=
  {| socket := socket st; sequence_number := sequence_number st;
     pending_requests := pending_requests st; responses := responses st;
     event_callbacks := event_callbacks st; is_connected := is_connected st;
     receive_thread := receive_thread st; trace := trace st; log := log st;
     callback_calls := callback_calls st ++ [(name, body)] |}.

(** *** [_handle_message] *)

(** How a JSON value behaves as the key of a lookup in a dict whose keys
    are [int]s: an [int] or a [bool] is compared by value, a list or an
    object is unhashable and makes the lookup raise [TypeError], anything
    else is found in no such dict. *)
Inductive int_key : Type :=
| KeyInt (z : Z)
| KeyAbsent
| KeyUnhashable.

Definition key_of (v : option json) : int_key :=
  match v with
  | Some (JInt z) => KeyInt z
  | Some (JBool b) => KeyInt (if b then 1 else 0)%Z
  | Some (JList _) | Some (JDict _) => KeyUnhashable
  | _ => KeyAbsent
  end.

(** The event names logged by [_handle_message]. *)
Definition lifecycle_events : list str :=
  [lit "stopped"; lit "continued"; lit "terminated"; lit "exited"].

(** [message.get("body", {})]. *)
Definition body_of (m : message) : json := default (JDict []) (dict_get m (lit "body")).

(** The [response] branch, lines 236-239. *)
Definition handle_response (m : message) (st : DAPClient) : option DAPClient :=
  match key_of (dict_get m (lit "request_seq")) with
  | KeyUnhashable => None
  | KeyAbsent => Some st
  | KeyInt seq =>
      match pending_requests st !! seq with
      | Some _ =>
          Some (set_pending (fun p => <[seq := true]> p)
                  (set_responses (fun r => <[seq := m]> r) st))
      | None => Some st
      end
  end.

(** The [event] branch, lines 243-249; registered callbacks are taken to
    return normally. *)
Definition handle_event (m : message) (st : DAPClient) : option DAPClient :=
  let event := dict_get m (lit "event") in
  let called :=
    match event with
    | Some (JList _) | Some (JDict _) => None
    | Some (JStr name) =>
        if decide (name ∈ event_callbacks st)
        then Some (call_callback name (body_of m) st) else Some st
    | _ => Some st
    end in
  match called, event with
  | None, _ => None
  | Some st1, Some (JStr name) =>
      if decide (name ∈ lifecycle_events)
      then Some (write_log (LogEvent (JStr name) (body_of m)) st1) else Some st1
  | Some st1, _ => Some st1
  end.

(** [_handle_message]; [None] when the call raises: a body that is not an
    object has no [.get], an unhashable key makes a dict lookup raise. *)
Definition _handle_message (v : json) (st : DAPClient) : option DAPClient :=
  match v with
  | JDict m =>
      match dict_get m (lit "type") with
      | Some (JStr t) =>
          if decide (t = lit "response") then handle_response m st
          else if decide (t = lit "event") then handle_event m st
          else Some st
      | _ => Some st
      end
  | _ => None
  end.

(** [on_event]. *)
Definition on_event (name : str) (st : DAPClient) : DAPClient :=
  set_event_callbacks ({[name]} ∪ event_callbacks st) st.

(** *** [_receive_loop] *)

(** One complete frame cut from the buffer: its body parsed by
    [json.loads], a body that [json.loads] rejects, or a header or body
    that makes the decoding raise another exception. *)
Inductive Frame : Type :=
| FrameJson (v : json)
| FrameBadJson (e : str)
| FrameRaises (e : str).

(** What one [socket.recv] of the loop brings: bytes that complete the
    given frames, the empty read of a closed peer, or an exception. *)
Inductive Recv : Type :=
| RecvData (frames : list Frame)
| RecvEof
| RecvRaises (e : str).

(** The text of the exceptions [_handle_message] can raise. *)
Definition handler_error : str := lit "exception in _handle_message".

(** The inner [while] of the loop over the frames of one read; the second
    component is the exception that escapes, if any. *)
Fixpoint process_frames (frames : list Frame) (st : DAPClient)
    : DAPClient * option str :=
  match frames with
  | [] => (st, None)
  | FrameJson v :: rest =>
      match _handle_message v st with
      | Some st1 => process_frames rest st1
      | None => (st, Some handler_error)
      end
  | FrameBadJson e :: rest => process_frames rest (write_log (LogParseError e) st)
  | FrameRaises e :: _ => (st, Some e)
  end.

(** The loop is left: the thread ends. Nothing else is done. *)
Definition loop_exit (st : DAPClient) : DAPClient := set_receive_thread (Some false) st.

(** The [except] clause of the loop. *)
Definition loop_raise (e : str) (st : DAPClient) : DAPClient :=
  loop_exit (if is_connected st then write_log (LogReceiveError e) st else st).

(** Line 146 and line 188: [self.is_connected and self.socket]. *)
Definition guard (st : DAPClient) : bool :=
  is_connected st && bool_decide (is_Some (socket st)).

(** One iteration of the outer [while] of a running loop. *)
Definition receive_step (r : Recv) (st : DAPClient) : DAPClient :=
  if negb (guard st) then loop_exit st
  else
    match r with
    | RecvEof => loop_exit st
    | RecvRaises e => loop_raise e st
    | RecvData frames =>
        match process_frames frames st with
        | (st1, None) => st1
        | (st1, Some e) => loop_raise e st1
        end
    end.

(** The reads performed by the receive thread, as long as it is alive. *)
Fixpoint _receive_loop (reads : list Recv) (st : DAPClient) : DAPClient :=
  match reads with
  | [] => st
  | r :: rest =>
      match receive_thread st with
      | Some true => _receive_loop rest (receive_step r st)
      | _ => st
      end
  end.

(** *** [_send_request], statement by statement *)

(** Lines 149-151, under [self.lock]. *)
Definition alloc_seq (st : DAPClient) : Z * DAPClient :=
  (sequence_number st, set_sequence_number (sequence_number st + 1)%Z st).

(** Lines 161-162: a new, unset [Event] is stored for the number. *)
Definition register_waiter (seq : Z) (st : DAPClient) : DAPClient :=
  set_pending (fun p => <[seq := false]> p) st.

(** The text of the exception raised by [self.socket.send] when
    [self.socket] is [None], or by [encode]. *)
Definition no_socket_error : str := lit "'NoneType' object has no attribute 'send'".
Definition encode_error : str := lit "UnicodeEncodeError".

(** Lines 166-168; [send_error] is the exception [socket.send] raises, if
    it does. *)
Definition send (send_error : option str) (r : Request) (st : DAPClient)
    : str + DAPClient :=
  match frame r with
  | None => inl encode_error
  | Some bytes =>
      match socket st with
      | None => inl no_socket_error
      | Some _ =>
          match send_error with
          | Some e => inl e
          | None => inr (emit (IoSend r bytes) st)
          end
      end
  end.

(** The value of [event.wait(timeout=10)] when the wait ends in the given
    state: the flag of the waiter. *)
Definition event_is_set (seq : Z) (st : DAPClient) : bool :=
  default false (pending_requests st !! seq).

(** Line 172. *)
Definition pop_response (seq : Z) (st : DAPClient) : option message * DAPClient :=
  (responses st !! seq, set_responses (fun r => delete seq r) st).

(** Line 182, the [finally] clause. *)
Definition finally (seq : Z) (st : DAPClient) : DAPClient :=
  set_pending (fun p => delete seq p) st.

(** Lines 171-182: what the caller does once its wait has ended. *)
Definition await_response (seq : Z) (command : str) (st : DAPClient)
    : option message * DAPClient :=
  if event_is_set seq st then
    let '(response, st1) := pop_response seq st in
    (response, finally seq st1)
  else
    (None, finally seq (write_log (LogTimeout command) st)).

(** What happens around one call of [_send_request]: the exception of
    [socket.send], if any, and the reads the receive thread performs while
    the caller waits. *)
Record SendIO : Type := mkSendIO {
  send_error : option str;
  arrivals : list Recv
}.

(** [_send_request] as its caller sees it. *)
Definition _send_request (io : SendIO) (command : str) (arguments : json)
    (st : DAPClient) : option message * DAPClient :=
  if negb (guard st) then (None, st)
  else
    let '(seq, st1) := alloc_seq st in
    let request := {| req_seq := seq; req_command := command;
                      req_arguments := arguments |} in
    let st2 := register_waiter seq st1 in
    match send (send_error io) request st2 with
    | inl e => (None, finally seq (write_log (LogSendError command e) st2))
    | inr st3 => await_response seq command (_receive_loop (arrivals io) st3)
    end.

(** *** [connect] and [disconnect] *)

(** The arguments of the [initialize] request of [connect]. *)
Definition initialize_arguments : json :=
  JDict [(lit "clientID", JStr (lit "debugpy-mcp-server"));
         (lit "clientName", JStr (lit "Debugpy MCP Server"));
         (lit "adapterID", JStr (lit "python"));
         (lit "pathFormat", JStr (lit "path"));
         (lit "linesStartAt1", JBool true);
         (lit "columnsStartAt1", JBool true);
         (lit "supportsVariableType", JBool true);
         (lit "supportsVariablePaging", JBool true);
         (lit "supportsRunInTerminalRequest", JBool false);
         (lit "supportsMemoryReferences", JBool false);
         (lit "supportsProgressReporting", JBool false);
         (lit "supportsInvalidatedEvent", JBool false)].

(** [response and response.get("success")] as a condition. *)
Definition response_success (response : option message) : bool :=
  match response with
  | Some m =>
      negb (Nat.eqb (length m) 0) &&
      match dict_get m (lit "success") with
      | Some v => truthy v
      | None => false
      end
  | None => false
  end.

(** [config_response and config_response.get("success", True)], read as a
    truth value. *)
Definition config_success (response : option message) : bool :=
  match response with
  | Some m =>
      negb (Nat.eqb (length m) 0) &&
      match dict_get m (lit "success") with
      | Some v => truthy v
      | None => true
      end
  | None => false
  end.

(** [connect]; [io_init] and [io_conf] are what happens around the two
    requests. *)
Definition connect (c : ConnectIO) (io_init io_conf : SendIO) (h : str) (p : Z)
    (timeout : Z) (st : DAPClient) : bool * DAPClient :=
  let st0 := set_socket (Some {| peer_host := h; peer_port := p |}) st in
  match c with
  | ConnectRaises e =>
      (false, set_is_connected false (write_log (LogConnectError e) st0))
  | ConnectOk =>
      let st1 := set_is_connected true (emit (IoConnect h p timeout) st0) in
      let st2 := emit IoStartThread (set_receive_thread (Some true) st1) in
      let '(response, st3) :=
        _send_request io_init (lit "initialize") initialize_arguments st2 in
      if response_success response then
        let '(config_response, st4) :=
          _send_request io_conf (lit "configurationDone") (JDict []) st3 in
        (config_success config_response, st4)
      else (false, st3)
  end.

(** [disconnect]; [io] is what would happen around its request. *)
Definition disconnect (io : SendIO) (st : DAPClient) : DAPClient :=
  let st1 := set_is_connected false st in
  let st2 :=
    match socket st1 with
    | Some _ =>
        let '(_, st') :=
          _send_request io (lit "disconnect") (JDict [(lit "restart", JBool false)]) st1 in
        set_socket None (emit IoClose st')
    | None => st1
    end in
  match receive_thread st2 with
  | Some true => emit (IoJoin 1) st2
  | _ => st2
  end.

(** The requests written to the socket, oldest first. *)
Definition sent (t : list io_event) : list Request :=
  omap (fun e => match e with IoSend r _ => Some r | _ => None end) t.

(** *** Callers and the receive thread, interleaved *)

(** Where a caller stands inside [_send_request]. *)
Inductive pc : Type :=
| AtGuard (command : str) (arguments : json)
| AtLock (command : str) (arguments : json)
| AtRegister (seq : Z) (command : str) (arguments : json)
| AtSend (seq : Z) (command : str) (arguments : json)
| AtWait (seq : Z) (command : str)
| AtPop (seq : Z)
| AtTimeoutLog (seq : Z) (command : str)
| AtSendErrorLog (seq : Z) (command : str) (e : str)
| AtFinally (seq : Z) (result : option message)
| Returned (result : option message).

(** The next statement of a caller. A step taken at [AtWait] is the end of
    [event.wait]: with the flag set it returned [True], otherwise the
    timeout has elapsed. *)
Definition thread_step (send_error : option str) (p : pc) (st : DAPClient)
    : option (pc * DAPClient) :=
  match p with
  | AtGuard c a =>
      if guard st then Some (AtLock c a, st) else Some (Returned None, st)
  | AtLock c a =>
      let '(seq, st1) := alloc_seq st in Some (AtRegister seq c a, st1)
  | AtRegister seq c a => Some (AtSend seq c a, register_waiter seq st)
  | AtSend seq c a =>
      match send send_error {| req_seq := seq; req_command := c; req_arguments := a |} st with
      | inl e => Some (AtSendErrorLog seq c e, st)
      | inr st1 => Some (AtWait seq c, st1)
      end
  | AtWait seq c =>
      if event_is_set seq st then Some (AtPop seq, st)
      else Some (AtTimeoutLog seq c, st)
  | AtPop seq =>
      let '(response, st1) := pop_response seq st in Some (AtFinally seq response, st1)
  | AtTimeoutLog seq c => Some (AtFinally seq None, write_log (LogTimeout c) st)
  | AtSendErrorLog seq c e => Some (AtFinally seq None, write_log (LogSendError c e) st)
  | AtFinally seq r => Some (Returned r, finally seq st)
  | Returned _ => None
  end.

(** One move of the system: a new caller enters [_send_request], caller
    [i] runs its next statement, or the receive thread performs a read. *)
Inductive action : Type :=
| Call (command : str) (arguments : json)
| Thread (i : nat) (send_error : option str)
| Receive (r : Recv).

(** The client object together with the callers inside [_send_request]. *)
Definition config : Type := DAPClient * list pc.

Definition exec (a : action) (cfg : config) : option config :=
  let '(st, ts) := cfg in
  match a with
  | Call c args => Some (st, ts ++ [AtGuard c args])
  | Thread i send_error =>
      match ts !! i with
      | None => None
      | Some p =>
          match thread_step send_error p st with
          | None => None
          | Some (p', st') => Some (st', <[i := p']> ts)
          end
      end
  | Receive r =>
      match receive_thread st with
      | Some true => Some (receive_step r st, ts)
      | _ => None
      end
  end.

(** A schedule, run from a configuration. *)
Fixpoint exec_all (acts : list action) (cfg : config) : option config :=
  match acts with
  | [] => Some cfg
  | a :: rest =>
      match exec a cfg with
      | Some cfg' => exec_all rest cfg'
      | None => None
      end
  end.

(** The sequence number a caller holds, if it holds one. *)
Definition held_seq (p : pc) : option Z :=
  match p with
  | AtRegister seq _ _ | AtSend seq _ _ | AtWait seq _ | AtPop seq
  | AtTimeoutLog seq _ | AtSendErrorLog seq _ _ | AtFinally seq _ => Some seq
  | AtGuard _ _ | AtLock _ _ | Returned _ => None
  end.

(** *** Vocabulary for the statements below *)

(** The message is a response whose [request_seq] designates the waiter of
    [seq]. *)
Definition is_response_to (seq : Z) (v : json) : bool :=
  match v with
  | JDict m =>
      match dict_get m (lit "type"), key_of (dict_get m (lit "request_seq")) with
      | Some (JStr t), KeyInt z => bool_decide (t = lit "response") && bool_decide (z = seq)
      | _, _ => false
      end
  | _ => false
  end.

(** The read completes a frame that is a response to [seq]. *)
Definition carries_response_to (seq : Z) (r : Recv) : bool :=
  match r with
  | RecvData frames =>
      existsb (fun f => match f with
                        | FrameJson v => is_response_to seq v
                        | _ => false
                        end) frames
  | _ => false
  end.

(** The two reads on which the loop is left: the zero-length read and the
    read that raises. *)
Definition is_exit (r : Recv) : bool :=
  match r with
  | RecvEof | RecvRaises _ => true
  | RecvData _ => false
  end.

(** The sequence number whose waiter a caller has stored and not yet
    removed. *)
Definition registered (p : pc) : option Z :=
  match p with
  | AtSend seq _ _ | AtWait seq _ | AtPop seq
  | AtTimeoutLog seq _ | AtSendErrorLog seq _ _ | AtFinally seq _ => Some seq
  | AtGuard _ _ | AtLock _ _ | AtRegister _ _ _ | Returned _ => None
  end.

(** The bookkeeping of sequence numbers: a number held by a caller has
    been allocated, no two callers hold the same number, and every waiter
    of [pending_requests] belongs to a caller that has stored it. *)
Definition seqs_consistent (cfg : config) : Prop :=
  (forall i p z, cfg.2 !! i = Some p -> held_seq p = Some z ->
     (z < sequence_number cfg.1)%Z) /\
  (forall i j p q z, cfg.2 !! i = Some p -> cfg.2 !! j = Some q ->
     held_seq p = Some z -> held_seq q = Some z -> i = j) /\
  (forall z, is_Some (pending_requests cfg.1 !! z) ->
     exists i p, cfg.2 !! i = Some p /\ registered p = Some z).

(** [n] statements of a caller, or fewer if it returns earlier. *)
Fixpoint advance (n : nat) (send_error : option str) (p : pc) (st : DAPClient)
    : pc * DAPClient :=
  match n with
  | O => (p, st)
  | S n' =>
      match thread_step send_error p st with
      | Some (p', st') => advance n' send_error p' st'
      | None => (p, st)
      end
  end.

End Dap.

(** ** Concrete runs used below *)

Module Scenario.
Import Py Json Wire.

(** A session id, as [uuid.uuid4()] could return it, and one never issued. *)
Definition s1 : str := lit "0b0e0c7e-5d3c-4c58-9d57-2f6f4b8a9a11".
Definition unknown : str := lit "no-such-session".

Definition a_py : str := lit "a.py".

(** Response bodies of the adapter. *)
Definition success_body : json := JDict [(lit "success", JBool true)].
Definition failure_body : json :=
  JDict [(lit "success", JBool false); (lit "message", JStr (lit "refused"))].

(** The adapter answers a request of [DebugpyClient] with success, or with
    [success: false]. *)
Definition accepts : Debugpy.SendIO := Debugpy.Reply (Some success_body).
Definition refuses : Debugpy.SendIO := Debugpy.Reply (Some failure_body).

(** The same with breakpoints set at lines 10 and 20 of [a.py]. *)
Definition two_breakpoints : Debugpy.DebugpyClient :=
  Debugpy.run [Debugpy.OpCreate s1 (lit "localhost") 5678;
               Debugpy.OpConnect ConnectOk accepts s1;
               Debugpy.OpSetBreakpoint accepts s1 a_py 10 None;
               Debugpy.OpSetBreakpoint accepts s1 a_py 20 None].

(** A created session that was never connected. *)
Definition created1 : Debugpy.DebugpyClient :=
  Debugpy.run [Debugpy.OpCreate s1 (lit "localhost") 5678].

(** A response of the adapter to request [seq]. *)
Definition response_to (seq : Z) (success : bool) : json :=
  JDict [(lit "type", JStr (lit "response"));
         (lit "request_seq", JInt seq);
         (lit "success", JBool success)].

(** A [stopped] event. *)
Definition stopped_event : json :=
  JDict [(lit "type", JStr (lit "event"));
         (lit "event", JStr (lit "stopped"));
         (lit "body", JDict [(lit "reason", JStr (lit "breakpoint"))])].

(** Around a request of [DAPClient]: the given message is read while the
    caller waits, or nothing is read. *)
Definition arrives (v : json) : Dap.SendIO :=
  {| Dap.send_error := None; Dap.arrivals := [Dap.RecvData [Dap.FrameJson v]] |}.
Definition silence : Dap.SendIO :=
  {| Dap.send_error := None; Dap.arrivals := [] |}.

(** An [evaluate] request whose expression is the one character U+00E9. *)
Definition evaluate_e_acute : Request :=
  {| req_seq := 7; req_command := lit "evaluate";
     req_arguments := JDict [(lit "expression", JStr [233]);
                             (lit "context", JStr (lit "repl"))] |}.

(** A [DAPClient] after a successful [connect]: requests 1 and 2 were the
    handshake, the receive thread is running. *)
Definition dap_connected : Dap.DAPClient :=
  snd (Dap.connect ConnectOk (arrives (response_to 1 true)) (arrives (response_to 2 true))
         (lit "localhost") 5678 30 Dap.init).

Definition threads : str := lit "threads".

(** A caller of [get_threads] runs up to its wait. *)
Definition until_wait : list Dap.action :=
  [Dap.Call threads (JDict []);
   Dap.Thread 0 None; Dap.Thread 0 None; Dap.Thread 0 None; Dap.Thread 0 None].

(** The caller's wait times out; the response then arrives before the
    caller has logged the timeout and run its [finally] clause. *)
Definition late_response_schedule : list Dap.action :=
  until_wait ++
  [Dap.Thread 0 None;
   Dap.Receive (Dap.RecvData [Dap.FrameJson (response_to 3 true)]);
   Dap.Thread 0 None; Dap.Thread 0 None].

End Scenario.

(** ** Vocabulary for further properties of the registry *)

Module RegistryRuns.
Import Py Json Wire Debugpy.

(** The registry after a sequence of operations on a given client. *)
Definition run_from (st : DebugpyClient) (ops : list op) : DebugpyClient :=
  foldl (fun st o => apply_op o st) st ops.

(** Every request written, for whatever session, oldest first. *)
Definition all_sent (t : list io_event) : list Request :=
  omap (fun e => match e with IoSend _ r _ => Some r | _ => None end) t.

(** The sessions whose socket was closed, oldest first. *)
Definition closed_sockets (t : list io_event) : list str :=
  omap (fun e => match e with IoClose sid => Some sid | _ => None end) t.

(** The session an operation is called on ([create_session]: the new id). *)
Definition op_session (o : op) : str :=
  match o with
  | OpCreate new_id _ _ => new_id
  | OpConnect _ _ sid | OpDisconnect sid | OpSetBreakpoint _ sid _ _ _
  | OpClearBreakpoint _ sid _ | OpRequest _ sid _ _ => sid
  end.

(** The operation is [connect_session] on the session. *)
Definition connects (sid : str) (o : op) : bool :=
  match o with
  | OpConnect _ _ sid' => bool_decide (sid' = sid)
  | _ => false
  end.

End RegistryRuns.

(** ** Vocabulary for further properties of the correlator *)

Module CorrelatorRuns.
Import Py Json Wire Dap.

(** The parsed bodies among the frames of one read. *)
Definition frame_messages (frames : list Frame) : list json :=
  omap (fun f => match f with FrameJson v => Some v | _ => None end) frames.

(** The parsed bodies that a sequence of reads brings, in order. *)
Definition carried (reads : list Recv) : list json :=
  concat (map (fun r => match r with
                        | RecvData frames => frame_messages frames
                        | _ => []
                        end) reads).

(** The sequence number a caller has drawn and not yet written. *)
Definition unsent (p : pc) : option Z :=
  match p with
  | AtRegister seq _ _ | AtSend seq _ _ => Some seq
  | _ => None
  end.

(** Around a request: one read brings the one message. *)
Definition answered_by (m : message) : SendIO :=
  {| send_error := None; arrivals := [RecvData [FrameJson (JDict m)]] |}.

(** The bookkeeping of the wire: the requests written carry pairwise
    distinct sequence numbers, all drawn from the counter, and none of them
    a number that a caller has drawn and not yet written. *)
Definition wire_consistent (cfg : config) : Prop :=
  NoDup (map req_seq (sent (trace cfg.1))) /\
  (forall r, r ∈ sent (trace cfg.1) -> (req_seq r < sequence_number cfg.1)%Z) /\
  (forall i p z r, cfg.2 !! i = Some p -> unsent p = Some z ->
     r ∈ sent (trace cfg.1) -> req_seq r <> z).

(** Two callers of [get_threads] enter [_send_request] together; the
    second one writes its request first. *)
Definition two_callers_schedule : list action :=
  [Call (lit "threads") (JDict []); Call (lit "threads") (JDict []);
   Thread 0 None; Thread 1 None; Thread 0 None; Thread 1 None;
   Thread 1 None; Thread 1 None; Thread 0 None; Thread 0 None].

End CorrelatorRuns.

(** ** More of Python's text and bytes operations *)

Module PyText.
Import Py.

(** [c.isspace()], the characters [str.strip()] removes. *)
Definition is_space (c : N) : bool :=
  ((9 <=? c) && (c <=? 13)) || ((28 <=? c) && (c <=? 32)) ||
  (c =? 0x85) || (c =? 0xA0) || (c =? 0x1680) ||
  ((0x2000 <=? c) && (c <=? 0x200A)) ||
  (c =? 0x2028) || (c =? 0x2029) || (c =? 0x202F) || (c =? 0x205F) || (c =? 0x3000).

(** [s.lstrip()], [s.rstrip()] and [s.strip()]. *)
Fixpoint lstrip (s : str) : str :=
  match s with
  | c :: rest => if is_space c then lstrip rest else s
  | [] => []
  end.

Definition rstrip (s : str) : str := rev (lstrip (rev s)).

Definition strip (s : str) : str := rstrip (lstrip s).

(** [s.startswith(prefix)], also [b.startswith(prefix)] on bytes. *)
Fixpoint starts_with (prefix s : list N) : bool :=
  match prefix, s with
  | [], _ => true
  | p :: prefix', c :: s' => (p =? c) && starts_with prefix' s'
  | _ :: _, [] => false
  end.

(** [s.split(sep)] for a separator that is not empty: [cur] is the part
    being read, [skip] the characters of a separator still to pass. *)
Fixpoint split_go (sep : str) (skip : nat) (cur : str) (s : str) : list str :=
  match s with
  | [] => [cur]
  | c :: rest =>
      match skip with
      | S k => split_go sep k cur rest
      | O =>
          if starts_with sep s
          then cur :: split_go sep (length sep - 1) [] rest
          else split_go sep 0 (cur ++ [c]) rest
      end
  end.

Definition split (sep : str) (s : str) : list str := split_go sep 0 [] s.

(** [s.split(sep, 1)] when [sep] occurs in [s]: the part before the first
    occurrence and the part after it; [None] when it does not occur. *)
Fixpoint split_once (sep : str) (cur : str) (s : str) : option (str * str) :=
  match s with
  | [] => None
  | c :: rest =>
      if starts_with sep s then Some (cur, drop (length sep) s)
      else split_once sep (cur ++ [c]) rest
  end.

(** [b.find(needle)]: the index of the first occurrence. *)
Fixpoint find (needle : list N) (b : list N) : option nat :=
  match b with
  | [] => if starts_with needle [] then Some O else None
  | _ :: rest => if starts_with needle b then Some O else S <$> find needle rest
  end.

(** An index of a slice brought into the range of the sequence. *)
Definition slice_index (len : nat) (i : Z) : nat :=
  Z.to_nat (Z.max 0 (Z.min (Z.of_nat len) (if (i <? 0)%Z then i + Z.of_nat len else i))).

(** [b[start:stop]] and [b[start:]]. *)
Definition slice (b : list N) (start stop : Z) : list N :=
  take (slice_index (length b) stop - slice_index (length b) start)
       (drop (slice_index (length b) start) b).

Definition slice_from (b : list N) (start : Z) : list N :=
  drop (slice_index (length b) start) b.

(** A continuation byte of UTF-8. *)
Definition is_cont (b : N) : bool := (0x80 <=? b) && (b <=? 0xBF).

(** [b.decode('utf-8')]; [None] where it raises [UnicodeDecodeError]. *)
Fixpoint decode_utf8 (b : list N) : option str :=
  match b with
  | [] => Some []
  | b0 :: rest =>
      if b0 <? 0x80 then cons b0 <$> decode_utf8 rest
      else if (0xC2 <=? b0) && (b0 <=? 0xDF) then
        match rest with
        | b1 :: rest1 =>
            if is_cont b1
            then cons (N.lor (N.shiftl (N.land b0 0x1F) 6) (N.land b1 0x3F))
                   <$> decode_utf8 rest1
            else None
        | _ => None
        end
      else if (0xE0 <=? b0) && (b0 <=? 0xEF) then
        match rest with
        | b1 :: b2 :: rest2 =>
            if is_cont b1 && is_cont b2 &&
               negb ((b0 =? 0xE0) && (b1 <? 0xA0)) &&
               negb ((b0 =? 0xED) && (0xA0 <=? b1))
            then cons (N.lor (N.shiftl (N.land b0 0x0F) 12)
                         (N.lor (N.shiftl (N.land b1 0x3F) 6) (N.land b2 0x3F)))
                   <$> decode_utf8 rest2
            else None
        | _ => None
        end
      else if (0xF0 <=? b0) && (b0 <=? 0xF4) then
        match rest with
        | b1 :: b2 :: b3 :: rest3 =>
            if is_cont b1 && is_cont b2 && is_cont b3 &&
               negb ((b0 =? 0xF0) && (b1 <? 0x90)) &&
               negb ((b0 =? 0xF4) && (0x90 <=? b1))
            then cons (N.lor (N.shiftl (N.land b0 0x07) 18)
                         (N.lor (N.shiftl (N.land b1 0x3F) 12)
                            (N.lor (N.shiftl (N.land b2 0x3F) 6) (N.land b3 0x3F))))
                   <$> decode_utf8 rest3
            else None
        | _ => None
        end
      else None
  end.

(** *** [int(s)] *)

Section Int.

(** [Py_UNICODE_TODECIMAL] beyond ASCII: the value of a character of the
    Unicode category of decimal digits. The table is not part of the
    repository and stays a parameter. *)
Variable unicode_decimal : N -> option N.

(** The whitespace [int] passes over at both ends of the ASCII text. *)
Definition c_isspace (c : N) : bool := ((9 <=? c) && (c <=? 13)) || (c =? 32).

(** The ASCII text [int] parses: a space of Unicode becomes a blank, a
    decimal digit of Unicode the ASCII digit of its value, any other
    character beyond ASCII a question mark. *)
Definition to_ascii (c : N) : N :=
  if c <? 127 then c
  else if is_space c then 32
  else match unicode_decimal c with
       | Some d => 48 + d
       | None => 63
       end.

Definition is_digit (c : N) : bool := (48 <=? c) && (c <=? 57).

(** The digits, with single underscores between them, then whitespace up
    to the end. [after_digit] tells that the last character was a digit. *)
Fixpoint digits_value (acc : Z) (after_digit : bool) (s : str) : option Z :=
  match s with
  | [] => if after_digit then Some acc else None
  | c :: rest =>
      if is_digit c then digits_value (acc * 10 + Z.of_N (c - 48)) true rest
      else if c =? 95 then
        if after_digit then digits_value acc false rest else None
      else if after_digit && forallb c_isspace s then Some acc
      else None
  end.

Fixpoint skip_space (s : str) : str :=
  match s with
  | c :: rest => if c_isspace c then skip_space rest else s
  | [] => []
  end.

(** [int(s)] for a [str]; [None] where it raises [ValueError]. *)
Definition py_int (s : str) : option Z :=
  match skip_space (map to_ascii s) with
  | [] => None
  | c :: rest =>
      if c =? 43 then digits_value 0 false rest
      else if c =? 45 then Z.opp <$> digits_value 0 false rest
      else digits_value 0 false (c :: rest)
  end.

End Int.

End PyText.

(** ** The frame decoder of [DAPClient._receive_loop] *)

Module Decoder.
Import Py Json Wire PyText Dap.

Section Decoder.

(** [json.loads]; [None] where it raises [JSONDecodeError]. The parser is
    not part of the repository and stays a parameter. *)
Variable loads : str -> option json.
Variable unicode_decimal : N -> option N.

Definition blank_line : list N := [13; 10; 13; 10].

(** The texts of the exceptions that leave the loop. *)
Definition decode_error : str := lit "UnicodeDecodeError".
Definition value_error : str := lit "ValueError".
Definition index_error : str := lit "IndexError".
Definition json_error : str := lit "JSONDecodeError".

(** Lines 202-206: the length declared by the first header line that
    starts with [Content-Length:], 0 without such a line; [inl] where the
    evaluation raises. *)
Fixpoint content_length_of (lines : list str) : str + Z :=
  match lines with
  | [] => inr 0%Z
  | line :: rest =>
      if starts_with (lit "Content-Length:") line then
        match split (lit ":") line !! 1%nat with
        | None => inl index_error
        | Some value =>
            match py_int unicode_decimal (strip value) with
            | Some n => inr n
            | None => inl value_error
            end
        end
      else content_length_of rest
  end.

(** Lines 197-223, the inner [while]: the frames cut from the buffer and
    the buffer that is left. An exception that leaves the loop is the last
    frame, [FrameRaises]. Each turn of the loop takes one unit of [fuel];
    [None] when the fuel does not suffice. The frames are handled in this
    order by [process_frames], which stops at the first one whose handling
    raises. *)
Fixpoint cut_frames (fuel : nat) (buffer : list N) : option (list Frame * list N) :=
  match find blank_line buffer with
  | None => Some ([], buffer)
  | Some header_end =>
      match fuel with
      | O => None
      | S fuel' =>
          match decode_utf8 (take header_end buffer) with
          | None => Some ([FrameRaises decode_error], buffer)
          | Some header =>
              match content_length_of (split [13; 10] header) with
              | inl e => Some ([FrameRaises e], buffer)
              | inr content_length =>
                  if (Z.of_nat header_end + 4 + content_length <=? Z.of_nat (length buffer))%Z
                  then
                    let content_start := (Z.of_nat header_end + 4)%Z in
                    let content_end := (content_start + content_length)%Z in
                    match decode_utf8 (slice buffer content_start content_end) with
                    | None => Some ([FrameRaises decode_error], buffer)
                    | Some content =>
                        let frame := match loads content with
                                     | Some v => FrameJson v
                                     | None => FrameBadJson json_error
                                     end in
                        match cut_frames fuel' (slice_from buffer content_end) with
                        | Some (frames, rest) => Some (frame :: frames, rest)
                        | None => None
                        end
                    end
                  else Some ([], buffer)
              end
          end
      end
  end.

(** The loop is left by an exception. *)
Definition raised (frames : list Frame) : bool :=
  existsb (fun f => match f with FrameRaises _ => true | _ => false end) frames.

(** Lines 190-223 over a sequence of reads: each chunk is appended to the
    buffer, which is then cut; an empty read or a decoding exception ends
    the loop. The result is the frames in the order in which they are cut,
    which [process_frames] then handles, and the buffer that is left. *)
Fixpoint feed (fuel : nat) (chunks : list (list N)) (buffer : list N)
    : option (list Frame * list N) :=
  match chunks with
  | [] => Some ([], buffer)
  | [] :: _ => Some ([], buffer)
  | data :: later =>
      match cut_frames fuel (buffer ++ data) with
      | None => None
      | Some (frames, buffer') =>
          if raised frames then Some (frames, buffer')
          else
            match feed fuel later buffer' with
            | Some (frames', rest) => Some (frames ++ frames', rest)
            | None => None
            end
      end
  end.

(** A message as a peer frames it: the header line with the number of
    bytes of the body, a blank line, the body. *)
Definition envelope (body : list N) : list N :=
  lit "Content-Length: " ++ str_of_len (length body) ++ blank_line ++ body.

(** The frame the loop makes of a decoded body. *)
Definition frame_of_content (content : str) : Frame :=
  match loads content with
  | Some v => FrameJson v
  | None => FrameBadJson json_error
  end.

End Decoder.

End Decoder.

(** ** Concrete inputs for the decoders *)

Module DecoderScenario.
Import Py Json Wire PyText.

(** A stand-in for [json.loads] that knows the empty object only, and the
    empty table of decimal digits beyond ASCII. *)
Definition loads_empty_object (s : str) : option json :=
  if decide (s = [123; 125]) then Some (JDict []) else None.

Definition no_unicode_decimal (c : N) : option N := None.

(** The two bytes of the empty object. *)
Definition empty_object : list N := [123; 125].

(** A header that declares minus its own size, blank line included. *)
Definition cancelling_header : list N := lit "Content-Length: -23" ++ [13; 10; 13; 10].

End DecoderScenario.

(** ** The reader of [DebugpyClient] *)

Module Reader.
Import Py Json Wire PyText.

(** What the socket of a session will deliver: the bytes in the pieces in
    which they become available, and whether the peer has closed the
    connection behind them.  A socket with a timeout that finds nothing to
    read raises [socket.timeout] while the peer is there, and returns the
    empty bytes once the peer has closed. *)
Inductive peer_state : Type := PeerOpen | PeerClosed.

Record Inbox : Type := mkInbox {
  arrived : list (list N);
  peer : peer_state
}.

(** The next piece at hand, at most [n] bytes of it. *)
Fixpoint next_chunk (n : nat) (chunks : list (list N)) : option (list N * list (list N)) :=
  match chunks with
  | [] => None
  | [] :: later => next_chunk n later
  | c :: later => Some (take n c, if decide (drop n c = []) then later else drop n c :: later)
  end.

(** [sock.recv(n)] for a positive [n]; [None] is [socket.timeout]. *)
Definition recv (n : nat) (inbox : Inbox) : option (list N * Inbox) :=
  match next_chunk n (arrived inbox) with
  | Some (data, later) => Some (data, {| arrived := later; peer := peer inbox |})
  | None =>
      match peer inbox with
      | PeerClosed => Some ([], {| arrived := []; peer := PeerClosed |})
      | PeerOpen => None
      end
  end.

(** The pieces left after [k] bytes were received one at a time. *)
Fixpoint drop_bytes (k : nat) (chunks : list (list N)) : list (list N) :=
  match k with
  | O => chunks
  | S k' =>
      match next_chunk 1 chunks with
      | Some (_, later) => drop_bytes k' later
      | None => []
      end
  end.

(** How a call ends: it returns, it raises, or its loop is still turning
    when the fuel is spent. *)
Inductive outcome (A : Type) : Type :=
| Returns (a : A) (inbox : Inbox)
| Raises (inbox : Inbox)
| Unfinished.
Arguments Returns {A} a inbox.
Arguments Raises {A} inbox.
Arguments Unfinished {A}.

(** [_read_line], from the statement [line = ""] on; [line] is the text
    gathered so far. *)
Fixpoint _read_line (fuel : nat) (inbox : Inbox) (line : str) : outcome str :=
  match fuel with
  | O => Unfinished
  | S fuel' =>
      match recv 1 inbox with
      | None => Raises inbox
      | Some (data, inbox') =>
          match decode_utf8 data with
          | None => Raises inbox'
          | Some char =>
              if decide (char = [10]) then Returns line inbox'
              else if decide (char = [13]) then _read_line fuel' inbox' line
              else _read_line fuel' inbox' (line ++ char)
          end
      end
  end.

Section Reader.
Variable loads : str -> option json.
Variable unicode_decimal : N -> option N.

(** The header loop of [_read_response]. *)
Fixpoint read_headers (fuel : nat) (inbox : Inbox) (headers : gmap str str) :
    outcome (gmap str str) :=
  match fuel with
  | O => Unfinished
  | S fuel' =>
      match _read_line fuel' inbox [] with
      | Returns line inbox' =>
          if decide (line = []) then Returns headers inbox'
          else
            match split_once [58] [] line with
            | Some (key, value) =>
                read_headers fuel' inbox' (<[strip key := strip value]> headers)
            | None => read_headers fuel' inbox' headers
            end
      | Raises inbox' => Raises inbox'
      | Unfinished => Unfinished
      end
  end.

(** [int(headers.get("Content-Length", 0))]; [None] is [ValueError]. *)
Definition declared_length (headers : gmap str str) : option Z :=
  match headers !! lit "Content-Length" with
  | Some value => py_int unicode_decimal value
  | None => Some 0%Z
  end.

(** What [json.loads] hands back as a Python value: [null] is [None]. *)
Definition loaded (content : str) : option json :=
  match loads content with
  | Some JNull => None
  | r => r
  end.

(** [_read_response]: every exception is caught and turned into [None],
    so that the call returns or does not end. *)
Definition _read_response (fuel : nat) (inbox : Inbox) : outcome (option json) :=
  match read_headers fuel inbox ∅ with
  | Returns headers inbox' =>
      match declared_length headers with
      | None => Returns None inbox'
      | Some content_length =>
          if (0 <? content_length)%Z then
            match recv (Z.to_nat content_length) inbox' with
            | None => Returns None inbox'
            | Some (data, inbox'') =>
                match decode_utf8 data with
                | None => Returns None inbox''
                | Some content => Returns (loaded content) inbox''
                end
            end
          else Returns None inbox'
      end
  | Raises inbox' => Returns None inbox'
  | Unfinished => Unfinished
  end.

End Reader.

(** The header that announces [n] bytes, with its blank line. *)
Definition header_of (n : nat) : list N :=
  lit "Content-Length: " ++ str_of_len n ++ [13; 10; 13; 10].

End Reader.

(** ** The source window of [get_source_code] *)

Module Server.
Import Py PyText.

(** One entry of the ["source"] list. *)
Record source_line : Type := mkSourceLine {
  line_number : Z;
  content : str;
  is_target : bool
}.

(** [range(a, b)]. *)
Definition range (a b : Z) : list Z :=
  map (fun k => (a + Z.of_nat k)%Z) (seq 0 (Z.to_nat (b - a))).

(** [l[i]]: a negative index counts from the end; [None] is
    [IndexError]. *)
Definition index {A : Type} (l : list A) (i : Z) : option A :=
  if (i <? 0)%Z then
    if (Z.of_nat (length l) + i <? 0)%Z then None
    else l !! Z.to_nat (Z.of_nat (length l) + i)
  else l !! Z.to_nat i.

(** What the loop of [get_source_code] appends for the index [i]. *)
Definition entry_at (lines : list str) (target : Z) (i : Z) : option source_line :=
  match index lines i with
  | Some line =>
      Some {| line_number := i + 1; content := rstrip line;
              is_target := (i + 1 =? target)%Z |}
  | None => None
  end.

(** [get_source_code] from the lines that [readlines] returned to the
    list it puts under ["source"]. *)
Definition get_source_code (lines : list str) (line_number context_lines : Z) :
    option (list source_line) :=
  let start_line := Z.max 0 (line_number - context_lines - 1) in
  let end_line := Z.min (Z.of_nat (length lines)) (line_number + context_lines) in
  mapM (entry_at lines line_number) (range start_line end_line).

End Server.

(** * Properties *)

(** ** Framing: the header states the byte length of the body *)

Section Framing.
Import Py Json Wire.

Lemma is_asciib_spec (s : str) : is_asciib s = true -> is_ascii s.
Proof.
  unfold is_asciib, is_ascii. rewrite forallb_forall, Forall_forall.
  intros H c Hc. apply list_elem_of_In in Hc. apply N.ltb_lt. auto.
Qed.

Lemma is_ascii_app (a b : str) : is_ascii a -> is_ascii b -> is_ascii (a ++ b).
Proof. unfold is_ascii. intros. apply Forall_app. auto. Qed.

Lemma is_ascii_concat (l : list str) : Forall is_ascii l -> is_ascii (concat l).
Proof.
  induction 1 as [|x l Hx _ IH]; simpl.
  - constructor.
  - apply is_ascii_app; assumption.
Qed.

Lemma is_ascii_join (sep : str) (l : list str) :
  is_ascii sep -> Forall is_ascii l -> is_ascii (join sep l).
Proof.
  intros Hsep. induction 1 as [|x l Hx Hl IH]; simpl.
  - constructor.
  - destruct l as [|y l']; [assumption|].
    apply is_ascii_app; [assumption|]. apply is_ascii_app; assumption.
Qed.

Lemma uint_digits_ascii (d : Decimal.uint) :
  is_ascii (lit (NilEmpty.string_of_uint d)).
Proof.
  induction d; simpl; try constructor; try (cbv; reflexivity); assumption.
Qed.

Lemma str_of_len_ascii (n : nat) : is_ascii (str_of_len n).
Proof. apply uint_digits_ascii. Qed.

Lemma str_of_int_ascii (z : Z) : is_ascii (str_of_int z).
Proof.
  unfold str_of_int. destruct (Z.to_int z) as [d|d]; simpl.
  - destruct d; try apply uint_digits_ascii. apply is_asciib_spec. reflexivity.
  - constructor; [cbv; reflexivity|].
    destruct d; try apply uint_digits_ascii. apply is_asciib_spec. reflexivity.
Qed.

Lemma hexdigit_ascii (d : N) : d < 16 -> hexdigit d < 128.
Proof. unfold hexdigit. intros H. destruct (d <? 10); lia. Qed.

Lemma hex4_ascii (n : N) : is_ascii (hex4 n).
Proof.
  unfold hex4. repeat constructor; apply hexdigit_ascii; apply N.mod_lt; lia.
Qed.

Lemma escape_char_ascii (c : N) : is_ascii (escape_char c).
Proof.
  unfold escape_char.
  repeat match goal with
  | |- is_ascii (if ?b then _ else _) => destruct b eqn:?
  end;
  repeat first
    [ apply hex4_ascii
    | apply is_ascii_app
    | apply is_asciib_spec; reflexivity ].
  constructor; [|constructor].
  apply andb_true_iff in Heqb1 as [_ H%N.leb_le]. lia.
Qed.

Lemma encode_basestring_ascii_ascii (s : str) : is_ascii (encode_basestring_ascii s).
Proof.
  unfold encode_basestring_ascii.
  apply is_ascii_app; [apply is_asciib_spec; reflexivity|].
  apply is_ascii_app; [|apply is_asciib_spec; reflexivity].
  apply is_ascii_concat. apply Forall_forall. intros x Hx.
  apply list_elem_of_fmap in Hx as [c [-> _]]. apply escape_char_ascii.
Qed.

(** [json.dumps] with [ensure_ascii] writes ASCII only. *)
Lemma dumps_ascii : forall v : json, is_ascii (dumps v).
Proof.
  fix IH 1. intros v. destruct v as [| [|] | z | s | items | kvs]; cbn [dumps].
  - apply is_asciib_spec. reflexivity.
  - apply is_asciib_spec. reflexivity.
  - apply is_asciib_spec. reflexivity.
  - apply str_of_int_ascii.
  - apply encode_basestring_ascii_ascii.
  - apply is_ascii_app; [apply is_asciib_spec; reflexivity|].
    apply is_ascii_app; [|apply is_asciib_spec; reflexivity].
    apply is_ascii_join; [apply is_asciib_spec; reflexivity|].
    induction items as [|x items IHitems]; constructor; [apply IH | apply IHitems].
  - apply is_ascii_app; [apply is_asciib_spec; reflexivity|].
    apply is_ascii_app; [|apply is_asciib_spec; reflexivity].
    apply is_ascii_join; [apply is_asciib_spec; reflexivity|].
    induction kvs as [|[k x] kvs IHkvs]; constructor; [| apply IHkvs].
    cbn [fst snd]. apply is_ascii_app; [apply encode_basestring_ascii_ascii|].
    apply is_ascii_app; [apply is_asciib_spec; reflexivity | apply IH].
Qed.

(** An ASCII string is its own UTF-8 encoding. *)
Lemma encode_utf8_ascii (s : str) : is_ascii s -> encode_utf8 s = Some s.
Proof.
  induction 1 as [|c s Hc _ IH]; simpl; [reflexivity|].
  rewrite IH. unfold utf8_char.
  destruct (c <? 128) eqn:E; [reflexivity|]. apply N.ltb_ge in E. lia.
Qed.

(** The frames of both clients, in closed form. *)
Lemma frames_closed_form (r : Request) :
  is_ascii (dumps (request_json r)) /\
  Dap.frame r =
    Some (lit "Content-Length: " ++ str_of_len (length (dumps (request_json r)))
          ++ [13; 10; 13; 10] ++ dumps (request_json r)) /\
  Debugpy.frame r =
    Some (lit "Content-Length: " ++ str_of_len (length (dumps (request_json r)))
          ++ [13; 10; 13; 10] ++ dumps (request_json r)).
Proof.
  pose proof (dumps_ascii (request_json r)) as Hbody.
  pose proof (encode_utf8_ascii _ Hbody) as Henc.
  assert (Hall : is_ascii (lit "Content-Length: " ++
                    str_of_len (length (dumps (request_json r)))
                    ++ [13; 10; 13; 10] ++ dumps (request_json r))).
  { apply is_ascii_app; [apply is_asciib_spec; reflexivity|].
    apply is_ascii_app; [apply str_of_len_ascii|].
    apply is_ascii_app; [apply is_asciib_spec; reflexivity | assumption]. }
  split; [assumption|].
  unfold Dap.frame, Debugpy.frame. rewrite Henc.
  split; apply encode_utf8_ascii; exact Hall.
Qed.

(** C6: for every request, whatever characters its command and arguments
    contain, both clients hand to the socket the ASCII header line
    [Content-Length: n], where [n] is the exact number of UTF-8 bytes of
    the serialized JSON body, then a blank line, then those body bytes. *)
Theorem frame_states_body_byte_length (r : Request) :
  exists body header : list N,
    encode_utf8 (dumps (request_json r)) = Some body /\
    header = lit "Content-Length: " ++ str_of_len (length body) /\
    is_ascii header /\
    Dap.frame r = Some (header ++ [13; 10; 13; 10] ++ body) /\
    Debugpy.frame r = Some (header ++ [13; 10; 13; 10] ++ body).
Proof.
  destruct (frames_closed_form r) as (Hbody & Hdap & Hdbg).
  exists (dumps (request_json r)), (lit "Content-Length: " ++
    str_of_len (length (dumps (request_json r)))).
  split; [apply encode_utf8_ascii, Hbody|]. split; [reflexivity|].
  split; [apply is_ascii_app; [apply is_asciib_spec; reflexivity | apply str_of_len_ascii]|].
  rewrite <- !app_assoc. split; assumption.
Qed.

(** A body with a character outside ASCII: [json.dumps] writes it as the
    six characters of its escape, and both headers state the 110 bytes of
    the body. *)
Example frame_of_non_ascii_expression :
  length <$> encode_utf8 (dumps (request_json Scenario.evaluate_e_acute)) = Some 110%nat /\
  take 19 <$> Dap.frame Scenario.evaluate_e_acute = Some (lit "Content-Length: 110") /\
  Dap.frame Scenario.evaluate_e_acute = Debugpy.frame Scenario.evaluate_e_acute.
Proof. vm_compute. repeat split. Qed.

End Framing.

(** ** The session registry *)

Section Registry.
Import Py Json Wire Debugpy Scenario.

Lemma send_request_sessions io sid command arguments st :
  sessions (snd (_send_request io sid command arguments st)) = sessions st.
Proof.
  unfold _send_request. destruct (connections st !! sid); [|reflexivity].
  destruct (frame _); [|reflexivity]. destruct io; reflexivity.
Qed.

Lemma send_request_breakpoints io sid command arguments st :
  breakpoints (snd (_send_request io sid command arguments st)) = breakpoints st.
Proof.
  unfold _send_request. destruct (connections st !! sid); [|reflexivity].
  destruct (frame _); [|reflexivity]. destruct io; reflexivity.
Qed.

(** Without a connection for the session nothing is written and the
    client is left as it was. *)
Lemma send_request_no_connection io sid command arguments st :
  connections st !! sid = None ->
  _send_request io sid command arguments st = (None, st).
Proof. unfold _send_request. intros ->. reflexivity. Qed.

Lemma create_session_doms new_id h p st :
  dom (sessions (snd (create_session new_id h p st))) = {[new_id]} ∪ dom (sessions st) /\
  dom (breakpoints (snd (create_session new_id h p st))) = {[new_id]} ∪ dom (breakpoints st).
Proof. simpl. rewrite !dom_insert_L. split; reflexivity. Qed.

Lemma connect_session_doms c io sid st :
  dom (sessions (snd (connect_session c io sid st))) = dom (sessions st) /\
  breakpoints (snd (connect_session c io sid st)) = breakpoints st.
Proof.
  unfold connect_session. destruct (sessions st !! sid) as [session|] eqn:E; [|done].
  assert (Hin : {[sid]} ∪ dom (sessions st) = dom (sessions st)).
  { apply subseteq_union_1_L, singleton_subseteq_l, elem_of_dom. eauto. }
  destruct c as [|e].
  - match goal with
    | |- context [_send_request ?i ?s ?cmd ?a ?x] =>
        pose proof (send_request_sessions i s cmd a x) as Hs;
        pose proof (send_request_breakpoints i s cmd a x) as Hb;
        destruct (_send_request i s cmd a x) as [r st2]
    end.
    simpl in *. rewrite dom_insert_L, Hs, Hb. done.
  - simpl. rewrite dom_insert_L. done.
Qed.

Lemma disconnect_session_doms sid st :
  dom (sessions (snd (disconnect_session sid st))) = dom (sessions st) /\
  breakpoints (snd (disconnect_session sid st)) = breakpoints st.
Proof.
  unfold disconnect_session. destruct (sessions st !! sid) as [session|] eqn:E; [|done].
  assert (Hin : {[sid]} ∪ dom (sessions st) = dom (sessions st)).
  { apply subseteq_union_1_L, singleton_subseteq_l, elem_of_dom. eauto. }
  simpl. rewrite dom_insert_L. destruct (connections st !! sid); simpl; done.
Qed.

Lemma set_breakpoint_doms io sid path line c st :
  sessions (snd (set_breakpoint io sid path line c st)) = sessions st /\
  dom (breakpoints (snd (set_breakpoint io sid path line c st))) = dom (breakpoints st).
Proof.
  unfold set_breakpoint. destruct (negb (session_connected sid st)); [done|].
  destruct (breakpoints st !! sid) as [bps|] eqn:E; [|done].
  assert (Hin : {[sid]} ∪ dom (breakpoints st) = dom (breakpoints st)).
  { apply subseteq_union_1_L, singleton_subseteq_l, elem_of_dom. eauto. }
  match goal with
  | |- context [_send_request ?i ?s ?cmd ?a ?x] =>
      pose proof (send_request_sessions i s cmd a x) as Hs;
      pose proof (send_request_breakpoints i s cmd a x) as Hb;
      destruct (_send_request i s cmd a x) as [r st2]
  end.
  simpl in *. destruct (response_success r); simpl; [|by rewrite Hs, Hb].
  rewrite dom_insert_L, Hs, Hb. done.
Qed.

Lemma clear_breakpoint_doms io sid id st :
  sessions (snd (clear_breakpoint io sid id st)) = sessions st /\
  dom (breakpoints (snd (clear_breakpoint io sid id st))) = dom (breakpoints st).
Proof.
  unfold clear_breakpoint. destruct (breakpoints st !! sid) as [bps|] eqn:E; [|done].
  assert (Hin : {[sid]} ∪ dom (breakpoints st) = dom (breakpoints st)).
  { apply subseteq_union_1_L, singleton_subseteq_l, elem_of_dom. eauto. }
  destruct (find_breakpoint id bps) as [[i bp]|]; [|done].
  match goal with
  | |- context [_send_request ?i ?s ?cmd ?a ?x] =>
      pose proof (send_request_sessions i s cmd a x) as Hs;
      pose proof (send_request_breakpoints i s cmd a x) as Hb;
      destruct (_send_request i s cmd a x) as [r st2]
  end.
  simpl in *. rewrite dom_insert_L, Hs, Hb. done.
Qed.

(** Every operation keeps the two maps on the same session ids. *)
Lemma apply_op_preserves o st :
  dom (sessions st) = dom (breakpoints st) ->
  dom (sessions (apply_op o st)) = dom (breakpoints (apply_op o st)).
Proof.
  intros Inv. destruct o as [new_id h p|c io sid|sid|io sid path line c|io sid id|io sid cmd a];
    cbn [apply_op].
  - destruct (create_session_doms new_id h p st) as [-> ->]. by rewrite Inv.
  - destruct (connect_session_doms c io sid st) as [-> ->]. exact Inv.
  - destruct (disconnect_session_doms sid st) as [-> ->]. exact Inv.
  - destruct (set_breakpoint_doms io sid path line c st) as [-> ->]. exact Inv.
  - destruct (clear_breakpoint_doms io sid id st) as [-> ->]. exact Inv.
  - rewrite send_request_sessions, send_request_breakpoints. exact Inv.
Qed.

Lemma run_snoc ops o : run (ops ++ [o]) = apply_op o (run ops).
Proof. unfold run. rewrite foldl_snoc. reflexivity. Qed.

Lemma run_invariant ops : dom (sessions (run ops)) = dom (breakpoints (run ops)).
Proof.
  induction ops as [|o ops IH] using rev_ind.
  - reflexivity.
  - rewrite run_snoc. apply apply_op_preserves, IH.
Qed.

Lemma run_unknown_no_breakpoints ops sid :
  sessions (run ops) !! sid = None -> breakpoints (run ops) !! sid = None.
Proof.
  intros H. apply not_elem_of_dom. rewrite <- run_invariant.
  apply not_elem_of_dom. exact H.
Qed.

(** C10: after any sequence of registry operations every session id of
    the sessions map has an entry in the breakpoints map; [create_session]
    installs both entries, the breakpoint list empty, so that
    [list_breakpoints] returns the empty list right after creation; and
    [disconnect_session] removes neither entry. *)
Theorem sessions_keep_breakpoint_entries (ops : list op) :
  dom (sessions (run ops)) ⊆ dom (breakpoints (run ops)) /\
  (forall new_id h p,
      sessions (snd (create_session new_id h p (run ops))) !! new_id =
        Some (mkDebugSession new_id h p false None (lit "created")) /\
      breakpoints (snd (create_session new_id h p (run ops))) !! new_id = Some [] /\
      list_breakpoints new_id (snd (create_session new_id h p (run ops))) = []) /\
  (forall sid,
      dom (sessions (snd (disconnect_session sid (run ops)))) = dom (sessions (run ops)) /\
      breakpoints (snd (disconnect_session sid (run ops))) = breakpoints (run ops)).
Proof.
  split; [by rewrite run_invariant|]. split.
  - intros new_id h p. unfold list_breakpoints. simpl.
    rewrite !lookup_insert_eq. done.
  - intros sid. apply disconnect_session_doms.
Qed.

(** What [clear_breakpoint] writes for a session with a connection: one
    [setBreakpoints] request for the file of the cleared breakpoint whose
    breakpoint list is empty, whatever else is set on that file. *)
Lemma clear_breakpoint_request response sid id st sock bps i bp :
  connections st !! sid = Some sock ->
  breakpoints st !! sid = Some bps ->
  find_breakpoint id bps = Some (i, bp) ->
  fst (clear_breakpoint (Reply response) sid id st) = true /\
  list_breakpoints sid (snd (clear_breakpoint (Reply response) sid id st)) = delete i bps /\
  sent_to sid (trace (snd (clear_breakpoint (Reply response) sid id st))) =
    sent_to sid (trace st) ++
    [mkRequest (sequence_number st) (lit "setBreakpoints")
       (JDict [(lit "source", JDict [(lit "path", JStr (file_path bp))]);
               (lit "breakpoints", JList [])])].
Proof.
  intros Hc Hb Hf. unfold clear_breakpoint, list_breakpoints, _send_request.
  rewrite Hb, Hf, Hc.
  destruct (frames_closed_form
              (mkRequest (sequence_number st) (lit "setBreakpoints")
                 (clear_arguments (file_path bp)))) as (_ & _ & ->).
  cbn [fst snd breakpoints set_breakpoints emit set_sequence_number trace].
  rewrite lookup_insert_eq. split; [reflexivity|]. split; [reflexivity|].
  unfold sent_to. rewrite omap_app. f_equal.
  unfold omap, list_omap. rewrite decide_True by reflexivity. reflexivity.
Qed.

(** C1, evaluated: with breakpoints 1 and 2 set at lines 10 and 20 of
    [a.py], [clear_breakpoint] of breakpoint 1 returns [True] and leaves the
    breakpoint of line 20 in the session's list, but the [setBreakpoints]
    request it writes for [a.py] carries an empty breakpoint list, not the
    remaining breakpoint. *)
Theorem clear_breakpoint_sends_empty_list :
  fst (clear_breakpoint accepts s1 1 two_breakpoints) = true /\
  map line_number
    (list_breakpoints s1 (snd (clear_breakpoint accepts s1 1 two_breakpoints))) = [20%Z] /\
  last (sent_to s1 (trace (snd (clear_breakpoint accepts s1 1 two_breakpoints)))) =
    Some (mkRequest 4 (lit "setBreakpoints")
            (JDict [(lit "source", JDict [(lit "path", JStr a_py)]);
                    (lit "breakpoints", JList [])])).
Proof. vm_compute. repeat split. Qed.

(** The identifier [set_breakpoint] assigns is the current length of the
    session's list plus one. *)
Lemma set_breakpoint_identifier io sid path line c st bp :
  fst (set_breakpoint io sid path line c st) = Some bp ->
  breakpoint_id bp = (Z.of_nat (length (list_breakpoints sid st)) + 1)%Z.
Proof.
  unfold set_breakpoint, list_breakpoints.
  destruct (negb (session_connected sid st)); [discriminate|].
  destruct (breakpoints st !! sid) as [bps|]; [|discriminate].
  destruct (_send_request io sid _ _ st) as [response st1].
  destruct (response_success response); [|discriminate].
  cbn. intros [= <-]. reflexivity.
Qed.

(** [connect_session] on a known session whose socket connects: whatever
    happens to the [initialize] request, the result is [True] and the
    session is marked connected. *)
Lemma connect_session_ignores_initialize io sid st session :
  sessions st !! sid = Some session ->
  fst (connect_session ConnectOk io sid st) = true /\
  is_connected <$> sessions (snd (connect_session ConnectOk io sid st)) !! sid = Some true.
Proof.
  intros H. unfold connect_session. rewrite H.
  destruct (_send_request io sid _ _ _) as [response st2].
  cbn. rewrite lookup_insert_eq. done.
Qed.

(** C8, evaluated: set two breakpoints, clear the first, set a third; the
    session's list then holds two breakpoints with identifier 2. *)
Theorem breakpoint_identifier_reused :
  map breakpoint_id
    (list_breakpoints s1
       (run [OpCreate s1 (lit "localhost") 5678;
             OpConnect ConnectOk accepts s1;
             OpSetBreakpoint accepts s1 a_py 10 None;
             OpSetBreakpoint accepts s1 a_py 20 None;
             OpClearBreakpoint accepts s1 1;
             OpSetBreakpoint accepts s1 a_py 30 None])) = [2%Z; 2%Z].
Proof. vm_compute. reflexivity. Qed.

(** C7 as stated fails: [list_breakpoints] answers an unknown session id
    with the empty list, the answer it gives for an existing session
    without breakpoints, and not with a failure. *)
Lemma list_breakpoints_unknown_session_answers :
  sessions created1 !! unknown = None /\
  is_Some (sessions created1 !! s1) /\
  list_breakpoints unknown created1 = [] /\
  list_breakpoints unknown created1 = list_breakpoints s1 created1.
Proof. vm_compute. repeat split. eexists. reflexivity. Qed.

(** C7, amended: on a session that is unknown or not connected,
    [set_breakpoint] returns [None], writes nothing and changes nothing; on
    an unknown session id, moreover, [disconnect_session] and
    [clear_breakpoint] return [False] and [list_breakpoints] returns the
    empty list, the registry being left as it was. *)
Theorem unknown_or_disconnected_session_results (ops : list op) (sid : str)
    (H : session_connected sid (run ops) = false) :
  (forall io path line c,
      set_breakpoint io sid path line c (run ops) = (None, run ops)) /\
  (sessions (run ops) !! sid = None ->
     disconnect_session sid (run ops) = (false, run ops) /\
     (forall io id, clear_breakpoint io sid id (run ops) = (false, run ops)) /\
     list_breakpoints sid (run ops) = []).
Proof.
  split.
  - intros io path line c. unfold set_breakpoint. rewrite H. reflexivity.
  - intros Hnone. pose proof (run_unknown_no_breakpoints _ _ Hnone) as Hb.
    unfold disconnect_session, clear_breakpoint, list_breakpoints.
    rewrite Hnone, Hb. done.
Qed.

Lemma unknown_or_disconnected_session_witness :
  (forall io path line c,
      set_breakpoint io unknown path line c created1 = (None, created1)) /\
  disconnect_session unknown created1 = (false, created1) /\
  (forall io id, clear_breakpoint io unknown id created1 = (false, created1)) /\
  list_breakpoints unknown created1 = [].
Proof.
  destruct (unknown_or_disconnected_session_results
              [OpCreate s1 (lit "localhost") 5678] unknown
              ltac:(vm_compute; reflexivity)) as [Hset Hrest].
  split; [exact Hset|]. apply Hrest. vm_compute. reflexivity.
Defined.

End Registry.

(** ** The correlator of [DAPClient] *)

Section Correlator.
Import Py Json Wire Dap Scenario.

(** A message that is not a response to [seq] leaves the waiter of [seq]
    as it is. *)
Lemma handle_message_pending seq v st st' :
  is_response_to seq v = false ->
  _handle_message v st = Some st' ->
  pending_requests st' !! seq = pending_requests st !! seq.
Proof.
  unfold _handle_message, is_response_to. destruct v as [| | | | |m]; try discriminate.
  destruct (dict_get m (lit "type")) as [[| | |t| |]|]; try (intros _ [= <-]; reflexivity).
  destruct (decide (t = lit "response")) as [->|Hr].
  - unfold handle_response.
    destruct (key_of (dict_get m (lit "request_seq"))) as [z| |];
      try (intros _ [= <-]; reflexivity); try discriminate.
    rewrite bool_decide_eq_true_2 by reflexivity. cbn [andb].
    intros Hz%bool_decide_eq_false.
    destruct (pending_requests st !! z); intros [= <-]; [|reflexivity].
    cbn. apply lookup_insert_ne. exact Hz.
  - intros _. destruct (decide (t = lit "event")); [|intros [= <-]; reflexivity].
    unfold handle_event. intros Hev.
    repeat case_match; simplify_eq; reflexivity.
Qed.

Lemma process_frames_pending seq frames st :
  forallb (fun f => negb match f with
                         | FrameJson v => is_response_to seq v
                         | _ => false
                         end) frames = true ->
  pending_requests (fst (process_frames frames st)) !! seq = pending_requests st !! seq.
Proof.
  revert st. induction frames as [|f frames IH]; intros st; [reflexivity|].
  cbn [forallb]. intros [Hf Hrest]%andb_true_iff. destruct f as [v|e|e]; cbn [process_frames].
  - apply negb_true_iff in Hf.
    destruct (_handle_message v st) as [st1|] eqn:E; [|reflexivity].
    rewrite IH by assumption. eapply handle_message_pending; eassumption.
  - rewrite IH by assumption. reflexivity.
  - reflexivity.
Qed.

Lemma loop_exit_pending st : pending_requests (loop_exit st) = pending_requests st.
Proof. reflexivity. Qed.

Lemma loop_raise_pending e st : pending_requests (loop_raise e st) = pending_requests st.
Proof. unfold loop_raise. destruct (is_connected st); reflexivity. Qed.

Lemma receive_step_pending seq r st :
  carries_response_to seq r = false ->
  pending_requests (receive_step r st) !! seq = pending_requests st !! seq.
Proof.
  intros Hr. unfold receive_step. destruct (negb (guard st)); [reflexivity|].
  destruct r as [frames| |e]; [|reflexivity|by rewrite loop_raise_pending].
  cbn [carries_response_to] in Hr.
  assert (Hall : forallb (fun f => negb match f with
                                        | FrameJson v => is_response_to seq v
                                        | _ => false
                                        end) frames = true).
  { apply forallb_forall. intros f Hin. apply negb_true_iff.
    destruct (match f with FrameJson v => is_response_to seq v | _ => false end) eqn:E;
      [|reflexivity].
    rewrite <- Hr. symmetry. apply existsb_exists. exists f. split; assumption. }
  pose proof (process_frames_pending seq frames st Hall) as Hp.
  destruct (process_frames frames st) as [st1 [e|]]; cbn [fst] in Hp;
    [rewrite loop_raise_pending|]; exact Hp.
Qed.

Lemma receive_loop_pending seq reads st :
  forallb (fun r => negb (carries_response_to seq r)) reads = true ->
  pending_requests (_receive_loop reads st) !! seq = pending_requests st !! seq.
Proof.
  revert st. induction reads as [|r reads IH]; intros st; [reflexivity|].
  cbn [forallb _receive_loop]. intros [Hr Hrest]%andb_true_iff.
  apply negb_true_iff in Hr.
  destruct (receive_thread st) as [[|]|]; try reflexivity.
  rewrite IH by assumption. apply receive_step_pending. exact Hr.
Qed.

(** A response for a sequence number without a waiter changes nothing. *)
Lemma late_response_discarded seq v st :
  pending_requests st !! seq = None ->
  is_response_to seq v = true ->
  _handle_message v st = Some st.
Proof.
  unfold _handle_message, is_response_to. intros Hnone.
  destruct v as [| | | | |m]; try discriminate.
  destruct (dict_get m (lit "type")) as [[| | |t| |]|]; try discriminate.
  destruct (key_of (dict_get m (lit "request_seq"))) as [z| |] eqn:Ek; try discriminate.
  intros [Ht Hz]%andb_true_iff.
  apply bool_decide_eq_true in Ht as ->. apply bool_decide_eq_true in Hz as ->.
  rewrite decide_True by reflexivity. unfold handle_response. rewrite Ek, Hnone.
  reflexivity.
Qed.

(** The receive thread touches neither the socket, nor the sequence
    counter, nor the connected flag, nor what was written to the socket. *)
Lemma handle_message_frame v st st' :
  _handle_message v st = Some st' ->
  socket st' = socket st /\ sequence_number st' = sequence_number st /\
  is_connected st' = is_connected st /\ trace st' = trace st /\
  receive_thread st' = receive_thread st.
Proof.
  unfold _handle_message, handle_response, handle_event. intros H.
  repeat case_match; simplify_eq; done.
Qed.

Lemma process_frames_frame frames st :
  socket (fst (process_frames frames st)) = socket st /\
  sequence_number (fst (process_frames frames st)) = sequence_number st /\
  is_connected (fst (process_frames frames st)) = is_connected st /\
  trace (fst (process_frames frames st)) = trace st /\
  receive_thread (fst (process_frames frames st)) = receive_thread st.
Proof.
  revert st. induction frames as [|f frames IH]; intros st; [done|].
  destruct f as [v|e|e]; cbn [process_frames].
  - destruct (_handle_message v st) as [st1|] eqn:E; [|done].
    destruct (handle_message_frame _ _ _ E) as (<- & <- & <- & <- & <-). apply IH.
  - destruct (IH (write_log (LogParseError e) st)) as (-> & -> & -> & -> & ->). done.
  - done.
Qed.

Lemma loop_raise_frame e st :
  socket (loop_raise e st) = socket st /\
  sequence_number (loop_raise e st) = sequence_number st /\
  is_connected (loop_raise e st) = is_connected st /\
  trace (loop_raise e st) = trace st.
Proof. unfold loop_raise. destruct (is_connected st) eqn:E; cbn; rewrite ?E; done. Qed.

Lemma receive_step_frame r st :
  socket (receive_step r st) = socket st /\
  sequence_number (receive_step r st) = sequence_number st /\
  is_connected (receive_step r st) = is_connected st /\
  trace (receive_step r st) = trace st.
Proof.
  unfold receive_step. destruct (negb (guard st)); [done|].
  destruct r as [frames| |e].
  - pose proof (process_frames_frame frames st) as H.
    destruct (process_frames frames st) as [st1 [e|]]; cbn [fst] in H;
      destruct H as (<- & <- & <- & <- & _); [|done].
    apply loop_raise_frame.
  - done.
  - apply loop_raise_frame.
Qed.

Lemma receive_loop_frame reads st :
  socket (_receive_loop reads st) = socket st /\
  sequence_number (_receive_loop reads st) = sequence_number st /\
  is_connected (_receive_loop reads st) = is_connected st /\
  trace (_receive_loop reads st) = trace st.
Proof.
  revert st. induction reads as [|r reads IH]; intros st; [done|].
  cbn [_receive_loop]. destruct (receive_thread st) as [[|]|]; try done.
  destruct (IH (receive_step r st)) as (-> & -> & -> & ->). apply receive_step_frame.
Qed.

(** [_send_request] when the request is written and no response to it is
    read during the wait. *)
Lemma send_request_timeout_eq io command arguments st :
  guard st = true ->
  send_error io = None ->
  forallb (fun r => negb (carries_response_to (sequence_number st) r)) (arrivals io) = true ->
  exists bytes,
    _send_request io command arguments st =
      (None,
       finally (sequence_number st)
         (write_log (LogTimeout command)
            (_receive_loop (arrivals io)
               (emit (IoSend (mkRequest (sequence_number st) command arguments) bytes)
                  (register_waiter (sequence_number st)
                     (set_sequence_number (sequence_number st + 1)%Z st)))))).
Proof.
  intros Hguard Hsend Hsilent. unfold _send_request. rewrite Hguard.
  cbn [negb alloc_seq]. unfold send.
  destruct (frames_closed_form (mkRequest (sequence_number st) command arguments))
    as (_ & -> & _).
  eexists. cbn [socket register_waiter set_pending set_sequence_number].
  unfold guard in Hguard. apply andb_true_iff in Hguard as [_ Hsock].
  apply bool_decide_eq_true in Hsock as [sock Hsock]. rewrite Hsock, Hsend.
  unfold await_response, event_is_set.
  rewrite receive_loop_pending by exact Hsilent.
  cbn [pending_requests emit register_waiter set_pending].
  rewrite lookup_insert_eq. reflexivity.
Qed.

(** C3: a request that is written to the socket and for which no response
    is read before its wait ends returns [None] after logging the timeout
    error, its waiter is removed, and a response to it that arrives
    afterwards is dropped by [_handle_message] without any change of the
    client. *)
Theorem request_without_response_times_out (io : SendIO) (command : str)
    (arguments : json) (st : DAPClient)
    (Hguard : guard st = true)
    (Hsend : send_error io = None)
    (Hsilent : forallb (fun r => negb (carries_response_to (sequence_number st) r))
                 (arrivals io) = true) :
  fst (_send_request io command arguments st) = None /\
  last (log (snd (_send_request io command arguments st))) = Some (LogTimeout command) /\
  last (sent (trace (snd (_send_request io command arguments st)))) =
    Some (mkRequest (sequence_number st) command arguments) /\
  pending_requests (snd (_send_request io command arguments st)) !! sequence_number st = None /\
  (forall late,
      is_response_to (sequence_number st) late = true ->
      _handle_message late (snd (_send_request io command arguments st)) =
        Some (snd (_send_request io command arguments st))).
Proof.
  destruct (send_request_timeout_eq io command arguments st Hguard Hsend Hsilent)
    as [bytes ->].
  cbn [fst snd]. split; [reflexivity|]. split.
  { cbn [log finally set_pending write_log]. apply last_snoc. }
  split.
  { cbn [trace finally set_pending write_log].
    destruct (receive_loop_frame (arrivals io)
                (emit (IoSend (mkRequest (sequence_number st) command arguments) bytes)
                   (register_waiter (sequence_number st)
                      (set_sequence_number (sequence_number st + 1)%Z st))))
      as (_ & _ & _ & ->).
    cbn [trace emit register_waiter set_pending set_sequence_number].
    unfold sent. rewrite omap_app. apply last_snoc. }
  assert (Hgone : forall x, pending_requests (finally (sequence_number st) x)
                            !! sequence_number st = None).
  { intros x. cbn [pending_requests finally set_pending]. apply lookup_delete_eq. }
  split; [apply Hgone|].
  intros late Hlate. apply (late_response_discarded (sequence_number st)); [apply Hgone|exact Hlate].
Qed.

Lemma request_without_response_witness :
  fst (_send_request (arrives stopped_event) threads (JDict []) dap_connected) = None /\
  pending_requests
    (snd (_send_request (arrives stopped_event) threads (JDict []) dap_connected)) !! 3%Z = None /\
  _handle_message (response_to 3 true)
    (snd (_send_request (arrives stopped_event) threads (JDict []) dap_connected)) =
    Some (snd (_send_request (arrives stopped_event) threads (JDict []) dap_connected)).
Proof.
  destruct (request_without_response_times_out (arrives stopped_event) threads (JDict [])
              dap_connected ltac:(vm_compute; reflexivity) ltac:(reflexivity)
              ltac:(vm_compute; reflexivity)) as (Hres & _ & _ & Hgone & Hlate).
  split; [exact Hres|]. split; [exact Hgone|].
  apply Hlate. vm_compute. reflexivity.
Defined.

End Correlator.

(** ** The end of the receive loop, [connect] and [disconnect] *)

Section Lifecycle.
Import Py Json Wire Dap Scenario.

(** C4 as stated fails: a caller waits for the response to request 3 when
    the receive loop reads the zero-length read of a closed peer. The loop
    ends and nothing else happens: the waiter is still registered with its
    event unset, no response is stored for it, the caller is still waiting
    and the client still counts as connected. When the caller's wait then
    ends, it is by the timeout: the call returns [None] and the only record
    logged is the timeout error. *)
Lemma receive_loop_exit_resolves_no_waiter :
  (fun cfg : config =>
     (snd cfg, pending_requests (fst cfg) !! 3%Z, responses (fst cfg) !! 3%Z,
      receive_thread (fst cfg), is_connected (fst cfg), log (fst cfg)))
    <$> exec_all (until_wait ++ [Receive RecvEof]) (dap_connected, []) =
  Some ([AtWait 3 threads], Some false, None, Some false, true, []) /\
  (fun cfg : config => (snd cfg, pending_requests (fst cfg) !! 3%Z, log (fst cfg)))
    <$> exec_all (until_wait ++ [Receive RecvEof; Thread 0 None; Thread 0 None; Thread 0 None])
          (dap_connected, []) =
  Some ([Returned None], None, [LogTimeout threads]).
Proof. vm_compute. split; reflexivity. Qed.

(** C4, amended: the read on which the receive loop is left (zero-length
    or raising) ends the thread and leaves the waiters, the stored
    responses and the connected flag as they were; a request still pending
    with its event unset then ends by its own timeout: the wait returns
    false, [_send_request] logs the timeout, removes the waiter and returns
    [None]. *)
Theorem pending_waiter_ends_by_timeout (r : Recv) (st : DAPClient) (seq : Z)
    (command : str)
    (Hexit : is_exit r = true)
    (Hpending : pending_requests st !! seq = Some false) :
  pending_requests (receive_step r st) = pending_requests st /\
  responses (receive_step r st) = responses st /\
  is_connected (receive_step r st) = is_connected st /\
  receive_thread (receive_step r st) = Some false /\
  thread_step None (AtWait seq command) (receive_step r st) =
    Some (AtTimeoutLog seq command, receive_step r st) /\
  fst (await_response seq command (receive_step r st)) = None /\
  last (log (snd (await_response seq command (receive_step r st)))) =
    Some (LogTimeout command) /\
  pending_requests (snd (await_response seq command (receive_step r st))) !! seq = None.
Proof.
  assert (Hp : pending_requests (receive_step r st) = pending_requests st).
  { unfold receive_step. destruct (negb (guard st)); [reflexivity|].
    destruct r as [frames| |e]; try discriminate; [reflexivity|].
    apply loop_raise_pending. }
  assert (Hr : responses (receive_step r st) = responses st).
  { unfold receive_step, loop_raise. destruct (negb (guard st)); [reflexivity|].
    destruct r as [frames| |e]; try discriminate; [reflexivity|].
    destruct (is_connected st); reflexivity. }
  assert (Ht : receive_thread (receive_step r st) = Some false).
  { unfold receive_step, loop_raise. destruct (negb (guard st)); [reflexivity|].
    destruct r as [frames| |e]; try discriminate; reflexivity. }
  assert (Hflag : event_is_set seq (receive_step r st) = false).
  { unfold event_is_set. rewrite Hp, Hpending. reflexivity. }
  split; [exact Hp|]. split; [exact Hr|].
  split; [apply receive_step_frame|]. split; [exact Ht|].
  unfold await_response. cbn [thread_step]. rewrite Hflag.
  split; [reflexivity|]. split; [reflexivity|].
  cbn [fst snd log finally set_pending write_log pending_requests].
  split; [apply last_snoc | apply lookup_delete_eq].
Qed.

Lemma pending_waiter_ends_by_timeout_witness :
  receive_thread
    (receive_step RecvEof (register_waiter 3 (set_sequence_number 4 dap_connected))) =
    Some false /\
  fst (await_response 3 threads
         (receive_step RecvEof (register_waiter 3 (set_sequence_number 4 dap_connected)))) =
    None.
Proof.
  destruct (pending_waiter_ends_by_timeout RecvEof
              (register_waiter 3 (set_sequence_number 4 dap_connected)) 3 threads
              ltac:(reflexivity) ltac:(vm_compute; reflexivity))
    as (_ & _ & _ & Hthread & _ & Hnone & _).
  split; [exact Hthread | exact Hnone].
Defined.

(** C5, evaluated: the wait of request 3 times out; before the caller has
    run its [finally] clause the receive loop handles the response to
    request 3, finds the waiter still registered and stores the response;
    the caller then removes the waiter and returns [None]. The stored
    response stays, for a sequence number without a waiter. *)
Theorem response_stored_without_waiter :
  (fun cfg : config =>
     (snd cfg, pending_requests (fst cfg) !! 3%Z, responses (fst cfg) !! 3%Z))
    <$> exec_all late_response_schedule (dap_connected, []) =
  Some ([Returned None], None,
        Some [(lit "type", JStr (lit "response"));
              (lit "request_seq", JInt 3);
              (lit "success", JBool true)]).
Proof. vm_compute. reflexivity. Qed.

(** [_send_request] on a client whose [is_connected] flag is unset returns
    at once. *)
Lemma send_request_unguarded io command arguments st :
  guard st = false -> _send_request io command arguments st = (None, st).
Proof. unfold _send_request. intros ->. reflexivity. Qed.

(** C9, for every client state: [disconnect] writes no request to the
    socket. It unsets [is_connected] first, so its [_send_request] returns
    at line 147; the socket, if there is one, is closed and dropped, and a
    live receive thread is joined with a timeout of one second. *)
Theorem disconnect_writes_no_request (io : SendIO) (st : DAPClient) :
  trace (disconnect io st) =
    trace st ++ (if socket st is Some _ then [IoClose] else [])
             ++ (if receive_thread st is Some true then [IoJoin 1] else []) /\
  sent (trace (disconnect io st)) = sent (trace st) /\
  socket (disconnect io st) = None /\
  is_connected (disconnect io st) = false.
Proof.
  assert (Htrace : trace (disconnect io st) =
    trace st ++ (if socket st is Some _ then [IoClose] else [])
             ++ (if receive_thread st is Some true then [IoJoin 1] else [])).
  { unfold disconnect. cbn [socket set_is_connected].
    destruct (socket st) as [sock|] eqn:Es.
    - rewrite send_request_unguarded by reflexivity.
      cbn [receive_thread set_socket emit set_is_connected].
      destruct (receive_thread st) as [[|]|]; cbn [trace emit set_socket set_is_connected];
        rewrite <- ?app_assoc; reflexivity.
    - cbn [receive_thread set_is_connected].
      destruct (receive_thread st) as [[|]|]; cbn [trace emit set_is_connected];
        rewrite ?app_nil_r; reflexivity. }
  split; [exact Htrace|]. split.
  { rewrite Htrace. unfold sent. rewrite !omap_app.
    destruct (socket st), (receive_thread st) as [[|]|]; cbn; rewrite ?app_nil_r; reflexivity. }
  unfold disconnect. cbn [socket set_is_connected].
  destruct (socket st) as [sock|] eqn:Es.
  - rewrite send_request_unguarded by reflexivity.
    cbn [receive_thread set_socket emit set_is_connected].
    destruct (receive_thread st) as [[|]|]; split; reflexivity.
  - cbn [receive_thread set_is_connected].
    destruct (receive_thread st) as [[|]|]; split; cbn; assumption || reflexivity.
Qed.

(** On the connected client of the scenario: the socket is closed, the
    thread joined, and the requests written are still the two of the
    handshake. *)
Example disconnect_connected_client :
  trace (disconnect silence dap_connected) = trace dap_connected ++ [IoClose; IoJoin 1] /\
  map req_command (sent (trace (disconnect silence dap_connected))) =
    [lit "initialize"; lit "configurationDone"].
Proof. vm_compute. split; reflexivity. Qed.

(** [connect] when the [initialize] request does not return success: it
    returns [False] and nothing more is written to the socket. *)
Lemma connect_initialize_failure io_init io_conf h p timeout st :
  response_success
    (fst (_send_request io_init (lit "initialize") initialize_arguments
            (emit IoStartThread (set_receive_thread (Some true)
               (set_is_connected true (emit (IoConnect h p timeout)
                  (set_socket (Some (mkSocket h p)) st))))))) = false ->
  connect ConnectOk io_init io_conf h p timeout st =
    (false,
     snd (_send_request io_init (lit "initialize") initialize_arguments
            (emit IoStartThread (set_receive_thread (Some true)
               (set_is_connected true (emit (IoConnect h p timeout)
                  (set_socket (Some (mkSocket h p)) st))))))).
Proof.
  intros H. unfold connect.
  destruct (_send_request io_init _ _ _) as [response st3]. cbn [fst snd] in *.
  rewrite H. reflexivity.
Qed.

(** C2, evaluated on an adapter that accepts the connection and answers
    [initialize] with [success: false]. [DAPClient.connect] returns [False]
    and writes [initialize] only, but leaves [is_connected] set;
    [DebugpyClient.connect_session], which drops the response, returns
    [True] and marks the session connected. *)
Theorem initialize_failure_is_not_reported :
  (fun res : bool * DAPClient =>
     (fst res, map req_command (sent (trace (snd res))), is_connected (snd res)))
    (connect ConnectOk (arrives (response_to 1 false)) (arrives (response_to 2 true))
       (lit "localhost") 5678 30 init) =
    (false, [lit "initialize"], true) /\
  (fun res : bool * Debugpy.DebugpyClient =>
     (fst res,
      map req_command (Debugpy.sent_to s1 (Debugpy.trace (snd res))),
      Debugpy.is_connected <$> Debugpy.sessions (snd res) !! s1,
      Debugpy.status <$> Debugpy.sessions (snd res) !! s1))
    (Debugpy.connect_session ConnectOk refuses s1 created1) =
    (true, [lit "initialize"], Some true, Some (lit "connected")).
Proof. vm_compute. split; reflexivity. Qed.

End Lifecycle.

(** ** Callers interleaved with the receive thread *)

Section Interleaving.
Import Py Json Wire Dap Scenario.

(** [_send_request] is the run of one caller, statement by statement, with
    the reads of the receive thread placed at its wait. *)
Lemma send_request_statements io command arguments st :
  let '(p1, st1) := advance 4 (send_error io) (AtGuard command arguments) st in
  let st1' := match p1 with
              | AtWait _ _ => _receive_loop (arrivals io) st1
              | _ => st1
              end in
  advance 3 None p1 st1' =
    (Returned (fst (_send_request io command arguments st)),
     snd (_send_request io command arguments st)).
Proof.
  unfold _send_request. cbn [advance thread_step].
  destruct (guard st); cbn [negb]; [|reflexivity].
  cbn [alloc_seq advance thread_step].
  destruct (send (send_error io) _ _) as [e|st3]; [reflexivity|].
  cbn [advance thread_step]. unfold await_response.
  destruct (event_is_set _ _); reflexivity.
Qed.

(** The receive thread adds no waiter. *)
Lemma handle_message_waiters v st st' z :
  _handle_message v st = Some st' ->
  is_Some (pending_requests st' !! z) -> is_Some (pending_requests st !! z).
Proof.
  unfold _handle_message, handle_response, handle_event. intros H.
  repeat case_match; simplify_eq; try done.
  cbn. destruct (decide (z0 = z)) as [->|Hne].
  - intros _. eauto.
  - rewrite lookup_insert_ne by exact Hne. done.
Qed.

Lemma process_frames_waiters frames st z :
  is_Some (pending_requests (fst (process_frames frames st)) !! z) ->
  is_Some (pending_requests st !! z).
Proof.
  revert st. induction frames as [|f frames IH]; intros st; [done|].
  destruct f as [v|e|e]; cbn [process_frames].
  - destruct (_handle_message v st) as [st1|] eqn:E; [|done].
    intros H%IH. eapply handle_message_waiters; eassumption.
  - intros H%IH. exact H.
  - done.
Qed.

Lemma receive_step_waiters r st z :
  is_Some (pending_requests (receive_step r st) !! z) ->
  is_Some (pending_requests st !! z).
Proof.
  unfold receive_step. destruct (negb (guard st)); [done|].
  destruct r as [frames| |e]; [|done|by rewrite loop_raise_pending].
  pose proof (process_frames_waiters frames st z) as H.
  destruct (process_frames frames st) as [st1 [e|]]; cbn [fst] in H;
    [rewrite loop_raise_pending|]; exact H.
Qed.

(** What one statement of a caller does to the bookkeeping. *)
Lemma thread_step_summary e p st p' st' :
  thread_step e p st = Some (p', st') ->
  (held_seq p' = held_seq p /\ registered p' = registered p /\
   sequence_number st' = sequence_number st /\
   pending_requests st' = pending_requests st) \/
  (held_seq p = None /\ registered p = None /\
   held_seq p' = Some (sequence_number st) /\ registered p' = None /\
   sequence_number st' = (sequence_number st + 1)%Z /\
   pending_requests st' = pending_requests st) \/
  (exists seq, held_seq p = Some seq /\ registered p = None /\
   held_seq p' = Some seq /\ registered p' = Some seq /\
   sequence_number st' = sequence_number st /\
   pending_requests st' = <[seq := false]> (pending_requests st)) \/
  (exists seq, registered p = Some seq /\
   held_seq p' = None /\ registered p' = None /\
   sequence_number st' = sequence_number st /\
   pending_requests st' = delete seq (pending_requests st)).
Proof.
  destruct p as [c a|c a|seq c a|seq c a|seq c|seq|seq c|seq c err|seq r|r];
    cbn [thread_step]; intros H.
  - left. destruct (guard st); simplify_eq; done.
  - right. left. cbn [alloc_seq] in H. simplify_eq. done.
  - right. right. left. simplify_eq. exists seq. done.
  - left. unfold send in H. repeat case_match; simplify_eq; done.
  - left. destruct (event_is_set seq st); simplify_eq; done.
  - left. cbn [pop_response] in H. simplify_eq. done.
  - left. simplify_eq. done.
  - left. simplify_eq. done.
  - right. right. right. simplify_eq. exists seq. done.
  - discriminate.
Qed.

Lemma registered_held p z : registered p = Some z -> held_seq p = Some z.
Proof. destruct p; cbn; congruence. Qed.

(** Every move of the system keeps the bookkeeping consistent. *)
Lemma exec_consistent a cfg cfg' :
  seqs_consistent cfg -> exec a cfg = Some cfg' -> seqs_consistent cfg'.
Proof.
  destruct cfg as [st ts]. intros (I1 & I2 & I3). cbn [fst snd] in *.
  destruct a as [c args|i e|r]; cbn [exec].
  - intros [= <-]. unfold seqs_consistent. cbn [fst snd].
    assert (Hin : forall k q z, (ts ++ [AtGuard c args]) !! k = Some q ->
                    held_seq q = Some z -> ts !! k = Some q).
    { intros k q z [[_ Hk]|[_ <-]]%lookup_snoc_Some Hz; [exact Hk|discriminate]. }
    split; [|split].
    + intros k q z Hk Hz. eapply I1; eauto.
    + intros k l q r z Hk Hl Hq Hr. eapply I2; eauto.
    + intros z Hz. destruct (I3 z Hz) as (k & q & Hk & Hq).
      exists k, q. split; [|exact Hq]. apply lookup_app_l_Some. exact Hk.
  - destruct (ts !! i) as [p|] eqn:Ei; [|discriminate].
    destruct (thread_step e p st) as [[p' st']|] eqn:Estep; [|discriminate].
    intros [= <-]. unfold seqs_consistent. cbn [fst snd].
    pose proof (lookup_lt_Some _ _ _ Ei) as Hlt.
    assert (Hlook : forall k q, <[i:=p']> ts !! k = Some q ->
                      (k = i /\ q = p') \/ (k <> i /\ ts !! k = Some q)).
    { intros k q [(-> & -> & _)|[Hne Hk]]%list_lookup_insert_Some; [left|right]; done. }
    destruct (thread_step_summary _ _ _ _ _ Estep)
      as [(Hh & Hr & Hn & Hp)|[(Hh & Hr & Hh' & Hr' & Hn & Hp)
         |[(seq & Hh & Hr & Hh' & Hr' & Hn & Hp)|(seq & Hr & Hh' & Hr' & Hn & Hp)]]].
    + split; [|split].
      * intros k q z [[-> ->]|[Hne Hk]]%Hlook Hz; rewrite Hn; [|eauto].
        rewrite Hh in Hz. eauto.
      * intros k l q r z [[-> ->]|[Hnk Hk]]%Hlook [[-> ->]|[Hnl Hl]]%Hlook Hq Hq';
          rewrite ?Hh in *; eauto.
      * rewrite Hp. intros z Hz. destruct (I3 z Hz) as (k & q & Hk & Hq).
        destruct (decide (k = i)) as [->|Hne].
        -- exists i, p'. rewrite list_lookup_insert_eq by exact Hlt.
           split; [reflexivity|]. rewrite Hr. congruence.
        -- exists k, q. rewrite list_lookup_insert_ne by done. done.
    + split; [|split].
      * intros k q z [[-> ->]|[Hne Hk]]%Hlook Hz; rewrite Hn.
        -- rewrite Hh' in Hz. simplify_eq. lia.
        -- pose proof (I1 _ _ _ Hk Hz). lia.
      * intros k l q r z [[-> ->]|[Hnk Hk]]%Hlook [[-> ->]|[Hnl Hl]]%Hlook Hq Hq';
          rewrite ?Hh' in *; simplify_eq; eauto.
        -- pose proof (I1 _ _ _ Hl Hq'). lia.
        -- pose proof (I1 _ _ _ Hk Hq). lia.
      * rewrite Hp. intros z Hz. destruct (I3 z Hz) as (k & q & Hk & Hq).
        destruct (decide (k = i)) as [->|Hne]; [congruence|].
        exists k, q. rewrite list_lookup_insert_ne by done. done.
    + split; [|split].
      * intros k q z [[-> ->]|[Hne Hk]]%Hlook Hz; rewrite Hn; [|eauto].
        rewrite Hh' in Hz. simplify_eq. eauto.
      * intros k l q r z [[-> ->]|[Hnk Hk]]%Hlook [[-> ->]|[Hnl Hl]]%Hlook Hq Hq';
          rewrite ?Hh' in *; simplify_eq; eauto.
      * rewrite Hp. intros z Hz. destruct (decide (z = seq)) as [->|Hne].
        -- exists i, p'. rewrite list_lookup_insert_eq by exact Hlt. done.
        -- rewrite lookup_insert_ne in Hz by done.
           destruct (I3 z Hz) as (k & q & Hk & Hq).
           destruct (decide (k = i)) as [->|Hki]; [congruence|].
           exists k, q. rewrite list_lookup_insert_ne by done. done.
    + split; [|split].
      * intros k q z [[-> ->]|[Hne Hk]]%Hlook Hz; rewrite Hn; [congruence|eauto].
      * intros k l q r z [[-> ->]|[Hnk Hk]]%Hlook [[-> ->]|[Hnl Hl]]%Hlook Hq Hq';
          try congruence; eauto.
      * rewrite Hp. intros z Hz. destruct (decide (z = seq)) as [->|Hne].
        -- rewrite lookup_delete_eq in Hz. by destruct Hz.
        -- rewrite lookup_delete_ne in Hz by done.
           destruct (I3 z Hz) as (k & q & Hk & Hq).
           destruct (decide (k = i)) as [->|Hki]; [congruence|].
           exists k, q. rewrite list_lookup_insert_ne by done. done.
  - destruct (receive_thread st) as [[|]|]; try discriminate.
    intros [= <-]. unfold seqs_consistent. cbn [fst snd].
    destruct (receive_step_frame r st) as (_ & Hn & _).
    split; [|split].
    + intros k q z Hk Hz. rewrite Hn. eauto.
    + exact I2.
    + intros z Hz%receive_step_waiters. eauto.
Qed.

(** The part of the sequence-number invariant that holds on every
    schedule: started without waiters and without callers, the client
    never has two callers with the same sequence number, never a caller
    with a number the counter has not passed, and never a waiter that is
    not the waiter of a caller inside [_send_request]. *)
Lemma sequence_numbers_consistent acts st cfg :
  pending_requests st = ∅ ->
  exec_all acts (st, []) = Some cfg ->
  seqs_consistent cfg.
Proof.
  intros Hempty.
  assert (Hstart : seqs_consistent (st, [])).
  { split; [|split]; cbn [fst snd].
    - intros i p z Hi. by rewrite lookup_nil in Hi.
    - intros i j p q z Hi. by rewrite lookup_nil in Hi.
    - intros z. rewrite Hempty, lookup_empty. by intros []. }
  revert Hstart. generalize (st, @nil pc). clear Hempty st.
  induction acts as [|a acts IH]; intros c0 Hinv; cbn [exec_all].
  - intros [= <-]. exact Hinv.
  - destruct (exec a c0) as [c1|] eqn:E; [|discriminate].
    apply IH. eapply exec_consistent; eassumption.
Qed.

End Interleaving.

(** ** Further properties of the session registry *)

Section RegistryMore.
Import Py Json Wire Debugpy Scenario RegistryRuns.

(** The three ways [_send_request] can go. *)
Lemma send_request_cases io sid command arguments st :
  (connections st !! sid = None /\
   _send_request io sid command arguments st = (None, st)) \/
  (is_Some (connections st !! sid) /\
   _send_request io sid command arguments st =
     (None, set_sequence_number (sequence_number st + 1)%Z st)) \/
  (is_Some (connections st !! sid) /\
   exists response bytes,
     io = Reply response /\
     _send_request io sid command arguments st =
       (response,
        emit (IoSend sid (mkRequest (sequence_number st) command arguments) bytes)
          (set_sequence_number (sequence_number st + 1)%Z st))).
Proof.
  unfold _send_request. destruct (connections st !! sid) as [sock|]; [|left; done].
  right. destruct (frame _) as [bytes|]; [|left; eauto].
  destruct io as [|response]; [left; eauto|]. right. eauto 10.
Qed.

(** What [_send_request] does to the wire and to the counter: nothing is
    written and the counter moves by at most one, or one request carrying
    the old value of the counter is written and the counter moves by one. *)
Lemma send_request_wire io sid command arguments st :
  (all_sent (trace (snd (_send_request io sid command arguments st))) =
     all_sent (trace st) /\
   (sequence_number st <= sequence_number (snd (_send_request io sid command arguments st))
    <= sequence_number st + 1)%Z) \/
  (all_sent (trace (snd (_send_request io sid command arguments st))) =
     all_sent (trace st) ++ [mkRequest (sequence_number st) command arguments] /\
   sequence_number (snd (_send_request io sid command arguments st)) =
     (sequence_number st + 1)%Z).
Proof.
  destruct (send_request_cases io sid command arguments st)
    as [(_ & ->)|[(_ & ->)|(_ & response & bytes & _ & ->)]]; cbn.
  - left. split; [reflexivity|lia].
  - left. split; [reflexivity|lia].
  - right. unfold all_sent. rewrite omap_app. done.
Qed.

Lemma apply_op_wire o st :
  (all_sent (trace (apply_op o st)) = all_sent (trace st) /\
   (sequence_number st <= sequence_number (apply_op o st) <= sequence_number st + 1)%Z) \/
  (exists command arguments,
     all_sent (trace (apply_op o st)) =
       all_sent (trace st) ++ [mkRequest (sequence_number st) command arguments] /\
     sequence_number (apply_op o st) = (sequence_number st + 1)%Z).
Proof.
  assert (Hsame : forall e t, match e with IoSend _ _ _ => False | _ => True end ->
            all_sent (t ++ [e]) = all_sent t).
  { intros e t He. unfold all_sent. rewrite omap_app.
    destruct e; try done; cbn; by rewrite app_nil_r. }
  destruct o as [new_id h p|c io sid|sid|io sid path line c|io sid id|io sid cmd a];
    cbn [apply_op].
  - left. cbn. split; [reflexivity|lia].
  - unfold connect_session. destruct (sessions st !! sid) as [session|];
      [|left; cbn; split; [reflexivity|lia]].
    destruct c as [|e]; [|left; cbn; split; [reflexivity|lia]].
    match goal with
    | |- context [_send_request ?i ?s ?cmd ?a ?x] =>
        pose proof (send_request_wire i s cmd a x) as Hw;
        destruct (_send_request i s cmd a x) as [r st2]
    end.
    cbn [fst snd] in *. cbn [trace sequence_number set_sessions].
    cbn [trace sequence_number set_connections emit] in Hw.
    rewrite Hsame in Hw by done.
    destruct Hw as [Hw|Hw]; [left|right; eauto]; exact Hw.
  - left. unfold disconnect_session. destruct (sessions st !! sid) as [session|];
      [|cbn; split; [reflexivity|lia]].
    destruct (connections st !! sid); cbn; [|cbn; split; [reflexivity|lia]].
    unfold all_sent. rewrite omap_app. cbn. rewrite app_nil_r. split; [reflexivity|lia].
  - unfold set_breakpoint. destruct (negb (session_connected sid st));
      [left; cbn; split; [reflexivity|lia]|].
    destruct (breakpoints st !! sid) as [bps|]; [|left; cbn; split; [reflexivity|lia]].
    match goal with
    | |- context [_send_request ?i ?s ?cmd ?a ?x] =>
        pose proof (send_request_wire i s cmd a x) as Hw;
        destruct (_send_request i s cmd a x) as [r st2]
    end.
    cbn [fst snd] in *. destruct (response_success r); cbn [snd trace sequence_number set_breakpoints];
      (destruct Hw as [Hw|Hw]; [left|right; eauto]; exact Hw).
  - unfold clear_breakpoint. destruct (breakpoints st !! sid) as [bps|];
      [|left; cbn; split; [reflexivity|lia]].
    destruct (find_breakpoint id bps) as [[i bp]|]; [|left; cbn; split; [reflexivity|lia]].
    match goal with
    | |- context [_send_request ?i ?s ?cmd ?a ?x] =>
        pose proof (send_request_wire i s cmd a x) as Hw;
        destruct (_send_request i s cmd a x) as [r st2]
    end.
    cbn [fst snd] in *. cbn [trace sequence_number set_breakpoints].
    destruct Hw as [Hw|Hw]; [left|right; eauto]; exact Hw.
  - destruct (send_request_wire io sid cmd a st) as [Hw|Hw]; [left|right; eauto]; exact Hw.
Qed.

Lemma run_from_snoc st ops o : run_from st (ops ++ [o]) = apply_op o (run_from st ops).
Proof. unfold run_from. rewrite foldl_snoc. reflexivity. Qed.

Lemma run_is_run_from ops : run ops = run_from init ops.
Proof. reflexivity. Qed.

(** X1: one counter numbers the requests of all sessions: whatever operations
    are run on a new client, the requests that were written carry strictly
    increasing sequence numbers, the first at least 1, all below the current
    value of the counter. No two requests ever share a number. *)
Theorem wire_sequence_numbers_increase (ops : list op) :
  StronglySorted Z.lt (map req_seq (all_sent (trace (run ops)))) /\
  Forall (fun r => (1 <= req_seq r < sequence_number (run ops))%Z)
    (all_sent (trace (run ops))) /\
  NoDup (map req_seq (all_sent (trace (run ops)))).
Proof.
  assert (H : StronglySorted Z.lt (map req_seq (all_sent (trace (run ops)))) /\
              Forall (fun r => (1 <= req_seq r < sequence_number (run ops))%Z)
                (all_sent (trace (run ops))) /\
              (1 <= sequence_number (run ops))%Z).
  { induction ops as [|o ops IH] using rev_ind.
    - cbn. split; [constructor|]. split; [constructor|lia].
    - rewrite run_snoc. destruct IH as (Hs & Hb & H1).
      destruct (apply_op_wire o (run ops)) as [(-> & Hn)|(c & a & -> & ->)].
      + split; [exact Hs|]. split; [|lia].
        eapply Forall_impl; [exact Hb|]. cbn. intros r Hr. lia.
      + split; [|split; [|lia]].
        * rewrite map_app. apply StronglySorted_app_2; [|exact Hs|repeat constructor].
          intros x y Hx Hy. apply list_elem_of_fmap in Hx as (r & -> & Hr).
          cbn in Hy. apply list_elem_of_singleton in Hy as ->.
          rewrite Forall_forall in Hb. apply Hb in Hr. lia.
        * apply Forall_app. split.
          -- eapply Forall_impl; [exact Hb|]. cbn. intros r Hr. lia.
          -- repeat constructor; cbn; lia. }
  destruct H as (Hs & Hb & _). split; [exact Hs|]. split; [exact Hb|].
  clear Hb. induction Hs as [|x l Hs IH Hx]; constructor; [|exact IH].
  intros Hin. rewrite Forall_forall in Hx. apply Hx in Hin. lia.
Qed.

Lemma sent_to_snoc sid t e :
  sent_to sid (t ++ [e]) =
    sent_to sid t ++
    match e with
    | IoSend sid' r _ => if decide (sid' = sid) then [r] else []
    | _ => []
    end.
Proof.
  unfold sent_to. rewrite omap_app. f_equal.
  destruct e as [| sid' r bytes |]; try reflexivity.
  unfold omap, list_omap. destruct (decide (sid' = sid)); reflexivity.
Qed.

Ltac reg_simpl :=
  cbn [fst snd sessions connections breakpoints trace sequence_number
       set_sessions set_connections set_breakpoints set_sequence_number emit].

Ltac explode_send :=
  match goal with
  | |- context [_send_request ?i ?s ?c ?a ?x] =>
      destruct (send_request_cases i s c a x)
        as [(? & ->)|[(? & ->)|(? & ? & ? & ? & ->)]]
  end.

Lemma apply_op_other (o : op) (st : DebugpyClient) (other : str)
    (Hother : op_session o <> other) :
  sessions (apply_op o st) !! other = sessions st !! other /\
  connections (apply_op o st) !! other = connections st !! other /\
  breakpoints (apply_op o st) !! other = breakpoints st !! other /\
  sent_to other (trace (apply_op o st)) = sent_to other (trace st).
Proof.
  destruct o as [new_id h p|c io sid|sid|io sid path line c|io sid id|io sid cmd a];
    cbn [op_session] in Hother; cbn [apply_op].
  - unfold create_session. reg_simpl. rewrite !lookup_insert_ne by done. done.
  - unfold connect_session. destruct (sessions st !! sid) as [session|]; [|done].
    destruct c as [|e]; [|reg_simpl; by rewrite lookup_insert_ne].
    explode_send; reg_simpl; rewrite ?sent_to_snoc, ?decide_False by done;
      rewrite ?app_nil_r, !lookup_insert_ne by done; done.
  - unfold disconnect_session. destruct (sessions st !! sid) as [session|]; [|done].
    destruct (connections st !! sid); reg_simpl; rewrite ?sent_to_snoc, ?app_nil_r;
      rewrite ?lookup_delete_ne, !lookup_insert_ne by done; done.
  - unfold set_breakpoint. destruct (negb (session_connected sid st)); [done|].
    destruct (breakpoints st !! sid) as [bps|]; [|done].
    explode_send; cbn [fst snd]; destruct (response_success _); reg_simpl;
      rewrite ?sent_to_snoc, ?decide_False by done;
      rewrite ?app_nil_r, ?lookup_insert_ne by done; done.
  - unfold clear_breakpoint. destruct (breakpoints st !! sid) as [bps|]; [|done].
    destruct (find_breakpoint id bps) as [[i bp]|]; [|done].
    explode_send; reg_simpl; rewrite ?sent_to_snoc, ?decide_False by done;
      rewrite ?app_nil_r, ?lookup_insert_ne by done; done.
  - explode_send; reg_simpl; rewrite ?sent_to_snoc, ?decide_False by done;
      rewrite ?app_nil_r; done.
Qed.

(** X2: an operation called on one session leaves every other session as
    it is: its record, its socket, its breakpoint list and the requests
    written for it. *)
Theorem operations_touch_one_session (o : op) (st : DebugpyClient) (other : str)
    (Hother : op_session o <> other) :
  sessions (apply_op o st) !! other = sessions st !! other /\
  connections (apply_op o st) !! other = connections st !! other /\
  breakpoints (apply_op o st) !! other = breakpoints st !! other /\
  sent_to other (trace (apply_op o st)) = sent_to other (trace st).
Proof. exact (apply_op_other o st other Hother). Qed.

Lemma operations_touch_one_session_witness :
  breakpoints (apply_op (OpClearBreakpoint accepts s1 1) two_breakpoints) !! unknown =
    breakpoints two_breakpoints !! unknown /\
  sent_to unknown (trace (apply_op (OpClearBreakpoint accepts s1 1) two_breakpoints)) =
    sent_to unknown (trace two_breakpoints).
Proof.
  destruct (operations_touch_one_session (OpClearBreakpoint accepts s1 1) two_breakpoints
              unknown ltac:(vm_compute; discriminate)) as (_ & _ & Hb & Hs).
  split; [exact Hb | exact Hs].
Defined.

Lemma send_request_connections io sid command arguments st :
  connections (snd (_send_request io sid command arguments st)) = connections st.
Proof. explode_send; reflexivity. Qed.

(** A session marked connected has a socket; [apply_op] keeps it so. *)
Lemma apply_op_connected o st :
  (forall sid s, sessions st !! sid = Some s -> is_connected s = true ->
     is_Some (connections st !! sid)) ->
  forall sid s, sessions (apply_op o st) !! sid = Some s -> is_connected s = true ->
    is_Some (connections (apply_op o st) !! sid).
Proof.
  intros Inv sid s. destruct (decide (op_session o = sid)) as [Heq|Hne].
  2:{ destruct (apply_op_other o st sid Hne) as (-> & -> & _). apply Inv. }
  destruct o as [new_id h p|c io sid'|sid'|io sid' path line c|io sid' id|io sid' cmd a];
    cbn [op_session] in Heq; subst; cbn [apply_op].
  - unfold create_session. reg_simpl. rewrite lookup_insert_eq. intros [= <-]. discriminate.
  - unfold connect_session. destruct (sessions st !! sid) as [session|] eqn:Es;
      [|reg_simpl; rewrite Es; discriminate].
    destruct c as [|e].
    + explode_send; reg_simpl; rewrite !lookup_insert_eq; eauto.
    + reg_simpl. rewrite lookup_insert_eq. intros [= <-]. cbn. eauto.
  - unfold disconnect_session. destruct (sessions st !! sid) as [session|] eqn:Es;
      [|reg_simpl; rewrite Es; discriminate].
    reg_simpl. rewrite lookup_insert_eq. intros [= <-]. discriminate.
  - destruct (set_breakpoint_doms io sid path line c st) as [-> _].
    unfold set_breakpoint. destruct (negb (session_connected sid st)); [apply Inv|].
    destruct (breakpoints st !! sid) as [bps|]; [|apply Inv].
    explode_send; cbn [fst snd]; destruct (response_success _); reg_simpl; apply Inv.
  - destruct (clear_breakpoint_doms io sid id st) as [-> _].
    unfold clear_breakpoint. destruct (breakpoints st !! sid) as [bps|]; [|apply Inv].
    destruct (find_breakpoint id bps) as [[i bp]|]; [|apply Inv].
    explode_send; reg_simpl; apply Inv.
  - rewrite send_request_sessions, send_request_connections. apply Inv.
Qed.

(** X3: after any sequence of operations on a new client, a session whose
    [is_connected] flag is set has a socket in [connections]. *)
Theorem connected_session_has_socket (ops : list op) (sid : str) (s : DebugSession)
    (Hs : sessions (run ops) !! sid = Some s)
    (Hc : is_connected s = true) :
  is_Some (connections (run ops) !! sid).
Proof.
  revert sid s Hs Hc. induction ops as [|o ops IH] using rev_ind.
  - intros sid s. cbn. rewrite lookup_empty. discriminate.
  - rewrite run_snoc. apply apply_op_connected. exact IH.
Qed.

Lemma connected_session_has_socket_witness :
  is_Some (connections two_breakpoints !! s1).
Proof.
  apply (connected_session_has_socket
           [OpCreate s1 (lit "localhost") 5678; OpConnect ConnectOk accepts s1;
            OpSetBreakpoint accepts s1 a_py 10 None;
            OpSetBreakpoint accepts s1 a_py 20 None] s1
           (mkDebugSession s1 (lit "localhost") 5678 true None (lit "connected")));
    vm_compute; reflexivity.
Defined.

(** Without a socket for the session, an operation other than
    [connect_session] on it writes nothing for it and opens none. *)
Lemma apply_op_silent o st sid :
  connections st !! sid = None ->
  connects sid o = false ->
  connections (apply_op o st) !! sid = None /\
  sent_to sid (trace (apply_op o st)) = sent_to sid (trace st).
Proof.
  intros Hnone Hconn. destruct (decide (op_session o = sid)) as [Heq|Hne].
  2:{ destruct (apply_op_other o st sid Hne) as (_ & -> & _ & ->). done. }
  destruct o as [new_id h p|c io sid'|sid'|io sid' path line c|io sid' id|io sid' cmd a];
    cbn [op_session] in Heq; subst; cbn [apply_op].
  - done.
  - cbn in Hconn. by rewrite bool_decide_eq_true_2 in Hconn.
  - unfold disconnect_session. destruct (sessions st !! sid); [|done].
    rewrite Hnone. done.
  - unfold set_breakpoint. destruct (negb (session_connected sid st)); [done|].
    destruct (breakpoints st !! sid) as [bps|]; [|done].
    rewrite send_request_no_connection by exact Hnone.
    destruct (response_success None); done.
  - unfold clear_breakpoint. destruct (breakpoints st !! sid) as [bps|]; [|done].
    destruct (find_breakpoint id bps) as [[i bp]|]; [|done].
    rewrite send_request_no_connection by exact Hnone. done.
  - rewrite send_request_no_connection by exact Hnone. done.
Qed.

(** X4: once [disconnect_session] has been called on a known session,
    nothing is written for that session, whatever operations follow, until
    [connect_session] is called on it again; its socket entry stays
    absent. *)
Theorem disconnected_session_is_silent (st : DebugpyClient) (sid : str) (ops : list op)
    (Hknown : is_Some (sessions st !! sid))
    (Hnoconnect : forallb (fun o => negb (connects sid o)) ops = true) :
  connections (run_from (snd (disconnect_session sid st)) ops) !! sid = None /\
  sent_to sid (trace (run_from (snd (disconnect_session sid st)) ops)) =
    sent_to sid (trace st).
Proof.
  assert (Hstart : connections (snd (disconnect_session sid st)) !! sid = None /\
                   sent_to sid (trace (snd (disconnect_session sid st))) =
                     sent_to sid (trace st)).
  { destruct Hknown as [session Hs]. unfold disconnect_session. rewrite Hs.
    destruct (connections st !! sid) eqn:Ec; reg_simpl; [|done].
    rewrite lookup_delete_eq, sent_to_snoc, app_nil_r. done. }
  revert Hstart. generalize (snd (disconnect_session sid st)). intros st0 [Hc0 Hs0].
  induction ops as [|o ops IH] using rev_ind; [done|].
  rewrite forallb_app in Hnoconnect. apply andb_true_iff in Hnoconnect as [Hops Ho].
  cbn in Ho. rewrite andb_true_r in Ho. apply negb_true_iff in Ho.
  destruct (IH Hops) as [Hc Hs]. rewrite run_from_snoc.
  destruct (apply_op_silent o (run_from st0 ops) sid Hc Ho) as [-> ->]. done.
Qed.

Lemma disconnected_session_is_silent_witness :
  sent_to s1
    (trace (run_from (snd (disconnect_session s1 two_breakpoints))
              [OpSetBreakpoint accepts s1 a_py 30 None;
               OpClearBreakpoint accepts s1 1;
               OpRequest accepts s1 (lit "continue") (JDict [(lit "threadId", JInt 1)])])) =
    sent_to s1 (trace two_breakpoints).
Proof.
  apply (disconnected_session_is_silent two_breakpoints s1
           [OpSetBreakpoint accepts s1 a_py 30 None;
            OpClearBreakpoint accepts s1 1;
            OpRequest accepts s1 (lit "continue") (JDict [(lit "threadId", JInt 1)])]).
  - vm_compute. eexists. reflexivity.
  - vm_compute. reflexivity.
Defined.

Lemma closed_sockets_snoc t e :
  closed_sockets (t ++ [e]) =
    closed_sockets t ++ match e with IoClose sid => [sid] | _ => [] end.
Proof. unfold closed_sockets. rewrite omap_app. destruct e; reflexivity. Qed.

(** X5: sockets are closed by [disconnect_session] only, and only the
    socket of the session it is called on. In particular [connect_session]
    on a session that already has a socket opens another one and closes
    none. *)
Theorem only_disconnect_closes_sockets (o : op) (st : DebugpyClient) :
  closed_sockets (trace (apply_op o st)) =
    closed_sockets (trace st) ++
    match o with
    | OpDisconnect sid =>
        if bool_decide (is_Some (sessions st !! sid) /\ is_Some (connections st !! sid))
        then [sid] else []
    | _ => []
    end.
Proof.
  destruct o as [new_id h p|c io sid|sid|io sid path line c|io sid id|io sid cmd a];
    cbn [apply_op]; rewrite ?app_nil_r.
  - reflexivity.
  - unfold connect_session. destruct (sessions st !! sid) as [session|]; [|done].
    destruct c as [|e]; [|done].
    explode_send; reg_simpl; rewrite ?closed_sockets_snoc, ?app_nil_r; done.
  - unfold disconnect_session. destruct (sessions st !! sid) as [session|].
    + destruct (connections st !! sid); reg_simpl.
      * rewrite closed_sockets_snoc, bool_decide_eq_true_2 by eauto. done.
      * rewrite bool_decide_eq_false_2, app_nil_r; [done|]. intros [_ []]. discriminate.
    + rewrite bool_decide_eq_false_2, app_nil_r; [done|]. intros [[] _]. discriminate.
  - unfold set_breakpoint. destruct (negb (session_connected sid st)); [done|].
    destruct (breakpoints st !! sid) as [bps|]; [|done].
    explode_send; cbn [fst snd]; destruct (response_success _); reg_simpl;
      rewrite ?closed_sockets_snoc, ?app_nil_r; done.
  - unfold clear_breakpoint. destruct (breakpoints st !! sid) as [bps|]; [|done].
    destruct (find_breakpoint id bps) as [[i bp]|]; [|done].
    explode_send; reg_simpl; rewrite ?closed_sockets_snoc, ?app_nil_r; done.
  - explode_send; reg_simpl; rewrite ?closed_sockets_snoc, ?app_nil_r; done.
Qed.




End RegistryMore.

(** ** Further properties of the correlator *)

Section CorrelatorMore.
Import Py Json Wire Dap Scenario CorrelatorRuns.

(** What [_handle_message] can do to the waiters and the stored responses:
    nothing, or set the flag of a registered waiter and store the message
    under its number. *)
Lemma handle_message_effect v st st' :
  _handle_message v st = Some st' ->
  (pending_requests st' = pending_requests st /\ responses st' = responses st) \/
  (exists m seq b,
     v = JDict m /\ is_response_to seq v = true /\
     pending_requests st !! seq = Some b /\
     pending_requests st' = <[seq := true]> (pending_requests st) /\
     responses st' = <[seq := m]> (responses st)).
Proof.
  unfold _handle_message. destruct v as [| | | | |m]; try discriminate.
  destruct (dict_get m (lit "type")) as [[| | |t| |]|] eqn:Et;
    try (intros [= <-]; left; done).
  destruct (decide (t = lit "response")) as [->|Hr].
  - unfold handle_response.
    destruct (key_of (dict_get m (lit "request_seq"))) as [z| |] eqn:Ek;
      try discriminate; try (intros [= <-]; left; done).
    destruct (pending_requests st !! z) as [b|] eqn:Ep; intros [= <-]; [|left; done].
    right. exists m, z, b. split; [reflexivity|]. split; [|done].
    unfold is_response_to. rewrite Et, Ek.
    rewrite !bool_decide_eq_true_2 by reflexivity. reflexivity.
  - destruct (decide (t = lit "event")); [|intros [= <-]; left; done].
    unfold handle_event. intros H. left.
    repeat case_match; simplify_eq; done.
Qed.

Lemma handle_message_dom v st st' :
  _handle_message v st = Some st' ->
  dom (pending_requests st') = dom (pending_requests st).
Proof.
  intros [[-> _]|(m & seq & b & _ & _ & Hp & -> & _)]%handle_message_effect; [done|].
  rewrite dom_insert_L. apply subseteq_union_1_L, singleton_subseteq_l, elem_of_dom. eauto.
Qed.

Lemma process_frames_dom frames st :
  dom (pending_requests (fst (process_frames frames st))) = dom (pending_requests st).
Proof.
  revert st. induction frames as [|f frames IH]; intros st; [done|].
  destruct f as [v|e|e]; cbn [process_frames].
  - destruct (_handle_message v st) as [st1|] eqn:E; [|done].
    rewrite IH. eapply handle_message_dom; eassumption.
  - rewrite IH. done.
  - done.
Qed.

Lemma receive_step_dom r st :
  dom (pending_requests (receive_step r st)) = dom (pending_requests st).
Proof.
  unfold receive_step. destruct (negb (guard st)); [done|].
  destruct r as [frames| |e]; [|done|by rewrite loop_raise_pending].
  pose proof (process_frames_dom frames st) as H.
  destruct (process_frames frames st) as [st1 [e|]]; cbn [fst] in H;
    [rewrite loop_raise_pending|]; exact H.
Qed.

(** X7: whatever the receive thread reads, it neither registers nor
    removes a waiter, draws no sequence number, writes nothing to the socket
    and leaves the socket and the connected flag as they are. *)
Theorem receive_thread_keeps_waiters (reads : list Recv) (st : DAPClient) :
  dom (pending_requests (_receive_loop reads st)) = dom (pending_requests st) /\
  sequence_number (_receive_loop reads st) = sequence_number st /\
  trace (_receive_loop reads st) = trace st /\
  socket (_receive_loop reads st) = socket st /\
  is_connected (_receive_loop reads st) = is_connected st.
Proof.
  split.
  - revert st. induction reads as [|r reads IH]; intros st; [done|].
    cbn [_receive_loop]. destruct (receive_thread st) as [[|]|]; try done.
    rewrite IH. apply receive_step_dom.
  - destruct (receive_loop_frame reads st) as (-> & -> & -> & ->). done.
Qed.

Lemma handle_then_await (seq : Z) (m : message) (command : str) (st : DAPClient)
    (b : bool)
    (Hpending : pending_requests st !! seq = Some b)
    (Hresponse : is_response_to seq (JDict m) = true) :
  exists st1,
    _handle_message (JDict m) st = Some st1 /\
    fst (await_response seq command st1) = Some m /\
    pending_requests (snd (await_response seq command st1)) = delete seq (pending_requests st) /\
    responses (snd (await_response seq command st1)) = delete seq (responses st) /\
    log (snd (await_response seq command st1)) = log st.
Proof.
  unfold is_response_to in Hresponse.
  destruct (dict_get m (lit "type")) as [[| | |t| |]|] eqn:Et; try discriminate.
  destruct (key_of (dict_get m (lit "request_seq"))) as [z| |] eqn:Ek; try discriminate.
  apply andb_true_iff in Hresponse as [Ht Hz].
  apply bool_decide_eq_true in Ht as ->. apply bool_decide_eq_true in Hz as ->.
  eexists. split.
  { unfold _handle_message. rewrite Et, decide_True by reflexivity.
    unfold handle_response. rewrite Ek, Hpending. reflexivity. }
  unfold await_response, event_is_set, pop_response.
  cbn [pending_requests responses set_pending set_responses log finally fst snd].
  rewrite lookup_insert_eq. cbn [default from_option id fst snd].
  cbn [pending_requests responses set_pending set_responses log finally].
  rewrite lookup_insert_eq, !delete_insert_eq. done.
Qed.

(** X8: a response read while the waiter of its [request_seq] is
    registered is handed to the caller: [_handle_message] accepts it, the
    caller's wait ends with exactly that message, and afterwards neither
    the waiter nor a stored response is left for the number. Nothing is
    logged. *)
Theorem response_is_delivered (seq : Z) (m : message) (command : str) (st : DAPClient)
    (b : bool)
    (Hpending : pending_requests st !! seq = Some b)
    (Hresponse : is_response_to seq (JDict m) = true) :
  exists st1,
    _handle_message (JDict m) st = Some st1 /\
    fst (await_response seq command st1) = Some m /\
    pending_requests (snd (await_response seq command st1)) = delete seq (pending_requests st) /\
    responses (snd (await_response seq command st1)) = delete seq (responses st) /\
    log (snd (await_response seq command st1)) = log st.
Proof. exact (handle_then_await seq m command st b Hpending Hresponse). Qed.

Lemma response_is_delivered_witness :
  exists st1,
    _handle_message (response_to 3 true)
      (register_waiter 3 (set_sequence_number 4 dap_connected)) = Some st1 /\
    fst (await_response 3 threads st1) =
      Some [(lit "type", JStr (lit "response")); (lit "request_seq", JInt 3);
            (lit "success", JBool true)].
Proof.
  destruct (response_is_delivered 3
              [(lit "type", JStr (lit "response")); (lit "request_seq", JInt 3);
               (lit "success", JBool true)] threads
              (register_waiter 3 (set_sequence_number 4 dap_connected)) false
              ltac:(vm_compute; reflexivity) ltac:(vm_compute; reflexivity))
    as (st1 & H1 & H2 & _).
  exists st1. split; [exact H1 | exact H2].
Defined.

(** For one sequence number: a message leaves its waiter and its stored
    response alone, or it is a response to it and is now the stored one. *)
Lemma handle_message_stored seq v st st' :
  _handle_message v st = Some st' ->
  (pending_requests st' !! seq = pending_requests st !! seq /\
   responses st' !! seq = responses st !! seq) \/
  (exists m, v = JDict m /\ is_response_to seq v = true /\ responses st' !! seq = Some m).
Proof.
  intros [[-> ->]|(m & z & b & -> & Hr & Hp & -> & ->)]%handle_message_effect; [left; done|].
  destruct (decide (z = seq)) as [->|Hne].
  - right. exists m. rewrite lookup_insert_eq. done.
  - left. rewrite !lookup_insert_ne by done. done.
Qed.

Lemma process_frames_stored seq frames st :
  (pending_requests (fst (process_frames frames st)) !! seq = pending_requests st !! seq /\
   responses (fst (process_frames frames st)) !! seq = responses st !! seq) \/
  (exists m, JDict m ∈ frame_messages frames /\ is_response_to seq (JDict m) = true /\
             responses (fst (process_frames frames st)) !! seq = Some m).
Proof.
  revert st. induction frames as [|f frames IH]; intros st; [left; done|].
  destruct f as [v|e|e]; cbn [process_frames].
  - destruct (_handle_message v st) as [st1|] eqn:E; [|left; done].
    destruct (IH st1) as [[Hp Hr]|(m & Hin & Hm & Hs)].
    + destruct (handle_message_stored seq _ _ _ E) as [[Hp' Hr']|(m & -> & Hm & Hs)].
      * left. rewrite Hp, Hr. done.
      * right. exists m. rewrite Hr. split; [|done].
        unfold frame_messages. cbn. apply list_elem_of_here.
    + right. exists m. split; [|done]. unfold frame_messages. cbn.
      apply list_elem_of_further. exact Hin.
  - destruct (IH (write_log (LogParseError e) st)) as [[Hp Hr]|(m & Hin & Hm & Hs)].
    + left. rewrite Hp, Hr. done.
    + right. exists m. done.
  - left. done.
Qed.

Lemma loop_raise_responses e st : responses (loop_raise e st) = responses st.
Proof. unfold loop_raise. destruct (is_connected st); reflexivity. Qed.

Lemma receive_step_stored seq r st :
  (pending_requests (receive_step r st) !! seq = pending_requests st !! seq /\
   responses (receive_step r st) !! seq = responses st !! seq) \/
  (exists m, JDict m ∈ carried [r] /\ is_response_to seq (JDict m) = true /\
             responses (receive_step r st) !! seq = Some m).
Proof.
  unfold receive_step. destruct (negb (guard st)); [left; done|].
  destruct r as [frames| |e]; [|left; done|left; by rewrite loop_raise_pending, loop_raise_responses].
  pose proof (process_frames_stored seq frames st) as H.
  unfold carried. cbn [map concat]. rewrite app_nil_r.
  destruct (process_frames frames st) as [st1 [e|]]; cbn [fst] in H;
    rewrite ?loop_raise_pending, ?loop_raise_responses; exact H.
Qed.

Lemma receive_loop_stored seq reads st :
  (pending_requests (_receive_loop reads st) !! seq = pending_requests st !! seq /\
   responses (_receive_loop reads st) !! seq = responses st !! seq) \/
  (exists m, JDict m ∈ carried reads /\ is_response_to seq (JDict m) = true /\
             responses (_receive_loop reads st) !! seq = Some m).
Proof.
  revert st. induction reads as [|r reads IH]; intros st; [left; done|].
  cbn [_receive_loop]. destruct (receive_thread st) as [[|]|]; try (left; done).
  assert (Hcons : carried (r :: reads) = carried [r] ++ carried reads).
  { unfold carried. cbn [map concat]. by rewrite app_nil_r. }
  destruct (IH (receive_step r st)) as [[Hp Hr]|(m & Hin & Hm & Hs)].
  - destruct (receive_step_stored seq r st) as [[Hp' Hr']|(m & Hin & Hm & Hs)].
    + left. rewrite Hp, Hr. done.
    + right. exists m. rewrite Hr, Hcons. split; [|done].
      apply elem_of_app. left. exact Hin.
  - right. exists m. rewrite Hcons. split; [|done]. apply elem_of_app. right. exact Hin.
Qed.

(** X9: the message [_send_request] returns is always a response to the
    request it has just written: its type is [response], its
    [request_seq] is the sequence number drawn for the request, and it is
    one of the messages read during the wait. A response to another request
    or an event is never returned. *)
Theorem returned_response_matches_request (io : SendIO) (command : str)
    (arguments : json) (st : DAPClient) (m : message)
    (Hreturned : fst (_send_request io command arguments st) = Some m) :
  is_response_to (sequence_number st) (JDict m) = true /\
  JDict m ∈ carried (arrivals io) /\
  last (sent (trace (snd (_send_request io command arguments st)))) =
    Some (mkRequest (sequence_number st) command arguments).
Proof.
  revert Hreturned. unfold _send_request.
  destruct (guard st); cbn [negb]; [|discriminate].
  cbn [alloc_seq]. unfold send.
  destruct (frame _) as [bytes|]; [|discriminate].
  cbn [socket register_waiter set_pending set_sequence_number].
  destruct (socket st) as [sock|]; [|discriminate].
  destruct (send_error io); [discriminate|].
  unfold await_response, event_is_set.
  match goal with
  | |- context [_receive_loop ?reads ?x] =>
      destruct (receive_loop_stored (sequence_number st) reads x) as [[Hp Hr]|(m' & Hin & Hm & Hs)];
      pose proof (receive_loop_frame reads x) as (_ & _ & _ & Ht)
  end.
  - rewrite Hp. cbn [pending_requests emit register_waiter set_pending].
    rewrite lookup_insert_eq. discriminate.
  - destruct (default false _); [|discriminate].
    cbn [pop_response fst snd]. rewrite Hs. intros [= <-].
    split; [exact Hm|]. split; [exact Hin|].
    cbn [trace finally set_pending set_responses]. rewrite Ht.
    cbn [trace emit register_waiter set_pending set_sequence_number].
    unfold sent. rewrite omap_app. apply last_snoc.
Qed.

Lemma returned_response_matches_request_witness :
  is_response_to 3 (response_to 3 true) = true /\
  response_to 3 true ∈ carried (arrivals (arrives (response_to 3 true))).
Proof.
  destruct (returned_response_matches_request (arrives (response_to 3 true)) threads
              (JDict []) dap_connected
              [(lit "type", JStr (lit "response")); (lit "request_seq", JInt 3);
               (lit "success", JBool true)]
              ltac:(vm_compute; reflexivity)) as (H1 & H2 & _).
  split; [exact H1 | exact H2].
Defined.

Ltac dap_simpl :=
  cbn [socket sequence_number pending_requests responses event_callbacks
       is_connected receive_thread trace log callback_calls
       set_socket set_sequence_number set_pending set_responses
       set_event_callbacks set_is_connected set_receive_thread
       emit write_log call_callback register_waiter finally fst snd].

(** [_send_request] on a connected client with a running receive thread,
    when the one message read during the wait is the response to it. *)
Lemma send_request_answered m command arguments st :
  guard st = true ->
  receive_thread st = Some true ->
  is_response_to (sequence_number st) (JDict m) = true ->
  fst (_send_request (answered_by m) command arguments st) = Some m /\
  sent (trace (snd (_send_request (answered_by m) command arguments st))) =
    sent (trace st) ++ [mkRequest (sequence_number st) command arguments] /\
  sequence_number (snd (_send_request (answered_by m) command arguments st)) =
    (sequence_number st + 1)%Z /\
  guard (snd (_send_request (answered_by m) command arguments st)) = true /\
  receive_thread (snd (_send_request (answered_by m) command arguments st)) = Some true /\
  is_connected (snd (_send_request (answered_by m) command arguments st)) = is_connected st /\
  pending_requests (snd (_send_request (answered_by m) command arguments st)) =
    delete (sequence_number st) (pending_requests st) /\
  responses (snd (_send_request (answered_by m) command arguments st)) =
    delete (sequence_number st) (responses st) /\
  log (snd (_send_request (answered_by m) command arguments st)) = log st.
Proof.
  intros Hguard Hthread Hm. unfold _send_request. rewrite Hguard.
  cbn [negb alloc_seq]. unfold send.
  destruct (frames_closed_form (mkRequest (sequence_number st) command arguments))
    as (_ & -> & _).
  cbn [socket register_waiter set_pending set_sequence_number].
  pose proof Hguard as Hg. unfold guard in Hg. apply andb_true_iff in Hg as [Hconn Hsock].
  apply bool_decide_eq_true in Hsock as [sock Hsock]. rewrite Hsock.
  cbn [send_error answered_by arrivals _receive_loop receive_thread emit
       register_waiter set_pending set_sequence_number].
  rewrite Hthread. unfold receive_step.
  replace (guard (emit _ _)) with true
    by (unfold guard; cbn [is_connected socket emit register_waiter set_pending
                            set_sequence_number];
        rewrite Hconn, Hsock; reflexivity).
  cbn [negb process_frames].
  match goal with
  | |- context [_handle_message _ ?x] =>
      destruct (handle_then_await (sequence_number st) m command x false)
        as (st1 & Hh & Hres & Hp & Hr & Hl);
        [cbn [pending_requests emit]; apply lookup_insert_eq | exact Hm |];
      destruct (handle_message_frame _ _ _ Hh) as (Hs1 & Hn1 & Hc1 & Ht1 & Hth1)
  end.
  rewrite Hh. cbn [fst snd].
  assert (Hs' : forall x, socket (snd (await_response (sequence_number st) command x)) = socket x /\
                  sequence_number (snd (await_response (sequence_number st) command x)) =
                    sequence_number x /\
                  is_connected (snd (await_response (sequence_number st) command x)) =
                    is_connected x /\
                  trace (snd (await_response (sequence_number st) command x)) = trace x /\
                  receive_thread (snd (await_response (sequence_number st) command x)) =
                    receive_thread x).
  { intros x. unfold await_response. destruct (event_is_set _ x); done. }
  destruct (Hs' st1) as (Hs2 & Hn2 & Hc2 & Ht2 & Hth2).
  split; [exact Hres|]. split.
  { rewrite Ht2, Ht1. dap_simpl. unfold sent. by rewrite omap_app. }
  split; [by rewrite Hn2, Hn1|]. split.
  { unfold guard. rewrite Hc2, Hc1, Hs2, Hs1. dap_simpl.
    rewrite Hconn, Hsock. reflexivity. }
  split; [by rewrite Hth2, Hth1|]. split; [by rewrite Hc2, Hc1|].
  rewrite Hp, Hr, Hl. dap_simpl.
  rewrite delete_insert_eq. done.
Qed.

(** X10: [connect] on a target that accepts the connection and answers
    [initialize] and then [configurationDone] with success returns [True]:
    exactly these two requests are written, in this order and with
    consecutive sequence numbers, the client is connected with its receive
    thread running, and no waiter is left for either request. *)
Theorem connect_handshake (h : str) (p timeout : Z) (st : DAPClient) (m1 m2 : message)
    (Hm1 : is_response_to (sequence_number st) (JDict m1) = true)
    (Hok1 : response_success (Some m1) = true)
    (Hm2 : is_response_to (sequence_number st + 1) (JDict m2) = true)
    (Hok2 : config_success (Some m2) = true) :
  fst (connect ConnectOk (answered_by m1) (answered_by m2) h p timeout st) = true /\
  sent (trace (snd (connect ConnectOk (answered_by m1) (answered_by m2) h p timeout st))) =
    sent (trace st) ++
    [mkRequest (sequence_number st) (lit "initialize") initialize_arguments;
     mkRequest (sequence_number st + 1) (lit "configurationDone") (JDict [])] /\
  guard (snd (connect ConnectOk (answered_by m1) (answered_by m2) h p timeout st)) = true /\
  receive_thread (snd (connect ConnectOk (answered_by m1) (answered_by m2) h p timeout st)) =
    Some true /\
  pending_requests (snd (connect ConnectOk (answered_by m1) (answered_by m2) h p timeout st)) =
    delete (sequence_number st + 1)%Z (delete (sequence_number st) (pending_requests st)).
Proof.
  unfold connect.
  set (st2 := emit IoStartThread (set_receive_thread (Some true)
                (set_is_connected true (emit (IoConnect h p timeout)
                   (set_socket (Some (mkSocket h p)) st))))).
  assert (Hg2 : guard st2 = true) by reflexivity.
  assert (Ht2 : receive_thread st2 = Some true) by reflexivity.
  assert (Hn2 : sequence_number st2 = sequence_number st) by reflexivity.
  destruct (send_request_answered m1 (lit "initialize") initialize_arguments st2 Hg2 Ht2)
    as (Hr1 & Hs1 & Hn1 & Hg1 & Hth1 & _ & Hp1 & _); [by rewrite Hn2|].
  destruct (_send_request (answered_by m1) (lit "initialize") initialize_arguments st2)
    as [response st3].
  cbn [fst snd] in *. subst response. rewrite Hok1.
  destruct (send_request_answered m2 (lit "configurationDone") (JDict []) st3 Hg1 Hth1)
    as (Hr2 & Hs2 & Hn3 & Hg3 & Hth3 & _ & Hp3 & _); [by rewrite Hn1, Hn2|].
  destruct (_send_request (answered_by m2) (lit "configurationDone") (JDict []) st3)
    as [config_response st4].
  cbn [fst snd] in *. subst config_response.
  split; [exact Hok2|]. split.
  { rewrite Hs2, Hs1, Hn1, Hn2. unfold st2. cbn [trace emit set_receive_thread set_is_connected set_socket].
    unfold sent. rewrite !omap_app. cbn [omap list_omap]. rewrite !app_nil_r, <- app_assoc. done. }
  split; [exact Hg3|]. split; [exact Hth3|].
  rewrite Hp3, Hp1, Hn1, Hn2. done.
Qed.

Lemma connect_handshake_witness :
  fst (connect ConnectOk
         (answered_by [(lit "type", JStr (lit "response")); (lit "request_seq", JInt 1);
                       (lit "success", JBool true)])
         (answered_by [(lit "type", JStr (lit "response")); (lit "request_seq", JInt 2);
                       (lit "success", JBool true)])
         (lit "localhost") 5678 30 init) = true.
Proof.
  apply (connect_handshake (lit "localhost") 5678 30 init
           [(lit "type", JStr (lit "response")); (lit "request_seq", JInt 1);
            (lit "success", JBool true)]
           [(lit "type", JStr (lit "response")); (lit "request_seq", JInt 2);
            (lit "success", JBool true)]); vm_compute; reflexivity.
Defined.

Lemma unsent_held p z : unsent p = Some z -> held_seq p = Some z.
Proof. destruct p; cbn; congruence. Qed.

(** What one statement of a caller does to the wire. *)
Lemma thread_step_wire e p st p' st' :
  thread_step e p st = Some (p', st') ->
  (sequence_number st <= sequence_number st')%Z /\
  ((sent (trace st') = sent (trace st) /\
    (unsent p' = unsent p \/ unsent p' = None \/
     unsent p' = Some (sequence_number st))) \/
   (exists seq c a,
      unsent p = Some seq /\ unsent p' = None /\
      sent (trace st') = sent (trace st) ++ [mkRequest seq c a])).
Proof.
  destruct p as [c a|c a|seq c a|seq c a|seq c|seq|seq c|seq c err|seq r|r];
    cbn [thread_step]; intros H.
  - destruct (guard st); simplify_eq; (split; [lia|left; cbn; auto]).
  - cbn [alloc_seq] in H. simplify_eq. cbn. split; [lia|]. left. auto.
  - simplify_eq. cbn. split; [lia|]. left. auto.
  - unfold send in H. destruct (frame _) as [bytes|];
      [|simplify_eq; (split; [lia|left; cbn; auto])].
    destruct (socket st); [|simplify_eq; (split; [lia|left; cbn; auto])].
    destruct e; simplify_eq; (split; [cbn; lia|]); [left; cbn; auto|].
    right. exists seq, c, a. dap_simpl. unfold sent. rewrite omap_app. done.
  - destruct (event_is_set seq st); simplify_eq; (split; [lia|left; cbn; auto]).
  - cbn [pop_response] in H. simplify_eq. split; [cbn; lia|]. left. cbn. auto.
  - simplify_eq. split; [cbn; lia|]. left. cbn. auto.
  - simplify_eq. split; [cbn; lia|]. left. cbn. auto.
  - simplify_eq. split; [cbn; lia|]. left. cbn. auto.
  - discriminate.
Qed.

(** Every move of the system keeps the wire consistent. *)
Lemma exec_wire a cfg cfg' :
  seqs_consistent cfg -> wire_consistent cfg -> exec a cfg = Some cfg' ->
  wire_consistent cfg'.
Proof.
  destruct cfg as [st ts]. intros (I1 & I2 & _) (J1 & J2 & J3). cbn [fst snd] in *.
  destruct a as [c args|i e|r]; cbn [exec].
  - intros [= <-]. unfold wire_consistent. cbn [fst snd].
    split; [exact J1|]. split; [exact J2|].
    intros k q z r [[_ Hk]|[_ <-]]%lookup_snoc_Some Hz; [eauto|discriminate].
  - destruct (ts !! i) as [p|] eqn:Ei; [|discriminate].
    destruct (thread_step e p st) as [[p' st']|] eqn:Estep; [|discriminate].
    intros [= <-]. unfold wire_consistent. cbn [fst snd].
    assert (Hlook : forall k q, <[i:=p']> ts !! k = Some q ->
                      (k = i /\ q = p') \/ (k <> i /\ ts !! k = Some q)).
    { intros k q [(-> & -> & _)|[Hne Hk]]%list_lookup_insert_Some; [left|right]; done. }
    destruct (thread_step_wire _ _ _ _ _ Estep)
      as [Hn [(Ht & Hu)|(seq & c & a & Hu & Hu' & Ht)]]; rewrite Ht.
    + split; [exact J1|]. split.
      * intros r Hr. pose proof (J2 r Hr). lia.
      * intros k q z r [[-> ->]|[Hne Hk]]%Hlook Hz Hr; [|eauto].
        destruct Hu as [Hu|[Hu|Hu]]; rewrite Hu in Hz.
        -- eauto.
        -- discriminate.
        -- simplify_eq. pose proof (J2 r Hr). lia.
    + assert (Hnew : forall r, r ∈ sent (trace st) -> req_seq r <> seq) by eauto.
      split; [|split].
      * rewrite map_app. apply NoDup_app. split; [exact J1|]. split; [|repeat constructor].
        -- intros x Hx Hx'. apply list_elem_of_fmap in Hx as (r & -> & Hr).
           cbn in Hx'. apply list_elem_of_singleton in Hx'. eapply Hnew; eassumption.
        -- apply not_elem_of_nil.
      * intros r [Hr|Hr]%elem_of_app.
        -- pose proof (J2 r Hr). lia.
        -- apply list_elem_of_singleton in Hr as ->. cbn.
           pose proof (I1 _ _ _ Ei (unsent_held _ _ Hu)). lia.
      * intros k q z r [[-> ->]|[Hne Hk]]%Hlook Hz [Hr|Hr]%elem_of_app.
        -- congruence.
        -- congruence.
        -- eauto.
        -- apply list_elem_of_singleton in Hr as ->. cbn. intros ->.
           apply Hne. eapply I2; eauto using unsent_held.
  - destruct (receive_thread st) as [[|]|]; try discriminate.
    intros [= <-]. unfold wire_consistent. cbn [fst snd].
    destruct (receive_step_frame r st) as (_ & -> & _ & ->). done.
Qed.

Lemma exec_all_wire acts cfg cfg' :
  seqs_consistent cfg -> wire_consistent cfg -> exec_all acts cfg = Some cfg' ->
  wire_consistent cfg'.
Proof.
  revert cfg. induction acts as [|a acts IH]; intros cfg Hs Hw; cbn [exec_all].
  - intros [= <-]. exact Hw.
  - destruct (exec a cfg) as [c1|] eqn:E; [|discriminate].
    apply IH; [eapply exec_consistent | eapply exec_wire]; eassumption.
Qed.

(** X11: on every schedule of callers and receive thread, no two requests
    written to the socket carry the same sequence number, and each carries
    a number the counter has already passed. *)
Theorem written_sequence_numbers_distinct (acts : list action) (st : DAPClient)
    (cfg : config)
    (Hempty : pending_requests st = ∅)
    (Hdistinct : NoDup (map req_seq (sent (trace st))))
    (Hbelow : Forall (fun r => (req_seq r < sequence_number st)%Z) (sent (trace st)))
    (Hrun : exec_all acts (st, []) = Some cfg) :
  NoDup (map req_seq (sent (trace cfg.1))) /\
  Forall (fun r => (req_seq r < sequence_number cfg.1)%Z) (sent (trace cfg.1)).
Proof.
  assert (Hs : seqs_consistent (st, [])).
  { split; [|split]; cbn [fst snd].
    - intros i p z Hi. by rewrite lookup_nil in Hi.
    - intros i j p q z Hi. by rewrite lookup_nil in Hi.
    - intros z. rewrite Hempty, lookup_empty. by intros []. }
  assert (Hw : wire_consistent (st, [])).
  { split; [exact Hdistinct|]. split; cbn [fst snd].
    - rewrite Forall_forall in Hbelow. exact Hbelow.
    - intros i p z r Hi. by rewrite lookup_nil in Hi. }
  destruct (exec_all_wire acts _ _ Hs Hw Hrun) as (J1 & J2 & _).
  split; [exact J1|]. apply Forall_forall. exact J2.
Qed.

Lemma written_sequence_numbers_distinct_witness :
  (fun cfg : config => map req_seq (sent (trace cfg.1)))
    <$> exec_all two_callers_schedule (dap_connected, []) = Some [1; 2; 4; 3]%Z /\
  match exec_all two_callers_schedule (dap_connected, []) with
  | Some cfg => NoDup (map req_seq (sent (trace cfg.1)))
  | None => False
  end.
Proof.
  split; [vm_compute; reflexivity|].
  destruct (exec_all two_callers_schedule (dap_connected, [])) as [cfg|] eqn:E.
  - apply (written_sequence_numbers_distinct two_callers_schedule dap_connected cfg).
    + vm_compute. reflexivity.
    + apply (bool_decide_unpack _). vm_compute. exact I.
    + vm_compute. repeat constructor.
    + exact E.
  - vm_compute in E. discriminate.
Defined.

End CorrelatorMore.

(** ** Python's text operations on the texts of the protocol *)

Section TextFacts.
Import Py Json Wire PyText.

Lemma starts_with_app (p x : list N) : starts_with p (p ++ x) = true.
Proof.
  induction p as [|c p IH]; cbn; [reflexivity|]. rewrite N.eqb_refl. exact IH.
Qed.

Lemma starts_with_head (needle : list N) (c d : N) (s : list N) :
  c <> d -> starts_with (d :: needle) (c :: s) = false.
Proof. intros H. cbn. apply N.eqb_neq in H. rewrite N.eqb_sym, H. reflexivity. Qed.

(** The first blank line of a buffer whose header holds no carriage
    return. *)
Lemma find_blank_line_after (pre post : list N) :
  Forall (fun c => c <> 13) pre ->
  find [13; 10; 13; 10] (pre ++ [13; 10; 13; 10] ++ post) = Some (length pre).
Proof.
  induction 1 as [|c pre Hc _ IH].
  - reflexivity.
  - cbn [app find length]. rewrite starts_with_head by exact Hc.
    change (pre ++ 13 :: 10 :: 13 :: 10 :: post) with (pre ++ [13; 10; 13; 10] ++ post).
    rewrite IH. reflexivity.
Qed.

(** No blank line in a buffer that ends inside the blank line. *)
Lemma find_blank_line_before (pre : list N) (k : nat) :
  Forall (fun c => c <> 13) pre -> (k < 4)%nat ->
  find [13; 10; 13; 10] (pre ++ take k [13; 10; 13; 10]) = None.
Proof.
  intros Hpre Hk. induction Hpre as [|c pre Hc _ IH].
  - destruct k as [|[|[|[|k]]]]; try lia; reflexivity.
  - cbn [app find]. rewrite starts_with_head by exact Hc. rewrite IH. reflexivity.
Qed.

(** UTF-8 decoding of ASCII bytes. *)
Lemma decode_utf8_ascii (s : str) : is_ascii s -> decode_utf8 s = Some s.
Proof.
  induction 1 as [|c s Hc _ IH]; [reflexivity|].
  cbn [decode_utf8]. rewrite IH.
  destruct (c <? 128) eqn:E; [reflexivity|]. apply N.ltb_ge in E. lia.
Qed.

(** Splitting at a separator whose first character does not occur. *)
Lemma split_go_absent (sep : str) (c : N) (cur s : str) :
  Forall (fun x => x <> c) s ->
  split_go (c :: sep) 0 cur s = [cur ++ s].
Proof.
  intros H. revert cur. induction H as [|x s Hx _ IH]; intros cur.
  - cbn. by rewrite app_nil_r.
  - cbn [split_go]. rewrite starts_with_head by exact Hx.
    rewrite IH, <- app_assoc. reflexivity.
Qed.

(** Splitting at a one-character separator that occurs once. *)
Lemma split_go_once (c : N) (cur a b : str) :
  Forall (fun x => x <> c) a -> Forall (fun x => x <> c) b ->
  split_go [c] 0 cur (a ++ c :: b) = [cur ++ a; b].
Proof.
  intros Ha Hb. revert cur. induction Ha as [|x a Hx _ IH]; intros cur.
  - cbn [app split_go starts_with length]. rewrite N.eqb_refl. cbn.
    rewrite app_nil_r. f_equal. apply (split_go_absent [] c [] b Hb).
  - cbn [app split_go]. rewrite starts_with_head by exact Hx.
    rewrite IH, <- app_assoc. reflexivity.
Qed.

(** The characters of a printed length are ASCII digits. *)
Lemma uint_digits (d : Decimal.uint) :
  Forall (fun c => 48 <= c <= 57) (lit (NilEmpty.string_of_uint d)).
Proof.
  induction d; cbn [NilEmpty.string_of_uint]; try constructor;
    try (cbv; split; discriminate); assumption.
Qed.

Lemma str_of_len_digits (n : nat) : Forall (fun c => 48 <= c <= 57) (str_of_len n).
Proof. apply uint_digits. Qed.

Lemma to_uint_not_nil (n : nat) : Nat.to_uint n <> Decimal.Nil.
Proof.
  intros H. pose proof (DecimalNat.Unsigned.of_to n) as Hn. rewrite H in Hn.
  cbn in Hn. subst n. discriminate.
Qed.

Lemma str_of_len_not_empty (n : nat) : str_of_len n <> [].
Proof.
  unfold str_of_len. pose proof (to_uint_not_nil n) as H.
  destruct (Nat.to_uint n); [congruence|..]; discriminate.
Qed.

Section IntFacts.
Variable unicode_decimal : N -> option N.

(** Reading back the digits that [str] prints. *)
Lemma digits_value_uint (d : Decimal.uint) (a : nat) (b : bool) :
  d <> Decimal.Nil \/ b = true ->
  digits_value (Z.of_nat a) b (lit (NilEmpty.string_of_uint d)) =
    Some (Z.of_nat (Nat.of_uint_acc d a)).
Proof.
  revert a b. induction d as [|d IH|d IH|d IH|d IH|d IH|d IH|d IH|d IH|d IH|d IH];
    intros a b Hb.
  - destruct Hb as [Hb| ->]; [congruence|]. reflexivity.
  - cbn [NilEmpty.string_of_uint Nat.of_uint_acc]. rewrite Nat.tail_mul_spec.
    rewrite <- (IH _ true) by auto. cbn. do 2 f_equal. lia.
  - cbn [NilEmpty.string_of_uint Nat.of_uint_acc]. rewrite Nat.tail_mul_spec.
    rewrite <- (IH _ true) by auto. cbn. do 2 f_equal. lia.
  - cbn [NilEmpty.string_of_uint Nat.of_uint_acc]. rewrite Nat.tail_mul_spec.
    rewrite <- (IH _ true) by auto. cbn. do 2 f_equal. lia.
  - cbn [NilEmpty.string_of_uint Nat.of_uint_acc]. rewrite Nat.tail_mul_spec.
    rewrite <- (IH _ true) by auto. cbn. do 2 f_equal. lia.
  - cbn [NilEmpty.string_of_uint Nat.of_uint_acc]. rewrite Nat.tail_mul_spec.
    rewrite <- (IH _ true) by auto. cbn. do 2 f_equal. lia.
  - cbn [NilEmpty.string_of_uint Nat.of_uint_acc]. rewrite Nat.tail_mul_spec.
    rewrite <- (IH _ true) by auto. cbn. do 2 f_equal. lia.
  - cbn [NilEmpty.string_of_uint Nat.of_uint_acc]. rewrite Nat.tail_mul_spec.
    rewrite <- (IH _ true) by auto. cbn. do 2 f_equal. lia.
  - cbn [NilEmpty.string_of_uint Nat.of_uint_acc]. rewrite Nat.tail_mul_spec.
    rewrite <- (IH _ true) by auto. cbn. do 2 f_equal. lia.
  - cbn [NilEmpty.string_of_uint Nat.of_uint_acc]. rewrite Nat.tail_mul_spec.
    rewrite <- (IH _ true) by auto. cbn. do 2 f_equal. lia.
  - cbn [NilEmpty.string_of_uint Nat.of_uint_acc]. rewrite Nat.tail_mul_spec.
    rewrite <- (IH _ true) by auto. cbn. do 2 f_equal. lia.
Qed.

Lemma digit_cases (c : N) :
  48 <= c <= 57 ->
  c = 48 \/ c = 49 \/ c = 50 \/ c = 51 \/ c = 52 \/ c = 53 \/ c = 54 \/ c = 55 \/
  c = 56 \/ c = 57.
Proof. lia. Qed.

Lemma digit_plain (c : N) :
  48 <= c <= 57 ->
  is_space c = false /\ c_isspace c = false /\ to_ascii unicode_decimal c = c /\
  (c =? 43) = false /\ (c =? 45) = false.
Proof.
  intros H. apply digit_cases in H.
  repeat (destruct H as [->|H]; [repeat split; reflexivity|]). subst. repeat split; reflexivity.
Qed.

Lemma map_to_ascii_digits (s : str) :
  Forall (fun c => 48 <= c <= 57) s -> map (to_ascii unicode_decimal) s = s.
Proof.
  induction 1 as [|c s Hc _ IH]; [reflexivity|]. cbn [map]. rewrite IH.
  destruct (digit_plain c Hc) as (_ & _ & -> & _). reflexivity.
Qed.

(** [int] reads back what [str] prints for a length. *)
Lemma py_int_str_of_len (n : nat) :
  py_int unicode_decimal (str_of_len n) = Some (Z.of_nat n).
Proof.
  unfold py_int. rewrite map_to_ascii_digits by apply str_of_len_digits.
  pose proof (str_of_len_digits n) as Hd. pose proof (str_of_len_not_empty n) as Hne.
  assert (Hval : digits_value 0 false (str_of_len n) = Some (Z.of_nat n)).
  { unfold str_of_len. change 0%Z with (Z.of_nat 0).
    rewrite digits_value_uint by (left; apply to_uint_not_nil).
    change (Nat.of_uint_acc (Nat.to_uint n) 0) with (Nat.of_uint (Nat.to_uint n)).
    rewrite DecimalNat.Unsigned.of_to. reflexivity. }
  destruct (str_of_len n) as [|c rest]; [congruence|].
  apply Forall_cons in Hd as [Hc _].
  destruct (digit_plain c Hc) as (_ & Hsp & _ & H43 & H45).
  cbn [skip_space]. rewrite Hsp, H43, H45. exact Hval.
Qed.

Lemma lstrip_head (c : N) (s : str) : is_space c = false -> lstrip (c :: s) = c :: s.
Proof. intros H. cbn. rewrite H. reflexivity. Qed.

(** [strip] of a blank followed by digits leaves the digits. *)
Lemma strip_blank_digits (s : str) :
  s <> [] -> Forall (fun c => 48 <= c <= 57) s -> strip (32 :: s) = s.
Proof.
  intros Hne Hd. unfold strip, rstrip.
  assert (Hl : lstrip (32 :: s) = s).
  { cbn [lstrip]. change (is_space 32) with true. cbn iota.
    destruct s as [|c s]; [congruence|]. apply Forall_cons in Hd as [Hc _].
    apply lstrip_head. apply (digit_plain c Hc). }
  rewrite Hl. destruct (rev s) as [|c r] eqn:Er.
  - apply (f_equal (@rev N)) in Er. rewrite rev_involutive in Er. cbn in Er. congruence.
  - assert (Hc : 48 <= c <= 57).
    { rewrite Forall_forall in Hd. apply Hd. apply list_elem_of_In, in_rev.
      rewrite Er. left. reflexivity. }
    rewrite lstrip_head by apply (digit_plain c Hc).
    rewrite <- Er. apply rev_involutive.
Qed.

End IntFacts.

Lemma slice_index_in_range (len : nat) (i : Z) :
  (0 <= i <= Z.of_nat len)%Z -> slice_index len i = Z.to_nat i.
Proof.
  intros H. unfold slice_index. destruct (i <? 0)%Z eqn:E; [apply Z.ltb_lt in E; lia|].
  f_equal. lia.
Qed.

(** The slices that cut a body out of a buffer. *)
Lemma slice_middle (pre body rest : list N) :
  slice (pre ++ body ++ rest) (Z.of_nat (length pre))
    (Z.of_nat (length pre) + Z.of_nat (length body)) = take (length body) (body ++ rest) /\
  slice_from (pre ++ body ++ rest)
    (Z.of_nat (length pre) + Z.of_nat (length body)) = drop (length body) (body ++ rest).
Proof.
  unfold slice, slice_from.
  rewrite !slice_index_in_range by (rewrite !length_app; lia).
  rewrite !Z2Nat.inj_add, !Nat2Z.id by lia. split.
  - rewrite drop_app_length. f_equal. lia.
  - rewrite <- drop_drop, drop_app_length. reflexivity.
Qed.


End TextFacts.

(** ** The frame decoder *)

Section DecoderFacts.
Import Py Json Wire PyText Dap Decoder.
Variable loads : str -> option json.
Variable unicode_decimal : N -> option N.

Lemma digits_not (x : N) (s : str) :
  ~ (48 <= x <= 57) -> Forall (fun c => 48 <= c <= 57) s -> Forall (fun c => c <> x) s.
Proof. intros Hx H. eapply Forall_impl; [exact H|]. intros c Hc ->. exact (Hx Hc). Qed.

Lemma header_no_cr (n : nat) :
  Forall (fun c => c <> 13) (lit "Content-Length: " ++ str_of_len n).
Proof.
  apply Forall_app. split.
  - apply (bool_decide_unpack _). vm_compute. exact I.
  - apply digits_not; [lia | apply str_of_len_digits].
Qed.

Lemma header_ascii (n : nat) : is_ascii (lit "Content-Length: " ++ str_of_len n).
Proof.
  apply is_ascii_app; [apply is_asciib_spec; reflexivity | apply str_of_len_ascii].
Qed.

(** The length the loop reads in the header that [envelope] writes. *)
Lemma content_length_of_header (n : nat) :
  content_length_of unicode_decimal (split [13; 10] (lit "Content-Length: " ++ str_of_len n)) =
    inr (Z.of_nat n).
Proof.
  unfold split. rewrite split_go_absent by apply header_no_cr.
  cbn [app content_length_of].
  change (lit "Content-Length: " ++ str_of_len n)
    with (lit "Content-Length:" ++ 32 :: str_of_len n) at 1.
  rewrite starts_with_app.
  change (lit "Content-Length: " ++ str_of_len n)
    with (lit "Content-Length" ++ 58 :: 32 :: str_of_len n).
  change (lit ":") with [58]. unfold split. rewrite split_go_once.
  - cbn [app lookup list_lookup].
    rewrite (strip_blank_digits unicode_decimal)
      by (apply str_of_len_not_empty || apply str_of_len_digits).
    rewrite py_int_str_of_len. reflexivity.
  - apply (bool_decide_unpack _). vm_compute. exact I.
  - constructor; [discriminate|]. apply digits_not; [lia | apply str_of_len_digits].
Qed.

(** One turn of the loop on a buffer that starts with a whole message. *)
Lemma cut_frames_message (fuel : nat) (body rest : list N) (content : str) :
  decode_utf8 body = Some content ->
  cut_frames loads unicode_decimal (S fuel) (envelope body ++ rest) =
    match cut_frames loads unicode_decimal fuel rest with
    | Some (frames, rest') => Some (frame_of_content loads content :: frames, rest')
    | None => None
    end.
Proof.
  intros Hbody. unfold envelope.
  set (header := lit "Content-Length: " ++ str_of_len (length body)).
  replace ((lit "Content-Length: " ++ str_of_len (length body) ++ blank_line ++ body) ++ rest)
    with (header ++ blank_line ++ body ++ rest)
    by (unfold header; rewrite <- !app_assoc; reflexivity).
  cbn [cut_frames]. unfold blank_line at 1.
  rewrite find_blank_line_after by apply header_no_cr.
  rewrite take_app_length, decode_utf8_ascii by apply header_ascii.
  unfold header at 1. rewrite content_length_of_header.
  assert (Hlen : (Z.of_nat (length header) + 4 + Z.of_nat (length body) <=?
                  Z.of_nat (length (header ++ blank_line ++ body ++ rest)))%Z = true).
  { apply Z.leb_le. rewrite !length_app. cbn [length blank_line]. lia. }
  rewrite Hlen.
  destruct (slice_middle (header ++ blank_line) body rest) as [Hs Hf].
  rewrite length_app in Hs, Hf. cbn [length blank_line] in Hs, Hf.
  rewrite <- !app_assoc in Hs, Hf.
  replace (Z.of_nat (length header + 4)) with (Z.of_nat (length header) + 4)%Z in Hs, Hf by lia.
  rewrite Hs, Hf, take_app_length, drop_app_length, Hbody. reflexivity.
Qed.

(** X12: a buffer that starts with a whole framed message is cut into the
    frame of that message, whatever follows it: the body is exactly the
    declared number of bytes after the blank line, and the loop goes on
    with the bytes after the body. *)
Theorem framed_message_is_cut (fuel : nat) (body rest : list N) (content : str)
    (Hbody : decode_utf8 body = Some content) :
  cut_frames loads unicode_decimal (S fuel) (envelope body ++ rest) =
    match cut_frames loads unicode_decimal fuel rest with
    | Some (frames, rest') => Some (frame_of_content loads content :: frames, rest')
    | None => None
    end.
Proof. exact (cut_frames_message fuel body rest content Hbody). Qed.

(** A buffer that holds only the beginning of a message is left as it
    is, and no frame is cut. *)
Lemma cut_frames_partial (fuel : nat) (body pre post : list N) :
  pre ++ post = envelope body -> post <> [] ->
  cut_frames loads unicode_decimal (S fuel) pre = Some ([], pre).
Proof.
  intros Henv Hpost.
  pose (header := lit "Content-Length: " ++ str_of_len (length body)).
  assert (Hsplit : pre ++ post = header ++ blank_line ++ body)
    by (rewrite Henv; unfold envelope, header; rewrite <- !app_assoc; reflexivity).
  clear Henv.
  assert (Hshort : (length pre < length header + 4 + length body)%nat).
  { apply (f_equal (@length N)) in Hsplit. rewrite !length_app in Hsplit.
    cbn [length blank_line] in Hsplit. destruct post; [congruence|]. cbn [length] in Hsplit. lia. }
  assert (Hpre : pre = take (length pre) header
                       ++ take (length pre - length header) blank_line
                       ++ take (length pre - length header - 4) body).
  { rewrite <- (take_app_length pre post) at 1. rewrite Hsplit, !take_app. reflexivity. }
  destruct (decide (length pre < length header + 4)%nat) as [Hhead|Hbody].
  - replace (length pre - length header - 4)%nat with 0%nat in Hpre by lia.
    rewrite take_0, app_nil_r in Hpre.
    assert (Hfind : find blank_line pre = None).
    { rewrite Hpre. apply find_blank_line_before; [|lia].
      apply Forall_take, header_no_cr. }
    destruct pre; cbn [cut_frames]; rewrite Hfind; reflexivity.
  - rewrite (take_ge header), (take_ge blank_line) in Hpre by (cbn [length blank_line]; lia).
    set (j := (length pre - length header - 4)%nat) in *.
    assert (Hj : (j < length body)%nat) by (unfold j; lia).
    rewrite Hpre. cbn [cut_frames]. unfold blank_line at 1.
    rewrite find_blank_line_after by apply header_no_cr.
    rewrite take_app_length, decode_utf8_ascii by apply header_ascii.
    unfold header at 1. rewrite content_length_of_header.
    assert (Hlen : (Z.of_nat (length header) + 4 + Z.of_nat (length body) <=?
                    Z.of_nat (length (header ++ blank_line ++ take j body)))%Z = false).
    { apply Z.leb_gt. rewrite !length_app, length_take. cbn [length blank_line]. lia. }
    rewrite Hlen. reflexivity.
Qed.

(** X13: the frames cut do not depend on how the bytes of a message are
    distributed over the reads: fed in any sequence of non-empty chunks, the
    bytes of one framed message give exactly the frame of that message, and
    the buffer is empty afterwards. *)
Theorem decoding_ignores_chunking (fuel : nat) (chunks : list (list N))
    (body : list N) (content : str)
    (Hbody : decode_utf8 body = Some content)
    (Hnonempty : Forall (fun c => c <> []) chunks)
    (Hbytes : concat chunks = envelope body) :
  feed loads unicode_decimal (S fuel) chunks [] =
    Some ([frame_of_content loads content], []).
Proof.
  assert (Hgen : forall buffer,
            chunks <> [] -> buffer ++ concat chunks = envelope body ->
            feed loads unicode_decimal (S fuel) chunks buffer =
              Some ([frame_of_content loads content], [])).
  { clear Hbytes.
    induction Hnonempty as [|data later Hdata Hlater IH]; intros buffer Hne Henv;
      [congruence|].
    cbn [concat] in Henv. rewrite app_assoc in Henv.
    destruct data as [|b data]; [congruence|]. cbn [feed].
    destruct later as [|next later].
    - cbn [concat] in Henv. rewrite app_nil_r in Henv. rewrite Henv.
      rewrite <- (app_nil_r (envelope body)).
      rewrite (cut_frames_message fuel body [] content Hbody).
      replace (cut_frames loads unicode_decimal fuel []) with (Some (@nil Frame, @nil N))
        by (destruct fuel; reflexivity).
      unfold frame_of_content. destruct (loads content); reflexivity.
    - assert (Hpost : concat (next :: later) <> []).
      { apply Forall_cons in Hlater as [Hnext _]. cbn [concat].
        destruct next; [congruence|discriminate]. }
      rewrite (cut_frames_partial fuel body _ _ Henv Hpost). cbn [raised existsb].
      rewrite (IH (buffer ++ b :: data)) by (congruence || exact Henv). reflexivity. }
  destruct chunks as [|c chunks'].
  - cbn [concat] in Hbytes. unfold envelope in Hbytes. symmetry in Hbytes.
    apply app_eq_nil in Hbytes as [Hlit _]. vm_compute in Hlit. discriminate.
  - apply Hgen; [congruence | exact Hbytes].
Qed.

(** X14: a header whose declared length is negative and cancels the size
    of the header and its blank line makes the loop turn without end: the
    empty content is cut, which [json.loads] refuses, the error is caught,
    the buffer is left as it was, and the same header is found again. *)
Theorem cancelling_length_never_ends (fuel : nat) (buffer : list N) (header_end : nat)
    (header : str) (content_length : Z)
    (Hloads : loads [] = None)
    (Hfind : find blank_line buffer = Some header_end)
    (Hheader : decode_utf8 (take header_end buffer) = Some header)
    (Hlength : content_length_of unicode_decimal (split [13; 10] header) =
                 inr content_length)
    (Hcancel : (Z.of_nat header_end + 4 + content_length = 0)%Z) :
  cut_frames loads unicode_decimal fuel buffer = None /\
  slice buffer (Z.of_nat header_end + 4) (Z.of_nat header_end + 4 + content_length) = [] /\
  frame_of_content loads [] = FrameBadJson json_error /\
  slice_from buffer (Z.of_nat header_end + 4 + content_length) = buffer.
Proof.
  assert (Hslice : slice buffer (Z.of_nat header_end + 4)
                     (Z.of_nat header_end + 4 + content_length) = []).
  { rewrite Hcancel. unfold slice. replace (slice_index (length buffer) 0) with 0%nat
      by (unfold slice_index; cbn; lia). reflexivity. }
  assert (Hfrom : slice_from buffer (Z.of_nat header_end + 4 + content_length) = buffer).
  { rewrite Hcancel. unfold slice_from. replace (slice_index (length buffer) 0) with 0%nat
      by (unfold slice_index; cbn; lia). reflexivity. }
  split; [|split; [assumption|split; [unfold frame_of_content; rewrite Hloads; reflexivity
                                     |assumption]]].
  induction fuel as [|fuel IH]; destruct buffer as [|b0 buffer'] eqn:Eb;
    cbn [cut_frames]; rewrite Hfind; try reflexivity.
  - rewrite Hheader, Hlength.
    replace (Z.of_nat header_end + 4 + content_length <=? Z.of_nat (length (@nil N)))%Z
      with true by (symmetry; apply Z.leb_le; cbn [length]; lia).
    rewrite Hslice, Hfrom. cbn [decode_utf8]. rewrite IH. reflexivity.
  - rewrite Hheader, Hlength.
    replace (Z.of_nat header_end + 4 + content_length <=? Z.of_nat (length (b0 :: buffer')))%Z
      with true by (symmetry; apply Z.leb_le; lia).
    rewrite Hslice, Hfrom. cbn [decode_utf8]. rewrite IH. reflexivity.
Qed.

End DecoderFacts.

Section DecoderExamples.
Import Py Json Wire Dap PyText Decoder.

Lemma framed_message_is_cut_witness :
  cut_frames DecoderScenario.loads_empty_object DecoderScenario.no_unicode_decimal 2
    (envelope DecoderScenario.empty_object ++ envelope DecoderScenario.empty_object) =
    match cut_frames DecoderScenario.loads_empty_object
            DecoderScenario.no_unicode_decimal 1 (envelope DecoderScenario.empty_object) with
    | Some (frames, rest') =>
        Some (frame_of_content DecoderScenario.loads_empty_object (lit "{}") :: frames, rest')
    | None => None
    end /\
  cut_frames DecoderScenario.loads_empty_object DecoderScenario.no_unicode_decimal 2
    (envelope DecoderScenario.empty_object ++ envelope DecoderScenario.empty_object) =
    Some ([FrameJson (JDict []); FrameJson (JDict [])], []).
Proof.
  split; [|vm_compute; reflexivity].
  apply (framed_message_is_cut DecoderScenario.loads_empty_object
           DecoderScenario.no_unicode_decimal 1 DecoderScenario.empty_object
           (envelope DecoderScenario.empty_object) (lit "{}")).
  vm_compute. reflexivity.
Defined.

Lemma decoding_ignores_chunking_witness :
  feed DecoderScenario.loads_empty_object DecoderScenario.no_unicode_decimal 1
    [lit "Content-Len"; lit "gth: 2" ++ [13; 10; 13]; [10; 123]; [125]] [] =
    Some ([FrameJson (JDict [])], []).
Proof.
  apply (decoding_ignores_chunking DecoderScenario.loads_empty_object
           DecoderScenario.no_unicode_decimal 0
           [lit "Content-Len"; lit "gth: 2" ++ [13; 10; 13]; [10; 123]; [125]]
           DecoderScenario.empty_object (lit "{}")).
  - vm_compute. reflexivity.
  - repeat constructor; discriminate.
  - vm_compute. reflexivity.
Defined.

Lemma cancelling_length_never_ends_witness :
  cut_frames DecoderScenario.loads_empty_object DecoderScenario.no_unicode_decimal 1000
    DecoderScenario.cancelling_header = None.
Proof.
  refine (proj1 (cancelling_length_never_ends DecoderScenario.loads_empty_object
           DecoderScenario.no_unicode_decimal 1000 DecoderScenario.cancelling_header 19
           (lit "Content-Length: -23") (-23) _ _ _ _ _)); vm_compute; reflexivity.
Defined.

End DecoderExamples.

(** ** The reader of [DebugpyClient] *)

Section ReaderFacts.
Import Py Json Wire PyText Reader.

Lemma next_chunk_one (chunks : list (list N)) (b : N) (bs : list N) :
  concat chunks = b :: bs ->
  exists later, next_chunk 1 chunks = Some ([b], later) /\ concat later = bs.
Proof.
  revert bs. induction chunks as [|c chunks IH]; intros bs; cbn [concat]; [discriminate|].
  destruct c as [|x c]; cbn [app next_chunk]; [apply IH|].
  intros [= -> <-]. change (take 1 (b :: c)) with [b]. change (drop 1 (b :: c)) with c.
  destruct (decide (c = [])) as [->|]; eexists; split; reflexivity.
Qed.

Lemma next_chunk_none (n : nat) (chunks : list (list N)) :
  concat chunks = [] -> next_chunk n chunks = None.
Proof.
  induction chunks as [|c chunks IH]; cbn [concat]; [reflexivity|].
  intros H. apply app_eq_nil in H as [-> H]. cbn [next_chunk]. exact (IH H).
Qed.

Lemma decode_one (c : N) : c < 128 -> decode_utf8 [c] = Some [c].
Proof. intros H. apply decode_utf8_ascii. repeat constructor. exact H. Qed.

Lemma drop_bytes_step (k : nat) (chunks later : list (list N)) (data : list N) :
  next_chunk 1 chunks = Some (data, later) ->
  drop_bytes (S k) chunks = drop_bytes k later.
Proof. intros H. cbn [drop_bytes]. rewrite H. reflexivity. Qed.

(** A line that has arrived whole is returned without its carriage
    returns, and the bytes behind its line feed are left. *)
Lemma read_line_returns (text rest : list N) :
  Forall (fun c => c < 128 /\ c <> 10) text ->
  forall (fuel : nat) (inbox : Inbox) (line : str),
    (length text < fuel)%nat ->
    concat (arrived inbox) = text ++ 10 :: rest ->
    _read_line fuel inbox line =
      Returns (line ++ filter (fun c => c <> 13) text)
        {| arrived := drop_bytes (S (length text)) (arrived inbox); peer := peer inbox |} /\
    concat (drop_bytes (S (length text)) (arrived inbox)) = rest.
Proof.
  induction 1 as [|c text [Hc Hnl] _ IH]; intros fuel inbox line Hfuel Hbytes.
  - destruct fuel as [|fuel]; [cbn in Hfuel; lia|].
    destruct (next_chunk_one _ _ _ Hbytes) as (later & Hnext & Hlater).
    cbn [length]. rewrite (drop_bytes_step _ _ _ _ Hnext). cbn [drop_bytes].
    split; [|exact Hlater].
    cbn [_read_line]. unfold recv. rewrite Hnext.
    rewrite (decode_one 10) by lia. rewrite decide_True by reflexivity.
    rewrite filter_nil, app_nil_r. reflexivity.
  - destruct fuel as [|fuel]; [cbn in Hfuel; lia|].
    destruct (next_chunk_one _ _ _ Hbytes) as (later & Hnext & Hlater).
    cbn [length]. rewrite (drop_bytes_step _ _ _ _ Hnext).
    cbn [length] in Hfuel.
    destruct (IH fuel {| arrived := later; peer := peer inbox |} line ltac:(lia) Hlater)
      as [IH1 IH2].
    destruct (IH fuel {| arrived := later; peer := peer inbox |} (line ++ [c]) ltac:(lia) Hlater)
      as [IH3 _].
    cbn [arrived peer] in IH1, IH2, IH3.
    split; [|exact IH2].
    cbn [_read_line]. unfold recv at 1. rewrite Hnext. rewrite (decode_one c Hc).
    rewrite decide_False by congruence.
    destruct (decide ([c] = [13])) as [E|E].
    + injection E as ->. rewrite filter_cons_False by (intros Hn; exact (Hn eq_refl)).
      exact IH1.
    + rewrite filter_cons_True by congruence. rewrite IH3, <- app_assoc. reflexivity.
Qed.

(** A line whose line feed has not been reached keeps the loop turning. *)
Lemma read_line_prefix (text rest : list N) :
  Forall (fun c => c < 128 /\ c <> 10) text ->
  forall (fuel : nat) (inbox : Inbox) (line : str),
    (fuel <= length text)%nat ->
    concat (arrived inbox) = text ++ rest ->
    _read_line fuel inbox line = Unfinished.
Proof.
  induction 1 as [|c text [Hc Hnl] _ IH]; intros fuel inbox line Hfuel Hbytes.
  - destruct fuel as [|fuel]; [reflexivity|cbn in Hfuel; lia].
  - destruct fuel as [|fuel]; [reflexivity|].
    destruct (next_chunk_one _ _ _ Hbytes) as (later & Hnext & Hlater).
    cbn [length] in Hfuel.
    cbn [_read_line]. unfold recv at 1. rewrite Hnext, (decode_one c Hc).
    rewrite decide_False by congruence.
    destruct (decide ([c] = [13])); apply IH; cbn [arrived]; first [lia|exact Hlater].
Qed.

(** Once the peer has closed and no line feed is left to read, the loop
    of [_read_line] receives the empty bytes again and again. *)
Lemma read_line_closed (text : list N) :
  Forall (fun c => c < 128 /\ c <> 10) text ->
  forall (fuel : nat) (inbox : Inbox) (line : str),
    peer inbox = PeerClosed ->
    concat (arrived inbox) = text ->
    _read_line fuel inbox line = Unfinished.
Proof.
  induction 1 as [|c text [Hc Hnl] _ IH]; intros fuel.
  - induction fuel as [|fuel IHf]; intros inbox line Hpeer Hbytes; [reflexivity|].
    cbn [_read_line]. unfold recv. rewrite (next_chunk_none _ _ Hbytes), Hpeer.
    cbn [decode_utf8]. rewrite decide_False by discriminate.
    rewrite decide_False by discriminate. apply IHf; reflexivity.
  - intros inbox line Hpeer Hbytes. destruct fuel as [|fuel]; [reflexivity|].
    destruct (next_chunk_one _ _ _ Hbytes) as (later & Hnext & Hlater).
    cbn [_read_line]. unfold recv at 1. rewrite Hnext, (decode_one c Hc).
    rewrite decide_False by congruence.
    destruct (decide ([c] = [13])); apply IH; cbn [arrived peer]; assumption.
Qed.

Lemma drop_bytes_nil (k : nat) : drop_bytes k [] = [].
Proof. destruct k; reflexivity. Qed.

Lemma drop_bytes_add (a b : nat) (chunks : list (list N)) :
  drop_bytes (a + b) chunks = drop_bytes b (drop_bytes a chunks).
Proof.
  revert chunks. induction a as [|a IH]; intros chunks; [reflexivity|].
  cbn [Nat.add drop_bytes]. destruct (next_chunk 1 chunks) as [[data later]|];
    [apply IH|symmetry; apply drop_bytes_nil].
Qed.

Lemma drop_bytes_partial (c avail : list N) (later : list (list N)) :
  avail <> [] -> drop_bytes (length c) ((c ++ avail) :: later) = avail :: later.
Proof.
  intros Hne. induction c as [|x c IH]; [reflexivity|].
  cbn [length app drop_bytes next_chunk]. change (drop 1 (x :: c ++ avail)) with (c ++ avail).
  rewrite decide_False; [exact IH|].
  intros H. apply app_eq_nil in H as [_ H]. contradiction.
Qed.

Lemma drop_bytes_chunk (c : list N) (later : list (list N)) :
  c <> [] -> drop_bytes (length c) (c :: later) = later.
Proof.
  induction c as [|x c IH]; intros Hne; [contradiction|].
  cbn [length drop_bytes next_chunk]. change (drop 1 (x :: c)) with c.
  destruct (decide (c = [])) as [->|Hn]; [reflexivity|exact (IH Hn)].
Qed.

Lemma drop_bytes_chunks (hs rest : list (list N)) :
  Forall (fun c => c <> []) hs -> drop_bytes (length (concat hs)) (hs ++ rest) = rest.
Proof.
  induction 1 as [|c hs Hc _ IH]; [reflexivity|].
  cbn [concat app]. rewrite length_app, drop_bytes_add, (drop_bytes_chunk c _ Hc).
  exact IH.
Qed.

Lemma filter_no_cr (s : list N) :
  Forall (fun c => c <> 13) s -> filter (fun c => c <> 13) s = s.
Proof.
  induction 1 as [|c s Hc _ IH]; [reflexivity|].
  rewrite filter_cons_True by exact Hc. rewrite IH. reflexivity.
Qed.

(** While the peer is there, waiting for a line feed that does not come
    ends in [socket.timeout]. *)
Lemma read_line_open (text : list N) :
  Forall (fun c => c < 128 /\ c <> 10) text ->
  forall (fuel : nat) (inbox : Inbox) (line : str),
    peer inbox = PeerOpen ->
    concat (arrived inbox) = text ->
    (length text < fuel)%nat ->
    exists inbox', _read_line fuel inbox line = Raises inbox'.
Proof.
  induction 1 as [|c text [Hc Hnl] _ IH]; intros fuel inbox line Hpeer Hbytes Hfuel;
    (destruct fuel as [|fuel]; [cbn in Hfuel; lia|]).
  - cbn [_read_line]. unfold recv. rewrite (next_chunk_none _ _ Hbytes), Hpeer.
    eexists. reflexivity.
  - destruct (next_chunk_one _ _ _ Hbytes) as (later & Hnext & Hlater).
    cbn [length] in Hfuel.
    cbn [_read_line]. unfold recv at 1. rewrite Hnext, (decode_one c Hc).
    rewrite decide_False by congruence.
    destruct (decide ([c] = [13])); apply IH; cbn [arrived peer]; first [assumption|lia].
Qed.

(** X15: [_read_line] returns the text before the first line feed with
    every carriage return taken out, wherever in the line it stands, and
    leaves the bytes behind the line feed to the next read. *)
Theorem line_is_read_without_carriage_returns (text rest : list N) (fuel : nat)
    (inbox : Inbox)
    (Htext : Forall (fun c => c < 128 /\ c <> 10) text)
    (Hfuel : (length text < fuel)%nat)
    (Hbytes : concat (arrived inbox) = text ++ 10 :: rest) :
  exists inbox',
    _read_line fuel inbox [] = Returns (filter (fun c => c <> 13) text) inbox' /\
    concat (arrived inbox') = rest /\ peer inbox' = peer inbox.
Proof.
  destruct (read_line_returns text rest Htext fuel inbox [] Hfuel Hbytes) as [Hr Hrest].
  eexists. split; [exact Hr|]. split; [exact Hrest|reflexivity].
Qed.

Section ReadResponse.
Variable loads : str -> option json.
Variable unicode_decimal : N -> option N.

Lemma read_headers_closed (lines : list (list N)) (text : list N) :
  Forall (fun l => Forall (fun c => c < 128 /\ c <> 10) l /\
                   filter (fun c => c <> 13) l <> []) lines ->
  Forall (fun c => c < 128 /\ c <> 10) text ->
  forall (fuel : nat) (inbox : Inbox) (headers : gmap str str),
    peer inbox = PeerClosed ->
    concat (arrived inbox) = concat (map (fun l => l ++ [10]) lines) ++ text ->
    read_headers fuel inbox headers = Unfinished.
Proof.
  intros Hlines Htext.
  induction Hlines as [|l lines [Hl Hne] _ IH]; intros fuel inbox headers Hpeer Hbytes.
  - destruct fuel as [|fuel]; [reflexivity|]. cbn [read_headers].
    rewrite (read_line_closed text Htext fuel inbox [] Hpeer Hbytes). reflexivity.
  - revert inbox headers Hpeer Hbytes.
    induction fuel as [|fuel IHf]; intros inbox headers Hpeer Hbytes; [reflexivity|].
    cbn [map concat] in Hbytes. rewrite <- !app_assoc in Hbytes. cbn [app] in Hbytes.
    cbn [read_headers].
    destruct (le_lt_dec fuel (length l)) as [Hshort|Hlong].
    + rewrite (read_line_prefix l _ Hl fuel inbox [] Hshort Hbytes). reflexivity.
    + destruct (read_line_returns l _ Hl fuel inbox [] Hlong Hbytes) as [-> Hrest].
      cbn [app]. rewrite decide_False by exact Hne.
      destruct (split_once [58] [] (filter (fun c => c <> 13) l)) as [[key value]|];
        apply IH; cbn [arrived peer]; assumption.
Qed.

(** The same for [_read_response], whose [except] catches exceptions
    only. *)
Lemma read_response_closed (lines : list (list N)) (text : list N)
    (fuel : nat) (inbox : Inbox) :
  Forall (fun l => Forall (fun c => c < 128 /\ c <> 10) l /\
                   filter (fun c => c <> 13) l <> []) lines ->
  Forall (fun c => c < 128 /\ c <> 10) text ->
  peer inbox = PeerClosed ->
  concat (arrived inbox) = concat (map (fun l => l ++ [10]) lines) ++ text ->
  _read_response loads unicode_decimal fuel inbox = Unfinished.
Proof.
  intros Hlines Htext Hpeer Hbytes. unfold _read_response.
  rewrite (read_headers_closed lines text Hlines Htext fuel inbox _ Hpeer Hbytes).
  reflexivity.
Qed.

Lemma read_headers_open (lines : list (list N)) (text : list N) :
  Forall (fun l => Forall (fun c => c < 128 /\ c <> 10) l /\
                   filter (fun c => c <> 13) l <> []) lines ->
  Forall (fun c => c < 128 /\ c <> 10) text ->
  forall (fuel : nat) (inbox : Inbox) (headers : gmap str str),
    peer inbox = PeerOpen ->
    concat (arrived inbox) = concat (map (fun l => l ++ [10]) lines) ++ text ->
    (length (concat (arrived inbox)) + 1 < fuel)%nat ->
    exists inbox', read_headers fuel inbox headers = Raises inbox'.
Proof.
  intros Hlines Htext.
  induction Hlines as [|l lines [Hl Hne] _ IH]; intros fuel inbox headers Hpeer Hbytes Hfuel;
    (destruct fuel as [|fuel]; [lia|]); rewrite Hbytes in Hfuel.
  - cbn [map concat app] in Hfuel.
    destruct (read_line_open text Htext fuel inbox [] Hpeer Hbytes ltac:(lia)) as [inbox' Hr].
    cbn [read_headers]. rewrite Hr. eexists. reflexivity.
  - cbn [map concat] in Hbytes, Hfuel. rewrite <- !app_assoc in Hbytes. cbn [app] in Hbytes.
    rewrite !length_app in Hfuel. cbn [length] in Hfuel.
    destruct (read_line_returns l _ Hl fuel inbox [] ltac:(lia) Hbytes) as [Hr Hrest].
    cbn [read_headers]. rewrite Hr. cbn [app]. rewrite decide_False by exact Hne.
    destruct (split_once [58] [] (filter (fun c => c <> 13) l)) as [[key value]|];
      apply IH; cbn [arrived peer]; try assumption;
      rewrite Hrest, length_app; lia.
Qed.

(** What [_read_response] makes of a header that announces [n] bytes:
    the bytes of one [recv(n)], which are those of the piece at hand. *)
Lemma read_response_header (fuel n : nat) (hs : list (list N)) (tail avail : list N)
    (later : list (list N)) (p : peer_state) :
  Forall (fun c => c <> []) hs -> avail <> [] -> (0 < n)%nat ->
  concat hs ++ tail = header_of n ->
  (length (header_of n) < fuel)%nat ->
  _read_response loads unicode_decimal fuel
      {| arrived := hs ++ (tail ++ avail) :: later; peer := p |} =
    Returns (match decode_utf8 (take n avail) with
             | Some content => loaded loads content
             | None => None
             end)
      {| arrived := (if decide (drop n avail = []) then later else drop n avail :: later);
         peer := p |}.
Proof.
  intros Hhs Havail Hn Hheader Hfuel.
  set (inbox0 := {| arrived := hs ++ (tail ++ avail) :: later; peer := p |}).
  pose (digits := str_of_len n).
  pose proof (str_of_len_digits n) as Hdigits. fold digits in Hdigits.
  pose proof (str_of_len_not_empty n) as Hne. fold digits in Hne.
  pose proof (py_int_str_of_len unicode_decimal n) as Hint. fold digits in Hint.
  assert (Hlen : length (header_of n) = (length digits + 20)%nat).
  { unfold header_of. fold digits. rewrite !length_app. cbn [length]. 
    change (length (lit "Content-Length: ")) with 16%nat. lia. }
  assert (Hbytes : concat (arrived inbox0) =
                     (lit "Content-Length: " ++ digits ++ [13]) ++
                       10 :: ([13] ++ 10 :: (avail ++ concat later))).
  { cbn [arrived inbox0]. rewrite concat_app. cbn [concat].
    rewrite <- (app_assoc tail), app_assoc, Hheader. unfold header_of. fold digits.
    rewrite <- !app_assoc. reflexivity. }
  assert (Hline : Forall (fun c => c < 128 /\ c <> 10)
                    (lit "Content-Length: " ++ digits ++ [13])).
  { apply Forall_app. split; [apply (bool_decide_unpack _); vm_compute; exact I|].
    apply Forall_app. split; [|repeat constructor; lia].
    eapply Forall_impl; [exact Hdigits|]. intros c Hc. cbn beta in Hc |- *. lia. }
  rewrite Hlen in Hfuel.
  destruct fuel as [|f1]; [lia|]. destruct f1 as [|f2]; [lia|].
  destruct (read_line_returns _ ([13] ++ 10 :: (avail ++ concat later)) Hline
              (S f2) inbox0 []) as [Hr1 Hrest1];
    [rewrite !length_app; cbn [length];
     change (length (lit "Content-Length: ")) with 16%nat; lia|exact Hbytes|].
  set (inbox1 := {| arrived := drop_bytes (S (length (lit "Content-Length: " ++ digits ++ [13])))
                                 (arrived inbox0); peer := peer inbox0 |}) in *.
  destruct (read_line_returns [13] (avail ++ concat later)
              ltac:(repeat constructor; lia) f2 inbox1 []) as [Hr2 _];
    [cbn [length]; lia|exact Hrest1|].
  unfold _read_response. cbn [read_headers]. rewrite Hr1. cbn [app].
  rewrite app_assoc, filter_app, filter_cons_False, filter_nil, app_nil_r
    by (intros Hx; exact (Hx eq_refl)).
  rewrite filter_no_cr.
  2:{ apply Forall_app. split; [apply (bool_decide_unpack _); vm_compute; exact I|].
      eapply Forall_impl; [exact Hdigits|]. intros c Hc. cbn beta in Hc |- *. lia. }
  rewrite decide_False by (intros H; apply app_eq_nil in H as [H _]; discriminate).
  assert (Hsplit : split_once [58] [] (lit "Content-Length: " ++ digits) =
                     Some (lit "Content-Length", 32 :: digits)).
  { generalize digits. intros d. vm_compute. reflexivity. }
  rewrite Hsplit.
  change (strip (lit "Content-Length")) with (lit "Content-Length").
  rewrite (strip_blank_digits unicode_decimal digits Hne Hdigits).
  rewrite Hr2. cbn [app]. rewrite filter_cons_False, filter_nil
    by (intros Hx; exact (Hx eq_refl)).
  rewrite decide_True by reflexivity.
  unfold declared_length. rewrite lookup_insert_eq, Hint.
  replace (0 <? Z.of_nat n)%Z with true by (symmetry; apply Z.ltb_lt; lia).
  rewrite Nat2Z.id.
  assert (Hleft : drop_bytes (S (length [13])) (arrived inbox1) = avail :: later).
  { cbn [arrived inbox1 inbox0 length].
    rewrite <- (drop_bytes_add _ 2).
    replace (Nat.add (S (length (lit "Content-Length: " ++ digits ++ [13]))) 2)
      with (length (concat hs) + length tail)%nat.
    2:{ rewrite <- length_app, Hheader, Hlen. rewrite !length_app. cbn [length].
        change (length (lit "Content-Length: ")) with 16%nat. lia. }
    rewrite drop_bytes_add, (drop_bytes_chunks hs _ Hhs).
    apply drop_bytes_partial. exact Havail. }
  rewrite Hleft. unfold recv. cbn [arrived peer inbox1 inbox0].
  destruct avail as [|a avail']; [contradiction|]. cbn [next_chunk].
  destruct (decode_utf8 (take n (a :: avail'))); reflexivity.
Qed.

(** X16: when the peer has closed the connection before the blank line
    that ends the header, [_read_response] does not end: each [recv(1)]
    returns the empty bytes at once, which are neither a line feed nor an
    error. *)
Theorem closed_peer_never_answers (lines : list (list N)) (text : list N)
    (fuel : nat) (inbox : Inbox)
    (Hlines : Forall (fun l => Forall (fun c => c < 128 /\ c <> 10) l /\
                               filter (fun c => c <> 13) l <> []) lines)
    (Htext : Forall (fun c => c < 128 /\ c <> 10) text)
    (Hpeer : peer inbox = PeerClosed)
    (Hbytes : concat (arrived inbox) = concat (map (fun l => l ++ [10]) lines) ++ text) :
  _read_response loads unicode_decimal fuel inbox = Unfinished.
Proof. exact (read_response_closed lines text fuel inbox Hlines Htext Hpeer Hbytes). Qed.

(** X17: when the peer is there but falls silent before the blank line
    that ends the header, the timeout of the socket is caught and
    [_read_response] returns [None]. *)
Theorem silent_peer_answers_none (lines : list (list N)) (text : list N)
    (fuel : nat) (inbox : Inbox)
    (Hlines : Forall (fun l => Forall (fun c => c < 128 /\ c <> 10) l /\
                               filter (fun c => c <> 13) l <> []) lines)
    (Htext : Forall (fun c => c < 128 /\ c <> 10) text)
    (Hpeer : peer inbox = PeerOpen)
    (Hbytes : concat (arrived inbox) = concat (map (fun l => l ++ [10]) lines) ++ text)
    (Hfuel : (length (concat (arrived inbox)) + 1 < fuel)%nat) :
  exists inbox', _read_response loads unicode_decimal fuel inbox = Returns None inbox'.
Proof.
  destruct (read_headers_open lines text Hlines Htext fuel inbox ∅ Hpeer Hbytes Hfuel)
    as [inbox' Hr].
  exists inbox'. unfold _read_response. rewrite Hr. reflexivity.
Qed.

(** X18: a response whose whole body is at hand when the header has been
    read is decoded and returned, whatever the pieces in which the header
    came, and what follows the body is left for the next read. *)
Theorem body_at_hand_is_read (fuel : nat) (hs : list (list N)) (tail body extra : list N)
    (later : list (list N)) (p : peer_state) (content : str)
    (Hhs : Forall (fun c => c <> []) hs)
    (Hbody : body <> [])
    (Hheader : concat hs ++ tail = header_of (length body))
    (Hcontent : decode_utf8 body = Some content)
    (Hfuel : (length (header_of (length body)) < fuel)%nat) :
  _read_response loads unicode_decimal fuel
      {| arrived := hs ++ (tail ++ body ++ extra) :: later; peer := p |} =
    Returns (loaded loads content)
      {| arrived := (if decide (extra = []) then later else extra :: later); peer := p |}.
Proof.
  rewrite (read_response_header fuel (length body) hs tail (body ++ extra) later p Hhs);
    [|intros H; apply app_eq_nil in H as [H _]; contradiction
     |destruct body; [contradiction|cbn [length]; lia]|exact Hheader|exact Hfuel].
  rewrite take_app_length, drop_app_length, Hcontent. reflexivity.
Qed.

(** X19: a body that comes in two pieces is cut at the end of the first:
    the one [recv] returns what is at hand, that beginning alone is decoded
    and parsed, and the rest of the body stays in the socket, where the
    next read takes it for a header. *)
Theorem body_in_two_pieces_is_cut (fuel : nat) (hs : list (list N))
    (tail part1 part2 : list N) (later : list (list N)) (p : peer_state)
    (Hhs : Forall (fun c => c <> []) hs)
    (Hpart1 : part1 <> [])
    (Hpart2 : part2 <> [])
    (Hheader : concat hs ++ tail = header_of (length (part1 ++ part2)))
    (Hfuel : (length (header_of (length (part1 ++ part2))) < fuel)%nat) :
  _read_response loads unicode_decimal fuel
      {| arrived := hs ++ (tail ++ part1) :: part2 :: later; peer := p |} =
    Returns (match decode_utf8 part1 with
             | Some content => loaded loads content
             | None => None
             end)
      {| arrived := part2 :: later; peer := p |}.
Proof.
  rewrite (read_response_header fuel (length (part1 ++ part2)) hs tail part1
             (part2 :: later) p Hhs Hpart1);
    [|rewrite length_app; destruct part1; [contradiction|cbn [length]; lia]
     |exact Hheader|exact Hfuel].
  rewrite take_ge, drop_ge by (rewrite length_app; lia).
  rewrite decide_True by reflexivity. reflexivity.
Qed.

End ReadResponse.

End ReaderFacts.

Section ReaderExamples.
Import Py Json Wire PyText Reader.

Lemma line_is_read_without_carriage_returns_witness :
  exists inbox',
    _read_line 9 {| arrived := [[72; 13; 111]; [115; 116; 13; 10; 13]; [10]]; peer := PeerOpen |} [] =
      Returns (filter (fun c => c <> 13) [72; 13; 111; 115; 116; 13]) inbox' /\
    concat (arrived inbox') = [13; 10] /\ peer inbox' = PeerOpen.
Proof.
  apply (line_is_read_without_carriage_returns [72; 13; 111; 115; 116; 13] [13; 10] 9
           {| arrived := [[72; 13; 111]; [115; 116; 13; 10; 13]; [10]]; peer := PeerOpen |}).
  - repeat constructor; lia.
  - cbn; lia.
  - reflexivity.
Defined.

Lemma closed_peer_never_answers_witness :
  _read_response DecoderScenario.loads_empty_object DecoderScenario.no_unicode_decimal 5000
    {| arrived := [lit "Content-Length: 2" ++ [13; 10]; [13]]; peer := PeerClosed |} = Unfinished.
Proof.
  apply (closed_peer_never_answers DecoderScenario.loads_empty_object
           DecoderScenario.no_unicode_decimal [lit "Content-Length: 2" ++ [13]] [13] 5000
           {| arrived := [lit "Content-Length: 2" ++ [13; 10]; [13]]; peer := PeerClosed |}).
  - constructor; [split|constructor];
      [apply (bool_decide_unpack _); vm_compute; exact I|vm_compute; discriminate].
  - repeat constructor; lia.
  - reflexivity.
  - vm_compute. reflexivity.
Defined.

Lemma silent_peer_answers_none_witness :
  exists inbox',
    _read_response DecoderScenario.loads_empty_object DecoderScenario.no_unicode_decimal 30
      {| arrived := [lit "Content-Length: 2" ++ [13; 10]; [13]]; peer := PeerOpen |} =
      Returns None inbox'.
Proof.
  apply (silent_peer_answers_none DecoderScenario.loads_empty_object
           DecoderScenario.no_unicode_decimal [lit "Content-Length: 2" ++ [13]] [13] 30
           {| arrived := [lit "Content-Length: 2" ++ [13; 10]; [13]]; peer := PeerOpen |}).
  - constructor; [split|constructor];
      [apply (bool_decide_unpack _); vm_compute; exact I|vm_compute; discriminate].
  - repeat constructor; lia.
  - reflexivity.
  - vm_compute. reflexivity.
  - vm_compute. lia.
Defined.

Lemma body_at_hand_is_read_witness :
  _read_response DecoderScenario.loads_empty_object DecoderScenario.no_unicode_decimal 30
    {| arrived := [lit "Content-Len"; lit "gth: 2" ++ [13; 10; 13; 10; 123; 125; 67]];
       peer := PeerOpen |} =
    Returns (Some (JDict [])) {| arrived := [[67]]; peer := PeerOpen |}.
Proof.
  apply (body_at_hand_is_read DecoderScenario.loads_empty_object
           DecoderScenario.no_unicode_decimal 30 [lit "Content-Len"]
           (lit "gth: 2" ++ [13; 10; 13; 10]) [123; 125] [67] [] PeerOpen [123; 125]).
  - repeat constructor; discriminate.
  - discriminate.
  - vm_compute. reflexivity.
  - vm_compute. reflexivity.
  - vm_compute. lia.
Defined.

Lemma body_in_two_pieces_is_cut_witness :
  _read_response DecoderScenario.loads_empty_object DecoderScenario.no_unicode_decimal 30
    {| arrived := [lit "Content-Length: 2" ++ [13; 10; 13; 10; 123]; [125]];
       peer := PeerOpen |} =
    Returns None {| arrived := [[125]]; peer := PeerOpen |}.
Proof.
  apply (body_in_two_pieces_is_cut DecoderScenario.loads_empty_object
           DecoderScenario.no_unicode_decimal 30 []
           (lit "Content-Length: 2" ++ [13; 10; 13; 10]) [123] [125] [] PeerOpen).
  - constructor.
  - discriminate.
  - discriminate.
  - vm_compute. reflexivity.
  - vm_compute. lia.
Defined.

End ReaderExamples.

(** ** The source window *)

Section SourceWindow.
Import Py PyText Server.

Lemma elem_of_range (a b i : Z) : i ∈ range a b <-> (a <= i < b)%Z.
Proof.
  unfold range. rewrite list_elem_of_fmap. split.
  - intros (k & -> & Hk). apply elem_of_seq in Hk. lia.
  - intros H. exists (Z.to_nat (i - a)). split; [lia|]. apply elem_of_seq. lia.
Qed.

Lemma length_range (a b : Z) : length (range a b) = Z.to_nat (b - a).
Proof. unfold range. rewrite length_map, length_seq. reflexivity. Qed.

Lemma index_in_range {A : Type} (l : list A) (i : Z) :
  (0 <= i < Z.of_nat (length l))%Z ->
  index l i = l !! Z.to_nat i /\ is_Some (l !! Z.to_nat i).
Proof.
  intros H. unfold index. destruct (i <? 0)%Z eqn:E; [apply Z.ltb_lt in E; lia|].
  split; [reflexivity|]. apply lookup_lt_is_Some. lia.
Qed.

Lemma get_source_code_entries (lines : list str) (target context_lines : Z) :
  exists entries,
    get_source_code lines target context_lines = Some entries /\
    Forall2 (fun i e => entry_at lines target i = Some e)
      (range (Z.max 0 (target - context_lines - 1))
             (Z.min (Z.of_nat (length lines)) (target + context_lines)))
      entries.
Proof.
  assert (Hsome : is_Some (get_source_code lines target context_lines)).
  { unfold get_source_code. apply mapM_is_Some. apply Forall_forall. intros i Hi.
    apply elem_of_range in Hi. unfold compose, entry_at.
    destruct (index_in_range lines i ltac:(lia)) as [-> [line ->]]. eexists. reflexivity. }
  destruct Hsome as [entries Hentries]. exists entries. split; [exact Hentries|].
  unfold get_source_code in Hentries. apply mapM_Some in Hentries. exact Hentries.
Qed.

Lemma entry_at_inv (lines : list str) (target i : Z) (e : source_line) :
  (0 <= i < Z.of_nat (length lines))%Z ->
  entry_at lines target i = Some e ->
  exists line, lines !! Z.to_nat i = Some line /\
    e = {| line_number := i + 1; content := rstrip line; is_target := (i + 1 =? target)%Z |}.
Proof.
  intros Hi He. unfold entry_at in He.
  destruct (index_in_range lines i Hi) as [Hidx [line Hline]].
  rewrite Hidx, Hline in He. injection He as <-. exists line. split; [exact Hline|reflexivity].
Qed.

(** X20: whatever the line number and the number of context lines, the
    window stays within the file: no index is out of range, every entry
    carries a line of the file under its number, counted from one and
    stripped at its end, and there are at most twice the context plus one
    of them. *)
Theorem source_window_stays_in_file (lines : list str) (target context_lines : Z) :
  exists entries,
    get_source_code lines target context_lines = Some entries /\
    Forall (fun e => exists line,
              (1 <= line_number e)%Z /\
              lines !! Z.to_nat (line_number e - 1) = Some line /\
              content e = rstrip line /\
              is_target e = (line_number e =? target)%Z) entries /\
    (Z.of_nat (length entries) <= Z.max 0 (2 * context_lines + 1))%Z.
Proof.
  destruct (get_source_code_entries lines target context_lines) as (entries & Hget & Hall).
  exists entries. split; [exact Hget|]. split.
  - apply Forall_forall. intros e He.
    apply list_elem_of_lookup in He as [k Hk].
    destruct (Forall2_lookup_r _ _ _ _ _ Hall Hk) as (i & Hi & Hentry).
    apply list_elem_of_lookup_2 in Hi. apply elem_of_range in Hi.
    destruct (entry_at_inv lines target i e ltac:(lia) Hentry) as (line & Hline & ->).
    exists line. cbn [line_number content is_target].
    replace (i + 1 - 1)%Z with i by lia. repeat split; [lia|exact Hline].
  - rewrite <- (Forall2_length _ _ _ Hall), length_range. lia.
Qed.

(** X21: the window holds an entry marked as the target exactly when the
    target is a line of the file and the number of context lines is not
    negative. *)
Theorem target_is_marked_iff (lines : list str) (target context_lines : Z)
    (entries : list source_line)
    (Hget : get_source_code lines target context_lines = Some entries) :
  (exists e, e ∈ entries /\ is_target e = true) <->
  (1 <= target <= Z.of_nat (length lines) /\ 0 <= context_lines)%Z.
Proof.
  destruct (get_source_code_entries lines target context_lines) as (entries' & Hget' & Hall).
  rewrite Hget in Hget'. injection Hget' as <-. split.
  - intros (e & He & Ht). apply list_elem_of_lookup in He as [k Hk].
    destruct (Forall2_lookup_r _ _ _ _ _ Hall Hk) as (i & Hi & Hentry).
    apply list_elem_of_lookup_2 in Hi. apply elem_of_range in Hi.
    destruct (entry_at_inv lines target i e ltac:(lia) Hentry) as (line & Hline & ->).
    cbn [is_target] in Ht. apply Z.eqb_eq in Ht. lia.
  - intros [Htarget Hcontext].
    assert (Hin : (target - 1)%Z ∈ range (Z.max 0 (target - context_lines - 1))
                    (Z.min (Z.of_nat (length lines)) (target + context_lines))).
    { apply elem_of_range. lia. }
    apply list_elem_of_lookup in Hin as [k Hk].
    destruct (Forall2_lookup_l _ _ _ _ _ Hall Hk) as (e & He & Hentry).
    exists e. split; [exact (list_elem_of_lookup_2 _ _ _ He)|].
    destruct (entry_at_inv lines target (target - 1) e ltac:(lia) Hentry) as (line & _ & ->).
    cbn [is_target]. apply Z.eqb_eq. lia.
Qed.

End SourceWindow.

Section SourceWindowExamples.
Import Py PyText Server.

Lemma target_is_marked_iff_witness :
  (exists e, e ∈ [ {| line_number := 1; content := lit "a = 1"; is_target := false |};
                   {| line_number := 2; content := lit "b = 2"; is_target := true |} ] /\
             is_target e = true) <->
  ((1 <= 2 <= Z.of_nat (length [lit "a = 1" ++ [10%N]; lit "b = 2  " ++ [10%N]]))%Z /\
   (0 <= 1)%Z).
Proof.
  apply (target_is_marked_iff [lit "a = 1" ++ [10]; lit "b = 2  " ++ [10]] 2 1).
  vm_compute. reflexivity.
Defined.

End SourceWindowExamples.
